(** * Email campaign analyzer: CSV reader, template classifier, metrics
      extractor and aggregator of [src/EmailAnalyzer.jsx]

    The pipeline of the component is embedded as executable Rocq functions:
    [parseCSV], [analyzeTemplate], [calculateMetrics], [analyzeSubject] and
    [analyzeEmails].  JavaScript strings are sequences of code units; the
    embedding covers the code units U+0000..U+00FF (Rocq's [ascii], read as
    Latin-1), on which [toLowerCase], [trim] and the character classes of
    the regular expressions are written out as ECMAScript defines them. *)

From Stdlib Require Import ZArith NArith Ascii String List Bool Lia Sorted.
From Stdlib Require Import Floats.SpecFloat.
From stdpp Require Import gmap strings list fin_maps.

Local Open Scope string_scope.

(** ** JavaScript string primitives *)

Module JS.

Definition code (c : ascii) : N := N_of_ascii c.

Definition between (lo hi : N) (c : ascii) : bool :=
  ((lo <=? code c) && (code c <=? hi))%N.

(** WhiteSpace and LineTerminator code points below U+0100: TAB, LF, VT,
    FF, CR, SP and NBSP.  This is the set used by [trim], by [\s] and by
    the leading-blank skipping of [parseInt]. *)
Definition isWhiteSpace (c : ascii) : bool :=
  between 9 13 c || (code c =? 32)%N || (code c =? 160)%N.

(** [.] without the [s] flag rejects the line terminators (LF and CR here). *)
Definition isLineTerminator (c : ascii) : bool :=
  (code c =? 10)%N || (code c =? 13)%N.

Definition isDigit (c : ascii) : bool := between 48 57 c.

(** [\w] is [A-Za-z0-9_] (no [u] flag). *)
Definition isWordChar (c : ascii) : bool :=
  between 65 90 c || between 97 122 c || isDigit c || (code c =? 95)%N.

Definition isUpperAscii (c : ascii) : bool := between 65 90 c.

(** Upper-case letters of Latin-1: A-Z and U+00C0..U+00DE without the
    multiplication sign U+00D7. *)
Definition isUpper (c : ascii) : bool :=
  between 65 90 c || (between 192 222 c && negb (code c =? 215)%N).

Definition toLowerChar (c : ascii) : ascii :=
  if isUpper c then ascii_of_N (code c + 32) else c.

Fixpoint toLowerCase (s : string) : string :=
  match s with
  | EmptyString => EmptyString
  | String c s' => String (toLowerChar c) (toLowerCase s')
  end.

(** Canonicalize of case-insensitive matching (flag [i], no [u]): the
    upper-case form when it is a single code unit.  Inside Latin-1 the small
    letters a-z and U+00E0..U+00FE without the division sign U+00F7 map
    to their capitals; U+00B5, U+00DF and U+00FF keep themselves apart from
    every other Latin-1 code unit. *)
Definition canonicalize (c : ascii) : ascii :=
  if between 97 122 c || (between 224 254 c && negb (code c =? 247)%N)
  then ascii_of_N (code c - 32) else c.

Definition eqCI (c d : ascii) : bool :=
  (code (canonicalize c) =? code (canonicalize d))%N.

Definition isEmpty (s : string) : bool :=
  match s with EmptyString => true | _ => false end.

Fixpoint trimStart (s : string) : string :=
  match s with
  | String c s' => if isWhiteSpace c then trimStart s' else s
  | EmptyString => EmptyString
  end.

Fixpoint trimEnd (s : string) : string :=
  match s with
  | EmptyString => EmptyString
  | String c s' =>
      let t := trimEnd s' in
      if isWhiteSpace c && isEmpty t then EmptyString else String c t
  end.

Definition trim (s : string) : string := trimEnd (trimStart s).

(** [s.split(sep)] for a one-character separator: never the empty list. *)
Fixpoint split (sep : ascii) (s : string) : list string :=
  match s with
  | EmptyString => [EmptyString]
  | String c s' =>
      if Ascii.eqb c sep then EmptyString :: split sep s'
      else match split sep s' with
           | h :: t => String c h :: t
           | [] => [String c EmptyString]
           end
  end.

Fixpoint includes (c : ascii) (s : string) : bool :=
  match s with
  | EmptyString => false
  | String d s' => if Ascii.eqb c d then true else includes c s'
  end.

Definition dquote : ascii := ascii_of_N 34.
Definition comma : ascii := ascii_of_N 44.
Definition newline : ascii := ascii_of_N 10.

Fixpoint dropTrailingQuote (s : string) : string :=
  match s with
  | EmptyString => EmptyString
  | String c s' =>
      if Ascii.eqb c dquote && isEmpty s' then EmptyString
      else String c (dropTrailingQuote s')
  end.

(** [s.replace(/^"|"$/g, '')]: the first alternative can only match at
    index 0 and the second only at the last index; after a match at index
    0 the search resumes at index 1, so a one-character string consisting of
    a quote loses it once. *)
Definition stripQuotes (s : string) : string :=
  match s with
  | String c s' => if Ascii.eqb c dquote then dropTrailingQuote s'
                   else dropTrailingQuote s
  | EmptyString => EmptyString
  end.

End JS.

(** ** Regular expressions

    The fragment of the regular expression syntax that the source's
    literals use, with the matching relation written as a backtracking
    matcher in continuation-passing style.  [prev] is the code unit before
    the current position ([None] at index 0); [^] and [\b] look at it. *)

Module Regex.

Inductive cls : Type :=
| CAny      (* .   *)
| CDigit    (* \d  *)
| CSpace.   (* \s  *)

Definition inCls (k : cls) (c : ascii) : bool :=
  match k with
  | CAny => negb (JS.isLineTerminator c)
  | CDigit => JS.isDigit c
  | CSpace => JS.isWhiteSpace c
  end.

Inductive re : Type :=
| Eps
| Chr (c : ascii)          (* a literal character, flag i *)
| Cls (k : cls)
| Bol                      (* ^  *)
| Wb                       (* \b *)
| Seq (r1 r2 : re)
| Alt (r1 r2 : re)
| Opt (r : re)             (* r? *)
| Star (k : cls).          (* k* *)

Fixpoint lit (s : string) : re :=
  match s with
  | EmptyString => Eps
  | String c EmptyString => Chr c
  | String c s' => Seq (Chr c) (lit s')
  end.

Fixpoint alts (rs : list re) : re :=
  match rs with
  | [] => Eps
  | [r] => r
  | r :: rs' => Alt r (alts rs')
  end.

Definition lits (ss : list string) : re := alts (map lit ss).
Definition Plus (k : cls) : re := Seq (Cls k) (Star k).

Definition cont : Type := option ascii -> string -> bool.

Fixpoint star (k : cls) (kont : cont) (prev : option ascii) (s : string)
  : bool :=
  match s with
  | String c s' =>
      if (if inCls k c then star k kont (Some c) s' else false) then true
      else kont prev s
  | EmptyString => kont prev s
  end.

Definition isWordAt (o : option ascii) : bool :=
  match o with Some c => JS.isWordChar c | None => false end.

Definition next (s : string) : option ascii :=
  match s with String c _ => Some c | EmptyString => None end.

Fixpoint matchAt (r : re) (prev : option ascii) (s : string) (kont : cont)
  : bool :=
  match r with
  | Eps => kont prev s
  | Chr c =>
      match s with
      | String d s' => if JS.eqCI c d then kont (Some d) s' else false
      | EmptyString => false
      end
  | Cls k =>
      match s with
      | String d s' => if inCls k d then kont (Some d) s' else false
      | EmptyString => false
      end
  | Bol => match prev with None => kont prev s | Some _ => false end
  | Wb => if xorb (isWordAt prev) (isWordAt (next s)) then kont prev s
          else false
  | Seq r1 r2 => matchAt r1 prev s (fun p t => matchAt r2 p t kont)
  | Alt r1 r2 => if matchAt r1 prev s kont then true
                 else matchAt r2 prev s kont
  | Opt r1 => if matchAt r1 prev s kont then true else kont prev s
  | Star k => star k kont prev s
  end.

Definition matchesHere (r : re) (prev : option ascii) (s : string) : bool :=
  matchAt r prev s (fun _ _ => true).

Fixpoint searchFrom (r : re) (prev : option ascii) (s : string) : bool :=
  if matchesHere r prev s then true
  else match s with
       | String c s' => searchFrom r (Some c) s'
       | EmptyString => false
       end.

(** [r.test(s)] for a regular expression without the [g] flag. *)
Definition test (r : re) (s : string) : bool := searchFrom r None s.

End Regex.

(** ** The template registry ([TEMPLATES]) *)

Module Registry.
Import Regex.

Record Indicator : Type := mkIndicator { pattern : re; weight : nat }.

Record Template : Type := mkTemplate {
  name : string;
  description : string;
  indicators : list Indicator;
  minScore : nat
}.

Definition ind (r : re) (w : nat) : Indicator := mkIndicator r w.

(** [a.*b] *)
Definition thenLater (a b : re) : re := Seq a (Seq (Star CAny) b).

(** [words?] for each of the words *)
Definition optS (w : string) : re := Seq (lit w) (Opt (Chr "s")).

Definition RESEARCH_BASED : Template := mkTemplate
  "Research-Based Outreach"
  "Personalized emails that reference specific research about the prospect or their organization, followed by a relevant pain point question and social proof"
  [ ind (lits ["noticed"; "saw that"; "came across"; "read about";
               "read that"; "saw your"; "found that"]) 2;
    ind (lits ["wondering if"; "curious if"; "curious about";
               "interested to know"]) 2;
    ind (alts [lit "was able to"; lit "were able to"; lit "achieved";
               lit "accomplished"; lit "saw a";
               thenLater (lit "helped") (lit "achieve")]) 2;
    ind (thenLater
           (alts [optS "challenge"; optS "issue"; optS "pain point";
                  optS "concern"])
           (lits ["facing"; "experiencing"; "dealing with"])) 1 ]
  4.

Definition PROBLEM_SOLUTION : Template := mkTemplate
  "Problem + Solution"
  "Direct approach identifying a common problem followed by proposed solution, often without personalization"
  [ ind (lits ["struggling with"; "challenges with"; "difficulty";
               "problem with"; "issue with"]) 2;
    ind (lits ["solution"; "solve"; "address"; "help with"; "can help"]) 2;
    ind (Seq (lit "we ")
             (lits ["offer"; "provide"; "have"; "specialize"])) 1 ]
  3.

Definition MEETING_REQUEST : Template := mkTemplate
  "Direct Meeting Request"
  "Straightforward ask for a meeting or call, often with minimal context"
  [ ind (alts [lit "schedule"; lit "calendar"; lit "meeting"; lit "call";
               lit "connect";
               Seq (lit "time to ") (lits ["chat"; "talk"; "discuss"])]) 2;
    ind (alts [lit "available"; lit "free"; lit "open";
               Seq (lit "have ") (lits ["time"; "15 minutes"])]) 1;
    ind (alts [Seq (lit "would you ") (lits ["be"; "have"]);
               Seq (lit "are you ") (lits ["available"; "free"])]) 1 ]
  3.

Definition FOLLOW_UP : Template := mkTemplate
  "Follow-Up"
  "Checking in on previous communication or continuing an existing conversation"
  [ ind (lits ["following up"; "follow up"; "checking in"; "touching base";
               "circling back"]) 3;
    ind (alts [lit "previous"; lit "earlier";
               Seq (lit "last ") (lits ["week"; "email"; "conversation"]);
               lit "haven't heard"]) 2 ]
  3.

Definition VALUE_PROP : Template := mkTemplate
  "Value Proposition"
  "Leading with company benefits, ROI, or results without specific personalization"
  [ ind (lits ["we help"; "we work with"; "we've helped"; "we partner"]) 2;
    ind (lits ["increase"; "reduce"; "improve"; "save"; "grow"]) 1;
    ind (Alt (Seq (Plus CDigit) (Chr "%"))
             (Seq (Plus CDigit) (Chr "x"))) 1 ]
  3.

Definition EVENT_BASED : Template := mkTemplate
  "Event-Based Outreach"
  "Leveraging a conference, event, or specific timing for outreach"
  [ ind (lits ["conference"; "summit"; "meeting"; "event"; "attending"]) 2;
    ind (alts [lit "while you're"; lit "will be";
               Seq (lit "in ")
                   (lits ["new york"; "boston"; "chicago"; "san francisco";
                          "new orleans"])]) 2;
    ind (lits ["next week"; "coming up"; "around the corner"]) 1 ]
  3.

Definition SOCIAL_PROOF : Template := mkTemplate
  "Social Proof Heavy"
  "Multiple references to other clients, case studies, or results to build credibility"
  [ ind (thenLater
           (lits ["university"; "college"; "school"; "hospital";
                  "health system"])
           (lits ["achieved"; "saw"; "increased"])) 2;
    ind (lits ["similar to yours"; "others like you"; "clients like"]) 2;
    ind (lits ["case study"; "success story"]) 2 ]
  3.

Definition QUESTION_OPENER : Template := mkTemplate
  "Question Opener"
  "Opens with a direct question to engage prospect"
  [ ind (Seq Bol (Seq (lits ["hi"; "hello"; "hey"])
                      (Seq (Star CAny) (Seq (Chr "?") (Cls CSpace))))) 2;
    ind (Seq Bol (Seq (lits ["are you"; "do you"; "have you"; "would you";
                             "can you"]) Wb)) 2 ]
  2.

(** [Object.entries(TEMPLATES)]: the entries in the order of the literal. *)
Definition TEMPLATES : list Template :=
  [ RESEARCH_BASED; PROBLEM_SOLUTION; MEETING_REQUEST; FOLLOW_UP;
    VALUE_PROP; EVENT_BASED; SOCIAL_PROOF; QUESTION_OPENER ].

End Registry.

(** ** Template classifier ([analyzeTemplate]) *)

Module Classifier.
Import Regex.

Abbreviation Template := Registry.Template.

Record Classification : Type := mkClassification {
  type : string;
  score : nat;
  description : string
}.

Definition lt : ascii := ascii_of_N 60.
Definition gt : ascii := ascii_of_N 62.
Definition space : ascii := ascii_of_N 32.

(** [s.replace(/<[^>]*>/g, '')]: a [<] opens a match when a [>] follows
    somewhere; the match ends at the first such [>]. *)
Fixpoint stripTagsFrom (inTag : bool) (s : string) : string :=
  match s with
  | EmptyString => EmptyString
  | String c s' =>
      if inTag then stripTagsFrom (negb (Ascii.eqb c gt)) s'
      else if (if Ascii.eqb c lt then JS.includes gt s' else false)
      then stripTagsFrom true s'
      else String c (stripTagsFrom false s')
  end.

Definition stripTags (s : string) : string := stripTagsFrom false s.

(** [s.replace(/\s+/g, ' ')] *)
Fixpoint collapseFrom (inRun : bool) (s : string) : string :=
  match s with
  | EmptyString => EmptyString
  | String c s' =>
      if JS.isWhiteSpace c
      then (if inRun then collapseFrom true s'
            else String space (collapseFrom true s'))
      else String c (collapseFrom false s')
  end.

Definition collapseSpaces (s : string) : string := collapseFrom false s.

Definition signature : re :=
  lits ["--"; "sincerely"; "best regards"; "regards"; "thanks"; "thank you";
        "cheers"].

(** [s.split(r)[0]] for an [r] that matches no empty string: the text
    before the leftmost match, the whole of [s] without one. *)
Fixpoint beforeFirstMatch (r : re) (prev : option ascii) (s : string)
  : string :=
  if matchesHere r prev s then EmptyString
  else match s with
       | EmptyString => EmptyString
       | String c s' => String c (beforeFirstMatch r (Some c) s')
       end.

(** [s.split(/\s+/)] *)
Fixpoint splitSpacesFrom (inRun : bool) (s : string) : list string :=
  match s with
  | EmptyString => [EmptyString]
  | String c s' =>
      if JS.isWhiteSpace c
      then (if inRun then splitSpacesFrom true s'
            else EmptyString :: splitSpacesFrom true s')
      else match splitSpacesFrom false s' with
           | h :: t => String c h :: t
           | [] => [String c EmptyString]
           end
  end.

Definition splitSpaces (s : string) : list string := splitSpacesFrom false s.

Definition bodyWithoutSig (emailBody : string) : string :=
  let body := JS.toLowerCase emailBody in
  let cleanBody := JS.trim (collapseSpaces (stripTags body)) in
  beforeFirstMatch signature None cleanBody.

(** The inner [for] loop over [template.indicators]. *)
Definition scoreOf (t : Template) (text : string) : nat :=
  fold_left
    (fun score i =>
       if test (Registry.pattern i) text then score + Registry.weight i
       else score)
    (Registry.indicators t) 0.

Definition resultOf (t : Template) (s : nat) : Classification :=
  mkClassification (Registry.name t) s (Registry.description t).

(** One iteration of the outer [for] loop; the state is
    [(bestMatch, highestScore)]. *)
Definition consider (text : string)
    (st : option Classification * nat) (t : Template)
  : option Classification * nat :=
  let score := scoreOf t text in
  if (Registry.minScore t <=? score)%nat && (snd st <? score)%nat
  then (Some (resultOf t score), score)
  else st.

Definition bestMatch (ts : list Template) (text : string)
  : option Classification :=
  fst (fold_left (consider text) ts (None, 0)).

Definition fallback (text : string) : Classification :=
  let wordCount := List.length (splitSpaces text) in
  if (wordCount <? 30)%nat then
    mkClassification "Short & Direct" 1 "Brief, concise message under 30 words"
  else if (150 <? wordCount)%nat then
    mkClassification "Long-Form Narrative" 1
      "Detailed, comprehensive message over 150 words"
  else
    mkClassification "Standard Outreach" 0
      "General outreach email without distinct pattern".

Definition emptyBody : Classification :=
  mkClassification "Empty/No Body" 0 "Email has no body content".

Definition isBlank (emailBody : string) : bool :=
  JS.isEmpty emailBody || (String.length (JS.trim emailBody) =? 0)%nat.

Definition analyzeTemplate (emailBody : string) : Classification :=
  if isBlank emailBody then emptyBody
  else
    let text := bodyWithoutSig emailBody in
    match bestMatch Registry.TEMPLATES text with
    | Some m => m
    | None => fallback text
    end.

End Classifier.

(** ** CSV reader ([parseCSV]) *)

Module Csv.

(** A row object: own string-valued properties keyed by header name. *)
Abbreviation Row := (gmap string string).

(** [row[header] = v] on an object literal: an own property is written,
    except under the key [__proto__], whose inherited setter ignores a
    string. *)
Definition setProp (header v : string) (row : Row) : Row :=
  if String.eqb header "__proto__" then row else <[header := v]> row.

Record ScanState : Type := mkScan {
  values : list string;
  current : string;
  inQuotes : bool
}.

Definition initScan : ScanState := mkScan [] EmptyString false.

(** [current.trim().replace(/^"|"$/g, '')] *)
Definition finishField (current : string) : string :=
  JS.stripQuotes (JS.trim current).

(** Body of the [for] loop over the characters of [line]. *)
Definition scanChar (st : ScanState) (char : ascii) : ScanState :=
  if Ascii.eqb char JS.dquote then
    mkScan (values st) (current st) (negb (inQuotes st))
  else if Ascii.eqb char JS.comma && negb (inQuotes st) then
    mkScan (values st ++ [finishField (current st)]) EmptyString (inQuotes st)
  else
    mkScan (values st) (current st ++ String char EmptyString) (inQuotes st).

Fixpoint scanLine (line : string) (st : ScanState) : ScanState :=
  match line with
  | EmptyString => st
  | String char line' => scanLine line' (scanChar st char)
  end.

(** [current += '\n'] when the line ended inside quotes. *)
Definition continueLine (st : ScanState) : ScanState :=
  mkScan (values st) (current st ++ String JS.newline EmptyString)
         (inQuotes st).

(** [values.push(current.trim().replace(...))] after the inner loop. *)
Definition finishRecord (st : ScanState) : list string :=
  (values st ++ [finishField (current st)])%list.

Definition orEmpty (o : option string) : string :=
  match o with Some v => v | None => EmptyString end.

(** [headers.forEach((header, idx) => row[header] = values[idx] || '')] *)
Fixpoint fillRow (headers : list string) (idx : nat) (vals : list string)
    (row : Row) : Row :=
  match headers with
  | [] => row
  | header :: headers' =>
      fillRow headers' (S idx) vals (setProp header (orEmpty (vals !! idx)) row)
  end.

Definition mkRow (headers vals : list string) : Row :=
  fillRow headers 0 vals ∅.

(** [row.k && row.k.trim().length > 0] as a condition. *)
Definition hasContent (o : option string) : bool :=
  match o with
  | Some v => negb (JS.isEmpty v) && (0 <? String.length (JS.trim v))%nat
  | None => false
  end.

Definition keepRow (row : Row) : bool :=
  let hasBody := hasContent (row !! "body") in
  let hasSubject := hasContent (row !! "subject") in
  let hasRecipient := hasContent (row !! "recipient") in
  if hasBody || hasSubject || hasRecipient then
    if negb hasBody
       || (10 <=? String.length (JS.trim (orEmpty (row !! "body"))))%nat
    then true else false
  else false.

(** The end of one logical record: build the row, keep or drop it. *)
Definition pushRecord (headers : list string) (st : ScanState)
    (rows : list Row) : list Row :=
  let row := mkRow headers (finishRecord st) in
  if keepRow row then (rows ++ [row])%list else rows.

(** The two nested [while] loops.  [line] is [lines[i]], [rest] the lines
    after it, [st] the scanner state of the logical record being read and
    [rows] the rows pushed so far.  After the characters of [line]: inside
    quotes with a line left, the inner loop goes on with that line; else the
    record ends, and the outer loop starts the next record at the next line,
    if there is one. *)
Fixpoint rowsFrom (headers : list string) (line : string)
    (rest : list string) (st : ScanState) (rows : list Row) : list Row :=
  let st' := scanLine line st in
  match rest with
  | nextLine :: rest' =>
      if inQuotes st'
      then rowsFrom headers nextLine rest' (continueLine st') rows
      else rowsFrom headers nextLine rest' initScan
             (pushRecord headers st' rows)
  | [] => pushRecord headers st' rows
  end.

Definition parseHeaders (line : string) : list string :=
  map (fun h => JS.toLowerCase (JS.stripQuotes (JS.trim h)))
      (JS.split JS.comma line).

Definition parseCSV (text : string) : list Row :=
  match JS.split JS.newline text with
  | headerLine :: line :: rest =>
      rowsFrom (parseHeaders headerLine) line rest initScan []
  | _ => []
  end.

End Csv.

(** ** Numbers

    Counters and lengths are natural numbers.  A value returned by
    [parseInt] is [NaN] or the mathematical integer that was read; the
    Number it rounds to has the same sign, which is all that the comparison
    with 0 looks at. *)

Module Num.

Inductive jsnum : Type :=
| NaN
| Num (z : Z).

(** [x > 0] *)
Definition gt0 (x : jsnum) : bool :=
  match x with NaN => false | Num z => (0 <? z)%Z end.

Definition digitValue (radix : Z) (c : ascii) : option Z :=
  let n := Z.of_N (JS.code c) in
  let v := if JS.between 48 57 c then Some (n - 48)%Z
           else if JS.between 97 122 c then Some (n - 87)%Z
           else if JS.between 65 90 c then Some (n - 55)%Z
           else None in
  match v with
  | Some d => if (d <? radix)%Z then Some d else None
  | None => None
  end.

(** The longest prefix of digits of the radix, read from the left; [None]
    when it is empty. *)
Fixpoint digitsFrom (radix : Z) (acc : option Z) (s : string) : option Z :=
  match s with
  | EmptyString => acc
  | String c s' =>
      match digitValue radix c with
      | Some d =>
          digitsFrom radix
            (Some (match acc with Some a => a * radix + d | None => d end)%Z) s'
      | None => acc
      end
  end.

Definition hasHexPrefix (s : string) : option string :=
  match s with
  | String c0 (String c1 s') =>
      if Ascii.eqb c0 "0" && (Ascii.eqb c1 "x" || Ascii.eqb c1 "X")
      then Some s' else None
  | _ => None
  end.

(** [parseInt(s)] without a radix argument. *)
Definition parseInt (s : string) : jsnum :=
  let s0 := JS.trimStart s in
  let '(sign, s1) :=
    match s0 with
    | String c s' =>
        if Ascii.eqb c "-" then ((-1)%Z, s')
        else if Ascii.eqb c "+" then (1%Z, s')
        else (1%Z, s0)
    | EmptyString => (1%Z, s0)
    end in
  let '(radix, s2) :=
    match hasHexPrefix s1 with
    | Some s' => (16%Z, s')
    | None => (10%Z, s1)
    end in
  match digitsFrom radix None s2 with
  | Some n => Num (sign * n)
  | None => NaN
  end.

(** *** Binary64 arithmetic and the two roundings to text and to integer *)

Abbreviation float := spec_float.

Definition prec : Z := 53.
Definition emax : Z := 1024.

(** The Number of a natural number. *)
Definition ofNat (n : nat) : float :=
  binary_normalize prec emax (Z.of_nat n) 0 false.

Definition div (x y : float) : float := SFdiv prec emax x y.
Definition mul (x y : float) : float := SFmul prec emax x y.

(** The integer nearest to [m * 2^e * scale], the larger one at a tie. *)
Definition roundHalfUp (m e : Z) (scale : Z) : Z :=
  if (0 <=? e)%Z then m * 2 ^ e * scale
  else (2 * m * scale + 2 ^ (- e)) / 2 ^ (- e + 1).

Definition digitChar (d : Z) : ascii := ascii_of_N (Z.to_N (48 + d)).

Fixpoint decimalFrom (fuel : nat) (n : Z) (acc : string) : string :=
  match fuel with
  | O => acc
  | S fuel' =>
      let acc' := String (digitChar (n mod 10)) acc in
      if (n <? 10)%Z then acc' else decimalFrom fuel' (n / 10) acc'
  end.

(** The decimal digits of [n >= 0]. *)
Definition decimal (n : Z) : string :=
  decimalFrom (S (Z.to_nat (Z.log2 n))) n EmptyString.

(** [n] written with one digit after the point (n = 1234 is 123.4). *)
Definition oneDecimal (n : Z) : string :=
  decimal (n / 10) ++ "." ++ String (digitChar (n mod 10)) EmptyString.

(** [x.toFixed(1)].  A finite [x] is written exactly as the specification
    rounds it; the switch to exponent notation from 1e21 on is outside the
    values the rates can take (they lie between 0 and 100). *)
Definition toFixed1 (x : float) : string :=
  match x with
  | S754_nan => "NaN"
  | S754_infinity s => if s then "-Infinity" else "Infinity"
  | S754_zero _ => "0.0"
  | S754_finite s m e =>
      let n := roundHalfUp (Zpos m) e 10 in
      (if s then "-" else EmptyString) ++ oneDecimal n
  end.

(** [Math.round(x)] of a finite [x]; the quotient it is applied to has a
    positive divisor. *)
Definition round (x : float) : jsnum :=
  match x with
  | S754_zero _ => Num 0
  | S754_finite s m e => Num (roundHalfUp (cond_Zopp s (Zpos m)) e 1)
  | _ => NaN
  end.

(** [((a / b) * 100).toFixed(1)] *)
Definition percent (a b : nat) : string :=
  toFixed1 (mul (div (ofNat a) (ofNat b)) (ofNat 100)).

End Num.

(** ** Metrics extractor ([calculateMetrics]) and subject features
       ([analyzeSubject]) *)

Module Extract.
Import Num.

Abbreviation Row := (gmap string string).

(** A property read [email.k]: [None] is [undefined].  The keys that the
    source reads are not properties of [Object.prototype]. *)
Definition truthy (o : option string) : bool :=
  match o with Some v => negb (JS.isEmpty v) | None => false end.

(** [email.k1 || email.k2 || ...]: the first truthy operand. *)
Fixpoint firstOf (email : Row) (keys : list string) : option string :=
  match keys with
  | [] => None
  | k :: keys' => if truthy (email !! k) then email !! k
                  else firstOf email keys'
  end.

(** [... || ''] *)
Definition textOf (email : Row) (keys : list string) : string :=
  match firstOf email keys with Some v => v | None => EmptyString end.

(** [parseInt(... || 0)]; the number 0 is converted to the string 0. *)
Definition countOf (email : Row) (keys : list string) : jsnum :=
  match firstOf email keys with
  | Some v => parseInt v
  | None => parseInt "0"
  end.

Record Metrics : Type := mkMetrics {
  opened : bool;
  clicked : bool;
  replied : bool;
  opens : jsnum;
  clicks : jsnum;
  replies : jsnum
}.

Definition opensKeys : list string := ["opens"; "Opens"; "opened"; "Opened"].
Definition clicksKeys : list string :=
  ["clicks"; "Clicks"; "clicked"; "Clicked"].
Definition repliesKeys : list string :=
  ["replies"; "Replies"; "replied"; "Replied"].

Definition metricsWith (ko kc kr : list string) (email : Row) : Metrics :=
  let opens := countOf email ko in
  let clicks := countOf email kc in
  let replies := countOf email kr in
  mkMetrics (gt0 opens) (gt0 clicks) (gt0 replies) opens clicks replies.

Definition calculateMetrics (email : Row) : Metrics :=
  metricsWith opensKeys clicksKeys repliesKeys email.

(** The two fields that the early return leaves out are [None]. *)
Record SubjectFeatures : Type := mkSubject {
  length : nat;
  hasQuestion : bool;
  hasPersonalization : bool;
  hasNumbers : option bool;
  hasEmoji : option bool
}.

Definition personalization : Regex.re :=
  Regex.lits ["{"; "["; "first"; "name"].

(** [/[\u{1F600}-\u{1F64F}]/u] asks for a code point above U+00FF. *)
Definition analyzeSubject (subject : string) : SubjectFeatures :=
  if JS.isEmpty subject then mkSubject 0 false false None None
  else mkSubject (String.length subject)
                 (JS.includes "?" subject)
                 (Regex.test personalization subject)
                 (Some (Regex.test (Regex.Cls Regex.CDigit) subject))
                 (Some false).

End Extract.

(** ** Aggregator ([analyzeEmails]) *)

Module Detail.
Record t : Type := mk {
  subject : string;
  body : string;
  metrics : Extract.Metrics;
  sentDate : string;
  recipient : string
}.
End Detail.

(** [group.count > 0 ? (...).toFixed(1) : 0]: a text, or the number 0. *)
Inductive Rate : Type :=
| RateText (s : string)
| RateZero.

Module Group.
(** The three rates are [None] until the pass that computes them. *)
Record t : Type := mk {
  name : string;
  description : string;
  count : nat;
  opens : nat;
  clicks : nat;
  replies : nat;
  avgLength : Num.jsnum;
  totalLength : nat;
  emails : list Detail.t;
  openRate : option Rate;
  clickRate : option Rate;
  replyRate : option Rate
}.
End Group.

Module Bucket.
Record t : Type := mk { opens : nat; total : nat }.
End Bucket.

Module Subjects.
Record t : Type := mk {
  withQuestion : Bucket.t;
  withoutQuestion : Bucket.t;
  shortSubject : Bucket.t;
  longSubject : Bucket.t
}.
End Subjects.

Module Overall.
Record t : Type := mk {
  totalEmails : nat;
  totalOpens : nat;
  totalClicks : nat;
  totalReplies : nat;
  openRate : string;
  clickRate : string;
  replyRate : string
}.
End Overall.

Module Report.
Record t : Type := mk {
  templateGroups : list Group.t;
  overall : Overall.t;
  subjectAnalysis : Subjects.t
}.
End Report.

Module Aggregator.
Import Extract.

(** The alias lists of the property reads, in the order of the [||]
    chains. *)
Record Aliases : Type := mkAliases {
  bodyKeys : list string;
  subjectKeys : list string;
  dateKeys : list string;
  recipientKeys : list string;
  opensKeys : list string;
  clicksKeys : list string;
  repliesKeys : list string
}.

Definition sourceAliases : Aliases := mkAliases
  ["body"; "Body"; "Email Body"; "content"; "message"]
  ["subject"; "Subject"; "Subject Line"; "subject_line"]
  ["date"; "Date"; "Sent Date"; "sent_date"]
  ["to"; "To"; "recipient"; "Recipient"; "email"]
  Extract.opensKeys Extract.clicksKeys Extract.repliesKeys.

(** [templateGroups]: the own properties of the object in creation order,
    which is the order of [Object.values]. *)
Abbreviation Groups := (list (string * Group.t)).

Fixpoint lookupGroup (key : string) (gs : Groups) : option Group.t :=
  match gs with
  | [] => None
  | (k, g) :: gs' => if String.eqb k key then Some g else lookupGroup key gs'
  end.

(** [templateGroups[key] = f(templateGroups[key])] on an existing key. *)
Fixpoint adjustGroup (key : string) (f : Group.t -> Group.t) (gs : Groups)
  : Groups :=
  match gs with
  | [] => []
  | (k, g) :: gs' =>
      if String.eqb k key then (k, f g) :: gs'
      else (k, g) :: adjustGroup key f gs'
  end.

Definition orText (s d : string) : string :=
  if JS.isEmpty s then d else s.

Definition newGroup (template : Classifier.Classification) : Group.t :=
  Group.mk (Classifier.type template)
           (orText (Classifier.description template) "Email template pattern")
           0 0 0 0 (Num.Num 0) 0 [] None None None.

Definition bump (b : bool) (n : nat) : nat := if b then S n else n.

(** The updates of [group] in one iteration. *)
Definition addEmail (bodyField : string) (m : Metrics) (d : Detail.t)
    (group : Group.t) : Group.t :=
  let count := S (Group.count group) in
  let totalLength := Group.totalLength group + String.length bodyField in
  Group.mk (Group.name group) (Group.description group)
           count
           (bump (opened m) (Group.opens group))
           (bump (clicked m) (Group.clicks group))
           (bump (replied m) (Group.replies group))
           (Num.round (Num.div (Num.ofNat totalLength) (Num.ofNat count)))
           totalLength
           (Group.emails group ++ [d])
           (Group.openRate group) (Group.clickRate group)
           (Group.replyRate group).

Definition addTo (isOpened : bool) (b : Bucket.t) : Bucket.t :=
  Bucket.mk (bump isOpened (Bucket.opens b)) (S (Bucket.total b)).

Definition addSubject (subject : SubjectFeatures) (m : Metrics)
    (sa : Subjects.t) : Subjects.t :=
  let sa1 :=
    if hasQuestion subject then
      Subjects.mk (addTo (opened m) (Subjects.withQuestion sa))
                  (Subjects.withoutQuestion sa)
                  (Subjects.shortSubject sa) (Subjects.longSubject sa)
    else
      Subjects.mk (Subjects.withQuestion sa)
                  (addTo (opened m) (Subjects.withoutQuestion sa))
                  (Subjects.shortSubject sa) (Subjects.longSubject sa) in
  if (length subject <? 40)%nat then
    Subjects.mk (Subjects.withQuestion sa1) (Subjects.withoutQuestion sa1)
                (addTo (opened m) (Subjects.shortSubject sa1))
                (Subjects.longSubject sa1)
  else
    Subjects.mk (Subjects.withQuestion sa1) (Subjects.withoutQuestion sa1)
                (Subjects.shortSubject sa1)
                (addTo (opened m) (Subjects.longSubject sa1)).

Definition emptySubjects : Subjects.t :=
  Subjects.mk (Bucket.mk 0 0) (Bucket.mk 0 0) (Bucket.mk 0 0) (Bucket.mk 0 0).

Section WithAliases.
Variable al : Aliases.

Definition metricsOf (email : Row) : Metrics :=
  metricsWith (opensKeys al) (clicksKeys al) (repliesKeys al) email.

(** The callback of [emails.forEach]; the state is the pair of
    [templateGroups] and [subjectAnalysis]. *)
Definition processEmail (st : Groups * Subjects.t) (email : Row)
  : Groups * Subjects.t :=
  let '(templateGroups, subjectAnalysis) := st in
  let bodyField := textOf email (bodyKeys al) in
  let subjectField := textOf email (subjectKeys al) in
  let template := Classifier.analyzeTemplate bodyField in
  let metrics := metricsOf email in
  let subject := analyzeSubject subjectField in
  let key := Classifier.type template in
  let templateGroups1 :=
    match lookupGroup key templateGroups with
    | Some _ => templateGroups
    | None => (templateGroups ++ [(key, newGroup template)])%list
    end in
  let detail :=
    Detail.mk subjectField bodyField metrics
              (textOf email (dateKeys al)) (textOf email (recipientKeys al)) in
  (adjustGroup key (addEmail bodyField metrics detail) templateGroups1,
   addSubject subject metrics subjectAnalysis).

Definition rateOf (n count : nat) : Rate :=
  if (0 <? count)%nat then RateText (Num.percent n count) else RateZero.

(** The pass that computes the rates of each group. *)
Definition withRates (group : Group.t) : Group.t :=
  Group.mk (Group.name group) (Group.description group) (Group.count group)
           (Group.opens group) (Group.clicks group) (Group.replies group)
           (Group.avgLength group) (Group.totalLength group)
           (Group.emails group)
           (Some (rateOf (Group.opens group) (Group.count group)))
           (Some (rateOf (Group.clicks group) (Group.count group)))
           (Some (rateOf (Group.replies group) (Group.count group))).

(** [sort((a, b) => b.count - a.count)], a stable sort: a group moves
    behind the groups after it that have a larger count. *)
Fixpoint insertByCount (g : Group.t) (gs : list Group.t) : list Group.t :=
  match gs with
  | [] => [g]
  | h :: gs' =>
      if (Group.count g <? Group.count h)%nat then h :: insertByCount g gs'
      else g :: gs
  end.

Definition sortByCount (gs : list Group.t) : list Group.t :=
  foldr insertByCount [] gs.

Definition countWhere (p : Metrics -> bool) (emails : list Row) : nat :=
  List.length (List.filter (fun e => p (metricsOf e)) emails).

Definition overallOf (emails : list Row) : Overall.t :=
  let totalEmails := List.length emails in
  let totalOpens := countWhere opened emails in
  let totalClicks := countWhere clicked emails in
  let totalReplies := countWhere replied emails in
  Overall.mk totalEmails totalOpens totalClicks totalReplies
             (Num.percent totalOpens totalEmails)
             (Num.percent totalClicks totalEmails)
             (Num.percent totalReplies totalEmails).

Definition analyzeEmailsWith (emails : list Row) : Report.t :=
  let '(templateGroups, subjectAnalysis) :=
    fold_left processEmail emails ([], emptySubjects) in
  Report.mk (sortByCount (map (fun kg => withRates (snd kg)) templateGroups))
            (overallOf emails)
            subjectAnalysis.

End WithAliases.

Definition analyzeEmails (emails : list Row) : Report.t :=
  analyzeEmailsWith sourceAliases emails.

End Aggregator.

(** ** Upload handler, export and chart data *)

Module Ui.

(** The three numbers that [handleFileUpload] logs: the physical lines of
    the file, the rows parsed, and the difference named empty rows
    skipped, a Number that is computed by subtraction. *)
Record UploadLog : Type := mkLog {
  totalLines : nat;
  validEmails : nat;
  emptyRowsSkipped : Z
}.

Definition uploadLog (text : string) (parsed : list Csv.Row) : UploadLog :=
  let lines := List.length (JS.split JS.newline text) in
  mkLog lines (List.length parsed)
        (Z.of_nat lines - Z.of_nat (List.length parsed) - 1)%Z.

(** The body of [reader.onload]: the log, the new [data] and the new
    [analysis]. *)
Definition handleFileUpload (text : string)
  : UploadLog * list Csv.Row * Report.t :=
  let parsed := Csv.parseCSV text in
  (uploadLog text parsed, parsed, Aggregator.analyzeEmails parsed).

Module Template.
Record t : Type := mk {
  name : string;
  count : nat;
  openRate : option Rate;
  clickRate : option Rate;
  replyRate : option Rate;
  avgLength : Num.jsnum
}.
End Template.

Module Exported.
Record t : Type := mk {
  generatedAt : string;
  overall : Overall.t;
  templates : list Template.t;
  subjectAnalysis : Subjects.t
}.
End Exported.

(** The object that [exportReport] hands to [JSON.stringify]; [now] is the
    text of [new Date().toISOString()], and [None] is the early return
    without an analysis. *)
Definition exportReport (now : string) (analysis : option Report.t)
  : option Exported.t :=
  match analysis with
  | None => None
  | Some a =>
      Some (Exported.mk now (Report.overall a)
              (map (fun g => Template.mk (Group.name g) (Group.count g)
                                (Group.openRate g) (Group.clickRate g)
                                (Group.replyRate g) (Group.avgLength g))
                   (Report.templateGroups a))
              (Report.subjectAnalysis a))
  end.

(** [s.substring(0, n)] *)
Fixpoint substring0 (n : nat) (s : string) : string :=
  match n, s with
  | S n', String c s' => String c (substring0 n' s')
  | _, _ => EmptyString
  end.

(** [name.length > 20 ? name.substring(0, 20) + '...' : name] *)
Definition chartName (name : string) : string :=
  if (20 <? String.length name)%nat then substring0 20 name ++ "..."
  else name.

Module Slice.
Record t : Type := mk { name : string; value : nat }.
End Slice.

(** [volumeData]: the slices of the pie chart. *)
Definition volumeData (analysis : option Report.t) : list Slice.t :=
  match analysis with
  | None => []
  | Some a =>
      map (fun group => Slice.mk (chartName (Group.name group))
                                 (Group.count group))
          (Report.templateGroups a)
  end.

End Ui.

(** ** Inputs of the scenarios *)

Module Inputs.

Definition nl : string := String JS.newline EmptyString.
Definition dq : string := String JS.dquote EmptyString.
Definition quoted (s : string) : string := dq ++ s ++ dq.

Definition researchBody : string :=
  "Noticed your recent growth. Wondering if you face challenges? We were able to help similar clients. Would you be open to a call?".

(** The header line and the single data row of the end-to-end scenario. *)
Definition scenarioCsv : string :=
  "subject,body,opens,clicks,replies" ++ nl ++
  quoted "Test" ++ "," ++ quoted researchBody ++ ",1,0,0".

(** The field written with doubled interior quotes. *)
Definition doubledField : string :=
  quoted ("Hi, I said " ++ dq ++ quoted "hello" ++ dq).

(** The value with the embedded quotes kept, and the value without them. *)
Definition saidQuoted : string := "Hi, I said " ++ quoted "hello".
Definition saidPlain : string := "Hi, I said hello".

End Inputs.

(** * Vocabulary of the properties

    Definitions used to state the properties: projections of the pass of
    [analyzeEmails], the rows built by [parseCSV] before its filter, and the
    variant of [analyzeEmails] of the refinement. *)

Local Open Scope list_scope.

(** ** Fields without quotes *)

(** The text has no double quote. *)
Definition quoteFree (s : string) : Prop := JS.includes JS.dquote s = false.

Definition cleanScan (st : Csv.ScanState) : Prop :=
  Forall quoteFree (Csv.values st) /\ quoteFree (Csv.current st).

(** The text does not begin with a blank. *)
Definition startsClean (s : string) : Prop :=
  match s with
  | String c _ => JS.isWhiteSpace c = false
  | EmptyString => True
  end.

(** The fields scanned so far have no blank at either end. *)
Definition trimmedScan (st : Csv.ScanState) : Prop :=
  cleanScan st /\ Forall (fun v => JS.trim v = v) (Csv.values st).

(** ** The rows built by the reader *)

(** The rows that the reader builds, kept or not: the loops of [rowsFrom]
    with every record pushed. *)
Fixpoint recordsFrom (headers : list string) (line : string)
    (rest : list string) (st : Csv.ScanState) : list Csv.Row :=
  let st' := Csv.scanLine line st in
  match rest with
  | nextLine :: rest' =>
      if Csv.inQuotes st'
      then recordsFrom headers nextLine rest' (Csv.continueLine st')
      else Csv.mkRow headers (Csv.finishRecord st')
           :: recordsFrom headers nextLine rest' Csv.initScan
  | [] => [Csv.mkRow headers (Csv.finishRecord st')]
  end.

Definition records (text : string) : list Csv.Row :=
  match JS.split JS.newline text with
  | headerLine :: line :: rest =>
      recordsFrom (Csv.parseHeaders headerLine) line rest Csv.initScan
  | _ => []
  end.

(** The field under [k] is non-empty after trimming. *)
Definition nonBlank (row : Csv.Row) (k : string) : Prop :=
  exists v, row !! k = Some v /\ JS.trim v <> EmptyString.

(** The retention condition: one of the three fields is non-empty after
    trimming, and a body that is has at least 10 characters, trimmed. *)
Definition retained (row : Csv.Row) : Prop :=
  (nonBlank row "body" \/ nonBlank row "subject" \/ nonBlank row "recipient")
  /\ (forall v, row !! "body" = Some v -> JS.trim v <> EmptyString ->
                10 <= String.length (JS.trim v)).

Definition threeColumns : string := "body,subject,recipient".

(** The key has a capital letter A-Z. *)
Fixpoint hasUpper (k : string) : bool :=
  match k with
  | EmptyString => false
  | String c k' => if JS.isUpperAscii c then true else hasUpper k'
  end.

(** Every own key of the row is free of capital letters. *)
Definition lowerKeyed (row : Csv.Row) : Prop :=
  forall k, hasUpper k = true -> row !! k = None.

(** ** The pass of the aggregator *)

Definition bodyOf (al : Aggregator.Aliases) (email : Csv.Row) : string :=
  Extract.textOf email (Aggregator.bodyKeys al).

Definition subjectOf (al : Aggregator.Aliases) (email : Csv.Row) : string :=
  Extract.textOf email (Aggregator.subjectKeys al).

Definition typeOf (al : Aggregator.Aliases) (email : Csv.Row) : string :=
  Classifier.type (Classifier.analyzeTemplate (bodyOf al email)).

Definition detailOf (al : Aggregator.Aliases) (email : Csv.Row) : Detail.t :=
  Detail.mk (subjectOf al email) (bodyOf al email)
            (Aggregator.metricsOf al email)
            (Extract.textOf email (Aggregator.dateKeys al))
            (Extract.textOf email (Aggregator.recipientKeys al)).

(** The update that one row applies to its group. *)
Definition updateOf (al : Aggregator.Aliases) (email : Csv.Row)
  : Group.t -> Group.t :=
  Aggregator.addEmail (bodyOf al email) (Aggregator.metricsOf al email)
                      (detailOf al email).

(** The state after the rows of [emails]. *)
Definition pass (al : Aggregator.Aliases) (emails : list Csv.Row)
  : Aggregator.Groups * Subjects.t :=
  fold_left (Aggregator.processEmail al) emails ([], Aggregator.emptySubjects).

(** 1 when the flag [p] of the row is set. *)
Definition flag (al : Aggregator.Aliases) (p : Extract.Metrics -> bool)
    (email : Csv.Row) : nat :=
  if p (Aggregator.metricsOf al email) then 1 else 0.

(** The number of rows classified as [k]. *)
Definition tally (al : Aggregator.Aliases) (k : string)
    (emails : list Csv.Row) : nat :=
  List.length (List.filter (fun e => String.eqb (typeOf al e) k) emails).

Definition groupOk (al : Aggregator.Aliases) (emails : list Csv.Row)
    (kg : string * Group.t) : Prop :=
  Group.name (snd kg) = fst kg /\
  Group.count (snd kg) = tally al (fst kg) emails /\
  0 < Group.count (snd kg).

(** The keys are pairwise distinct, each group bears its key as name and
    counts the rows classified under that key, and the key of every row's
    classification is present. *)
Definition groupsOk (al : Aggregator.Aliases) (emails : list Csv.Row)
    (gs : Aggregator.Groups) : Prop :=
  List.NoDup (map fst gs) /\
  Forall (groupOk al emails) gs /\
  Forall (fun e => In (typeOf al e) (map fst gs)) emails.

Definition questionTotal (sa : Subjects.t) : nat :=
  Bucket.total (Subjects.withQuestion sa)
  + Bucket.total (Subjects.withoutQuestion sa).

Definition lengthTotal (sa : Subjects.t) : nat :=
  Bucket.total (Subjects.shortSubject sa)
  + Bucket.total (Subjects.longSubject sa).

(** The three engagement metrics, with the column each is read from first
    and the counters it feeds. *)
Inductive Metric : Type := MOpens | MClicks | MReplies.

Definition columnOf (m : Metric) : string :=
  match m with
  | MOpens => "opens" | MClicks => "clicks" | MReplies => "replies"
  end.

Definition flagOf (m : Metric) : Extract.Metrics -> bool :=
  match m with
  | MOpens => Extract.opened
  | MClicks => Extract.clicked
  | MReplies => Extract.replied
  end.

(** The aliases of the column, in the order of the reads. *)
Definition aliasesOf (m : Metric) : list string :=
  match m with
  | MOpens => Extract.opensKeys
  | MClicks => Extract.clicksKeys
  | MReplies => Extract.repliesKeys
  end.

Definition rawCount (m : Metric) : Extract.Metrics -> Num.jsnum :=
  match m with
  | MOpens => Extract.opens
  | MClicks => Extract.clicks
  | MReplies => Extract.replies
  end.

Definition groupCounter (m : Metric) : Group.t -> nat :=
  match m with
  | MOpens => Group.opens | MClicks => Group.clicks | MReplies => Group.replies
  end.

Definition overallCounter (m : Metric) : Overall.t -> nat :=
  match m with
  | MOpens => Overall.totalOpens
  | MClicks => Overall.totalClicks
  | MReplies => Overall.totalReplies
  end.

(** A group without its list of detail records. *)
Definition summary (g : Group.t) :=
  (Group.name g, Group.description g, Group.count g,
   (Group.opens g, Group.clicks g, Group.replies g),
   (Group.avgLength g, Group.totalLength g),
   (Group.openRate g, Group.clickRate g, Group.replyRate g)).

Definition digest (gs : Aggregator.Groups) :=
  map (fun kg => (fst kg, summary (snd kg))) gs.

(** Two rows with the same body, the same subject and the same binary
    flags. *)
Definition sameContribution (al : Aggregator.Aliases) (e1 e2 : Csv.Row)
  : Prop :=
  bodyOf al e1 = bodyOf al e2 /\
  subjectOf al e1 = subjectOf al e2 /\
  Extract.opened (Aggregator.metricsOf al e1)
  = Extract.opened (Aggregator.metricsOf al e2) /\
  Extract.clicked (Aggregator.metricsOf al e1)
  = Extract.clicked (Aggregator.metricsOf al e2) /\
  Extract.replied (Aggregator.metricsOf al e1)
  = Extract.replied (Aggregator.metricsOf al e2).

(** The variant that consults only the aliases written in lower case. *)
Definition lowerAliases : Aggregator.Aliases := Aggregator.mkAliases
  ["body"; "content"; "message"]
  ["subject"; "subject_line"]
  ["date"; "sent_date"]
  ["to"; "recipient"; "email"]
  ["opens"; "opened"]
  ["clicks"; "clicked"]
  ["replies"; "replied"].

Definition analyzeEmailsLowerOnly (emails : list Csv.Row) : Report.t :=
  Aggregator.analyzeEmailsWith lowerAliases emails.

(** ** The loop of the classifier *)

(** Every character is a blank. *)
Fixpoint allBlank (s : string) : bool :=
  match s with
  | EmptyString => true
  | String c s' => if JS.isWhiteSpace c then allBlank s' else false
  end.

(** The indicator rules of [t] that match [text]. *)
Definition matching (text : string) (t : Registry.Template)
  : list Registry.Indicator :=
  List.filter (fun i => Regex.test (Registry.pattern i) text)
              (Registry.indicators t).

(** The score of [t] over [text]: the sum of the weights of its matching
    indicator rules. *)
Definition scoreIn (text : string) (t : Registry.Template) : nat :=
  sum_list_with Registry.weight (matching text t).

(** The score reaches the declared minimum. *)
Definition qualifies (text : string) (t : Registry.Template) : Prop :=
  Registry.minScore t <= scoreIn text t.

(** [t] stands in [ts], qualifies, beats every qualifying template before
    it and is not beaten by any qualifying template after it. *)
Definition winner (text : string) (ts : list Registry.Template)
    (t : Registry.Template) : Prop :=
  exists earlier later,
    ts = earlier ++ t :: later /\
    qualifies text t /\
    Forall (fun t' => qualifies text t' -> scoreIn text t' < scoreIn text t)
           earlier /\
    Forall (fun t' => qualifies text t' -> scoreIn text t' <= scoreIn text t)
           later.

(** What the loop state says about the templates seen so far. *)
Definition stateOk (text : string) (seen : list Registry.Template)
    (st : option Classifier.Classification * nat) : Prop :=
  (fst st = None /\ snd st = 0 /\ Forall (fun t => ~ qualifies text t) seen) \/
  (exists t, fst st = Some (Classifier.resultOf t (scoreIn text t)) /\
             snd st = scoreIn text t /\ winner text seen t).

(** ** Vocabulary of the further properties *)

(** The header names of a text: the normalised fields of its first line. *)
Definition headersOf (text : string) : list string :=
  match JS.split JS.newline text with
  | headerLine :: _ => Csv.parseHeaders headerLine
  | [] => []
  end.

(** A data line written from its fields: each in double quotes, commas
    between them. *)
Fixpoint encodeLine (first : string) (others : list string) : string :=
  match others with
  | [] => Inputs.quoted first
  | f :: others' =>
      (Inputs.quoted first ++ String JS.comma (encodeLine f others'))%string
  end.

(** Every character is a blank or a comma. *)
Fixpoint separatorsOnly (line : string) : bool :=
  match line with
  | EmptyString => true
  | String c line' =>
      if JS.isWhiteSpace c || Ascii.eqb c JS.comma then separatorsOnly line'
      else false
  end.

(** The twelve labels: the registry names, the three fallbacks and the
    label of a blank body. *)
Definition labels : list string :=
  map Registry.name Registry.TEMPLATES
  ++ ["Short & Direct"; "Long-Form Narrative"; "Standard Outreach";
      "Empty/No Body"].

(** The rows classified as [k], in input order. *)
Definition rowsOf (al : Aggregator.Aliases) (k : string)
    (emails : list Csv.Row) : list Csv.Row :=
  List.filter (fun e => String.eqb (typeOf al e) k) emails.

(** Regular expressions made of literal characters, sequence and
    alternative only. *)
Fixpoint plain (r : Regex.re) : bool :=
  match r with
  | Regex.Eps | Regex.Chr _ => true
  | Regex.Seq r1 r2 | Regex.Alt r1 r2 => plain r1 && plain r2
  | _ => false
  end.

(** A file whose data line has one field for three headers. *)
Definition shortLineCsv : string :=
  ("subject,body,opens" ++ Inputs.nl ++ "Hello there")%string.

(** A scanner state outside quotes whose fields are empty so far. *)
Definition emptyFields (st : Csv.ScanState) : Prop :=
  Forall (fun v => v = EmptyString) (Csv.values st) /\
  allBlank (Csv.current st) = true /\
  Csv.inQuotes st = false.

(** A file whose columns are named by aliases only. *)
Definition aliasOnlyCsv : string :=
  ("Email Body,Subject Line,To" ++ Inputs.nl
   ++ "A long enough body text,Hello,someone@example.org")%string.

(** The report of an input without rows. *)
Definition emptyReport : Report.t :=
  Report.mk []
            (Overall.mk 0 0 0 0 "NaN" "NaN" "NaN")
            Aggregator.emptySubjects.

(** The groups of a pass in creation order, with their rates. *)
Definition createdGroups (al : Aggregator.Aliases) (emails : list Csv.Row)
  : list Group.t :=
  map (fun kg => Aggregator.withRates (snd kg)) (fst (pass al emails)).

(** The lengths of the bodies of the rows, added up. *)
Definition bodyLengths (al : Aggregator.Aliases) (rows : list Csv.Row) : nat :=
  sum_list_with (fun e => String.length (bodyOf al e)) rows.

(** The counters and the list of the group are those of the rows [rows]:
    one detail per row in their order, one more in a counter per row whose
    flag is set, the body lengths added up. *)
Definition groupData (al : Aggregator.Aliases) (rows : list Csv.Row)
    (g : Group.t) : Prop :=
  Group.count g = List.length rows /\
  Group.emails g = map (detailOf al) rows /\
  Group.opens g = Aggregator.countWhere al Extract.opened rows /\
  Group.clicks g = Aggregator.countWhere al Extract.clicked rows /\
  Group.replies g = Aggregator.countWhere al Extract.replied rows /\
  Group.totalLength g = bodyLengths al rows.

(** The group holds the rows of [emails] classified under its name, and its
    average is the rounded quotient of its total length by its count. *)
Definition groupContents (al : Aggregator.Aliases) (emails : list Csv.Row)
    (g : Group.t) : Prop :=
  groupData al (rowsOf al (Group.name g) emails) g /\
  Group.avgLength g
  = Num.round (Num.div (Num.ofNat (Group.totalLength g))
                       (Num.ofNat (Group.count g))).

(** The three rates of the group are the texts of its percentages. *)
Definition ratesAreTexts (g : Group.t) : Prop :=
  Group.openRate g
  = Some (RateText (Num.percent (Group.opens g) (Group.count g))) /\
  Group.clickRate g
  = Some (RateText (Num.percent (Group.clicks g) (Group.count g))) /\
  Group.replyRate g
  = Some (RateText (Num.percent (Group.replies g) (Group.count g))).

Definition questionOpens (sa : Subjects.t) : nat :=
  Bucket.opens (Subjects.withQuestion sa)
  + Bucket.opens (Subjects.withoutQuestion sa).

Definition lengthOpens (sa : Subjects.t) : nat :=
  Bucket.opens (Subjects.shortSubject sa)
  + Bucket.opens (Subjects.longSubject sa).

(** No bucket has more opens than rows. *)
Definition bucketsBounded (sa : Subjects.t) : Prop :=
  Bucket.opens (Subjects.withQuestion sa)
  <= Bucket.total (Subjects.withQuestion sa) /\
  Bucket.opens (Subjects.withoutQuestion sa)
  <= Bucket.total (Subjects.withoutQuestion sa) /\
  Bucket.opens (Subjects.shortSubject sa)
  <= Bucket.total (Subjects.shortSubject sa) /\
  Bucket.opens (Subjects.longSubject sa)
  <= Bucket.total (Subjects.longSubject sa).

(** The character that stands before the position after [s]: the last
    character of [s], or [prev] when [s] is empty. *)
Fixpoint lastOf (prev : option ascii) (s : string) : option ascii :=
  match s with
  | EmptyString => prev
  | String c s' => lastOf (Some c) s'
  end.

(** The cleaned body of [analyzeTemplate]: lower-cased, without tags, the
    runs of blanks collapsed, trimmed. *)
Definition cleanBody (emailBody : string) : string :=
  JS.trim (Classifier.collapseSpaces
             (Classifier.stripTags (JS.toLowerCase emailBody))).

(** [text] is [s] up to the first match of [r]: [s] is [text] followed by
    [cut], a match of [r] starts where [cut] starts unless [cut] is empty,
    and no match of [r] starts at an earlier position of [s]. *)
Definition cutAtFirst (r : Regex.re) (prev : option ascii)
    (s text : string) : Prop :=
  exists cut,
    s = (text ++ cut)%string /\
    (cut = EmptyString \/
     Regex.matchesHere r (lastOf prev text) cut = true) /\
    (forall pre post,
        text = (pre ++ post)%string -> post <> EmptyString ->
        Regex.matchesHere r (lastOf prev pre) (post ++ cut)%string = false).





(** * Properties *)

(** ** C1: the end-to-end scenario *)

(** C1. On the scenario's CSV text, [parseCSV] yields one row; its body is
    classified as Research-Based Outreach with score 6 (at least 4), the
    first three indicator rules matching with weight 2 each and the fourth
    not matching; the report has that single group with count 1, opens 1
    and openRate 100.0, and overall.totalEmails is 1. *)
Theorem C1_end_to_end :
  let rows := Csv.parseCSV Inputs.scenarioCsv in
  let report := Aggregator.analyzeEmails rows in
  let bodyOf row :=
    Extract.textOf row (Aggregator.bodyKeys Aggregator.sourceAliases) in
  List.length rows = 1 /\
  map bodyOf rows = [Inputs.researchBody] /\
  map (fun row => Classifier.analyzeTemplate (bodyOf row)) rows
  = [Classifier.resultOf Registry.RESEARCH_BASED 6] /\
  forallb
    (fun row =>
       4 <=? Classifier.score (Classifier.analyzeTemplate (bodyOf row)))%nat
    rows = true /\
  map (fun i => (Regex.test (Registry.pattern i)
                   (Classifier.bodyWithoutSig Inputs.researchBody),
                 Registry.weight i))
      (Registry.indicators Registry.RESEARCH_BASED)
  = [(true, 2); (true, 2); (true, 2); (false, 1)] /\
  map Group.name (Report.templateGroups report)
  = ["Research-Based Outreach"] /\
  map Group.count (Report.templateGroups report) = [1] /\
  map Group.opens (Report.templateGroups report) = [1] /\
  map Group.openRate (Report.templateGroups report)
  = [Some (RateText "100.0")] /\
  Overall.totalEmails (Report.overall report) = 1.
Proof.
  cbv zeta. repeat apply conj; vm_compute; reflexivity.
Qed.

(** ** C3: quotes inside a quoted field *)

Lemma quoteFree_cons c s :
  quoteFree (String c s) <-> Ascii.eqb JS.dquote c = false /\ quoteFree s.
Proof.
  unfold quoteFree. change (JS.includes JS.dquote (String c s))
    with (if Ascii.eqb JS.dquote c then true else JS.includes JS.dquote s).
  destruct (Ascii.eqb JS.dquote c); intuition congruence.
Qed.

Lemma quoteFree_app a b : quoteFree a -> quoteFree b -> quoteFree (a ++ b).
Proof.
  induction a as [|d a IH]; intros Ha Hb; [exact Hb|].
  apply quoteFree_cons in Ha as [Hd Ha].
  change (String d a ++ b)%string with (String d (a ++ b)%string).
  apply quoteFree_cons. auto.
Qed.

Lemma quoteFree_trimStart s : quoteFree s -> quoteFree (JS.trimStart s).
Proof.
  induction s as [|c s IH]; intros H; [exact H|].
  change (JS.trimStart (String c s))
    with (if JS.isWhiteSpace c then JS.trimStart s else String c s).
  destruct (JS.isWhiteSpace c); [|exact H].
  apply quoteFree_cons in H as [_ H]. auto.
Qed.

Lemma trimEnd_cons c s :
  JS.trimEnd (String c s)
  = if JS.isWhiteSpace c && JS.isEmpty (JS.trimEnd s) then EmptyString
    else String c (JS.trimEnd s).
Proof. reflexivity. Qed.

Lemma quoteFree_trimEnd s : quoteFree s -> quoteFree (JS.trimEnd s).
Proof.
  induction s as [|c s IH]; intros H; [exact H|].
  apply quoteFree_cons in H as [Hc H]. rewrite trimEnd_cons.
  destruct (JS.isWhiteSpace c && JS.isEmpty (JS.trimEnd s));
    [reflexivity|]. apply quoteFree_cons. auto.
Qed.

Lemma dropTrailingQuote_quoteFree s :
  quoteFree s -> JS.dropTrailingQuote s = s.
Proof.
  induction s as [|c s IH]; intros H; [reflexivity|].
  apply quoteFree_cons in H as [Hc H].
  change (JS.dropTrailingQuote (String c s))
    with (if Ascii.eqb c JS.dquote && JS.isEmpty s then EmptyString
          else String c (JS.dropTrailingQuote s)).
  rewrite Ascii.eqb_sym, Hc. simpl. now rewrite IH.
Qed.

Lemma stripQuotes_quoteFree s : quoteFree s -> JS.stripQuotes s = s.
Proof.
  intros H. destruct s as [|c s]; [reflexivity|].
  pose proof H as H'. apply quoteFree_cons in H' as [Hc _].
  change (JS.stripQuotes (String c s))
    with (if Ascii.eqb c JS.dquote then JS.dropTrailingQuote s
          else JS.dropTrailingQuote (String c s)).
  rewrite Ascii.eqb_sym, Hc. now apply dropTrailingQuote_quoteFree.
Qed.

(** On a text without quotes, the quote-stripping of [finishField] is the
    identity: the field is the trimmed text. *)
Lemma finishField_quoteFree s :
  quoteFree s -> Csv.finishField s = JS.trim s /\ quoteFree (JS.trim s).
Proof.
  intros H. unfold Csv.finishField, JS.trim.
  assert (Hq : quoteFree (JS.trimEnd (JS.trimStart s)))
    by now apply quoteFree_trimEnd, quoteFree_trimStart.
  split; [now apply stripQuotes_quoteFree | exact Hq].
Qed.

Lemma scanChar_clean st c : cleanScan st -> cleanScan (Csv.scanChar st c).
Proof.
  intros [Hv Hc]. unfold Csv.scanChar.
  destruct (Ascii.eqb c JS.dquote) eqn:Eq; [now split|].
  destruct (Ascii.eqb c JS.comma && negb (Csv.inQuotes st)); split; simpl.
  - apply Forall_app. split; [exact Hv|]. constructor; [|constructor].
    destruct (finishField_quoteFree _ Hc) as [-> H]. exact H.
  - reflexivity.
  - exact Hv.
  - apply quoteFree_app; [exact Hc|]. apply quoteFree_cons.
    rewrite Ascii.eqb_sym. now split.
Qed.

Lemma scanLine_clean line : forall st,
  cleanScan st -> cleanScan (Csv.scanLine line st).
Proof.
  induction line as [|c line IH]; simpl; intros st H; [exact H|].
  now apply IH, scanChar_clean.
Qed.

Lemma continueLine_clean st : cleanScan st -> cleanScan (Csv.continueLine st).
Proof.
  intros [Hv Hc]. split; [exact Hv|]. simpl.
  apply quoteFree_app; [exact Hc | reflexivity].
Qed.

Lemma finishRecord_clean st :
  cleanScan st -> Forall quoteFree (Csv.finishRecord st).
Proof.
  intros [Hv Hc]. unfold Csv.finishRecord. apply Forall_app.
  split; [exact Hv|]. constructor; [|constructor].
  destruct (finishField_quoteFree _ Hc) as [-> H]. exact H.
Qed.

Lemma initScan_clean : cleanScan Csv.initScan.
Proof. split; [constructor | reflexivity]. Qed.

(** ** Rows of the reader: where they come from *)

Lemma rowsFrom_records headers rest : forall line st rows,
  Csv.rowsFrom headers line rest st rows
  = rows ++ List.filter Csv.keepRow (recordsFrom headers line rest st).
Proof.
  induction rest as [|nextLine rest IH]; intros line st rows; simpl.
  - unfold Csv.pushRecord. destruct (Csv.keepRow _); simpl;
      [reflexivity | now rewrite List.app_nil_r].
  - destruct (Csv.inQuotes (Csv.scanLine line st)); [apply IH|].
    rewrite IH. unfold Csv.pushRecord. simpl.
    destruct (Csv.keepRow _); [|reflexivity].
    now rewrite <- List.app_assoc.
Qed.

(** The rows of [parseCSV] are the built rows that pass [keepRow]. *)
Lemma parseCSV_records text :
  Csv.parseCSV text = List.filter Csv.keepRow (records text).
Proof.
  unfold Csv.parseCSV, records.
  destruct (JS.split JS.newline text) as [|headerLine [|line rest]];
    [reflexivity | reflexivity |]. apply rowsFrom_records.
Qed.

Section RecordsInvariant.

Variable headers : list string.
Variable Q : Csv.ScanState -> Prop.
Variable P : Csv.Row -> Prop.

Hypothesis Q_init : Q Csv.initScan.
Hypothesis Q_scan : forall line st, Q st -> Q (Csv.scanLine line st).
Hypothesis Q_continue : forall st, Q st -> Q (Csv.continueLine st).
Hypothesis P_record :
  forall st, Q st -> P (Csv.mkRow headers (Csv.finishRecord st)).

Lemma recordsFrom_Forall rest : forall line st,
  Q st -> Forall P (recordsFrom headers line rest st).
Proof.
  induction rest as [|nextLine rest IH]; intros line st Hq; simpl.
  - constructor; [|constructor]. auto.
  - destruct (Csv.inQuotes (Csv.scanLine line st)).
    + apply IH; auto.
    + constructor; [auto|]. apply IH. exact Q_init.
Qed.

End RecordsInvariant.

(** A property of every record built under the parsed headers holds of
    every built row, and so of every row of [parseCSV]. *)
Lemma records_Forall (Q : Csv.ScanState -> Prop) (P : Csv.Row -> Prop) :
  Q Csv.initScan ->
  (forall line st, Q st -> Q (Csv.scanLine line st)) ->
  (forall st, Q st -> Q (Csv.continueLine st)) ->
  (forall headerLine st, Q st ->
     P (Csv.mkRow (Csv.parseHeaders headerLine) (Csv.finishRecord st))) ->
  forall text, Forall P (records text).
Proof.
  intros Hi Hs Hc Hr text. unfold records.
  destruct (JS.split JS.newline text) as [|headerLine [|line rest]];
    [constructor | constructor |].
  apply recordsFrom_Forall with (Q := Q); auto.
Qed.

Lemma parseCSV_among_records (P : Csv.Row -> Prop) text :
  Forall P (records text) -> Forall P (Csv.parseCSV text).
Proof.
  rewrite parseCSV_records, !Forall_forall. intros H row Hin.
  apply list_elem_of_In, List.filter_In in Hin as [Hin _].
  apply H, list_elem_of_In, Hin.
Qed.

(** What a property read of a built row can return. *)
Lemma fillRow_lookup headers : forall idx vals row k v,
  Csv.fillRow headers idx vals row !! k = Some v ->
  row !! k = Some v \/
  (In k headers /\ (In v vals \/ v = EmptyString)).
Proof.
  induction headers as [|h headers IH]; intros idx vals row k v H; simpl in H;
    [now left|].
  apply IH in H as [H|[Hk Hv]]; [|right; split; [now right | exact Hv]].
  unfold Csv.setProp in H. destruct (String.eqb h "__proto__"); [now left|].
  destruct (decide (h = k)) as [->|Hne].
  - rewrite lookup_insert_eq in H. injection H as <-. right.
    split; [now left|].
    destruct (vals !! idx) as [x|] eqn:E; simpl; [|now right].
    left. apply list_elem_of_In. eapply list_elem_of_lookup_2. exact E.
  - rewrite lookup_insert_ne in H by exact Hne. now left.
Qed.

Lemma mkRow_lookup headers vals k v :
  Csv.mkRow headers vals !! k = Some v ->
  In k headers /\ (In v vals \/ v = EmptyString).
Proof.
  intros H. apply fillRow_lookup in H as [H|H]; [|exact H].
  rewrite lookup_empty in H. discriminate.
Qed.

(** No field of a built row contains a double quote. *)
Lemma records_quoteFree text :
  Forall (fun row : Csv.Row => forall k v, row !! k = Some v -> quoteFree v)
         (records text).
Proof.
  apply (records_Forall cleanScan);
    [exact initScan_clean | exact scanLine_clean | exact continueLine_clean |].
  intros headerLine st Hq k v Hl.
  apply mkRow_lookup in Hl as [_ [Hv| ->]]; [|reflexivity].
  pose proof (finishRecord_clean st Hq) as Hf.
  rewrite Forall_forall in Hf. apply Hf, list_elem_of_In. exact Hv.
Qed.

Lemma parseCSV_quoteFree text :
  Forall (fun row : Csv.Row => forall k v, row !! k = Some v -> quoteFree v)
         (Csv.parseCSV text).
Proof. apply parseCSV_among_records, records_quoteFree. Qed.

Lemma scanLine_app a : forall b st,
  Csv.scanLine (a ++ b) st = Csv.scanLine b (Csv.scanLine a st).
Proof.
  induction a as [|c a IH]; intros b st; [reflexivity|].
  change (String c a ++ b)%string with (String c (a ++ b)%string). simpl.
  apply IH.
Qed.

(** C3. Wherever the field written with doubled interior quotes starts a
    field outside quotes, the scanner reads it as the one text
    [Hi, I said hello]: the comma inside the quotes is kept and every double
    quote is dropped, the embedded ones like the surrounding ones.  As a
    data row on its own it parses to that single field, and no field of any
    parsed row ever contains a double quote. *)
Theorem C3_quotes_dropped :
  forall (st : Csv.ScanState) (rest : string),
    Csv.inQuotes st = false ->
    Csv.current st = EmptyString ->
    Csv.scanLine (Inputs.doubledField ++ rest) st
    = Csv.scanLine rest (Csv.mkScan (Csv.values st) Inputs.saidPlain false)
    /\ Csv.finishField Inputs.saidPlain = Inputs.saidPlain
    /\ Csv.finishRecord (Csv.scanLine Inputs.doubledField Csv.initScan)
       = [Inputs.saidPlain]
    /\ forall text,
         Forall (fun row : Csv.Row =>
                   forall k v, row !! k = Some v ->
                               JS.includes JS.dquote v = false)
                (Csv.parseCSV text).
Proof.
  intros [vals cur inq] rest Hq Hc. simpl in Hq, Hc. subst.
  repeat apply conj.
  - rewrite scanLine_app. reflexivity.
  - vm_compute. reflexivity.
  - vm_compute. reflexivity.
  - exact parseCSV_quoteFree.
Qed.

(** The theorem at the start of a data row, followed by a second field. *)
Lemma C3_quotes_dropped_witness :
  Csv.scanLine (Inputs.doubledField ++ ",3") Csv.initScan
  = Csv.scanLine ",3" (Csv.mkScan [] Inputs.saidPlain false).
Proof.
  exact (proj1 (C3_quotes_dropped Csv.initScan ",3" eq_refl eq_refl)).
Defined.

(** The doubled-quote row under the header [body]: the parsed value is the
    text without quotes, which is not the text with the embedded quotes. *)
Lemma C3_counterexample :
  map (fun row : Csv.Row => row !! "body")
      (Csv.parseCSV ("body" ++ Inputs.nl ++ Inputs.doubledField))
  = [Some Inputs.saidPlain]
  /\ String.eqb Inputs.saidPlain Inputs.saidQuoted = false.
Proof.
  split; vm_compute; reflexivity.
Qed.

(** ** C4: metric fields that are not numbers *)

(** The order in which the aliases of a metric are consulted. *)
Lemma firstOf_four (email : Csv.Row) k1 k2 k3 k4 :
  Extract.firstOf email [k1; k2; k3; k4]
  = if Extract.truthy (email !! k1) then email !! k1
    else if Extract.truthy (email !! k2) then email !! k2
    else if Extract.truthy (email !! k3) then email !! k3
    else if Extract.truthy (email !! k4) then email !! k4
    else None.
Proof. reflexivity. Qed.

(** C4. The value parsed for opens is the first non-empty one
    among the aliases opens, Opens, opened, Opened, in that order (likewise
    for clicks and replies).  When that value is not parsable as an integer
    the raw count is NaN and the binary flag is false; the raw count is 0 by
    default only when no alias has a non-empty value.  [calculateMetrics] is
    a total function: it returns metrics for every row. *)
Theorem C4_unparsable_is_NaN :
  forall (m : Metric) (email : Csv.Row) (v : string),
    Num.parseInt v = Num.NaN ->
    let metrics := Extract.calculateMetrics email in
    (Extract.firstOf email (aliasesOf m) = Some v ->
       rawCount m metrics = Num.NaN /\ flagOf m metrics = false) /\
    (Extract.firstOf email (aliasesOf m) = None ->
       rawCount m metrics = Num.Num 0 /\ flagOf m metrics = false) /\
    map aliasesOf [MOpens; MClicks; MReplies]
    = [ ["opens"; "Opens"; "opened"; "Opened"];
        ["clicks"; "Clicks"; "clicked"; "Clicked"];
        ["replies"; "Replies"; "replied"; "Replied"] ] /\
    (forall k1 k2 k3 k4,
        Extract.firstOf email [k1; k2; k3; k4]
        = if Extract.truthy (email !! k1) then email !! k1
          else if Extract.truthy (email !! k2) then email !! k2
          else if Extract.truthy (email !! k3) then email !! k3
          else if Extract.truthy (email !! k4) then email !! k4
          else None) /\
    Num.parseInt "abc" = Num.NaN.
Proof.
  intros m email v Hp. cbv zeta.
  unfold Extract.calculateMetrics, Extract.metricsWith. cbv zeta.
  repeat apply conj.
  - destruct m; cbn [rawCount flagOf aliasesOf Extract.opens Extract.opened
                     Extract.clicks Extract.clicked Extract.replies
                     Extract.replied];
      unfold Extract.countOf; intros ->; now rewrite Hp.
  - destruct m; cbn [rawCount flagOf aliasesOf Extract.opens Extract.opened
                     Extract.clicks Extract.clicked Extract.replies
                     Extract.replied];
      unfold Extract.countOf; intros ->; now split.
  - reflexivity.
  - intros. apply firstOf_four.
  - reflexivity.
Qed.

(** A row whose opens field is the text abc, and also has a numeric Opens
    field: the later alias is not consulted. *)
Lemma C4_unparsable_is_NaN_witness :
  let email : Csv.Row := <[ "Opens" := "5" ]> {[ "opens" := "abc" ]} in
  Extract.opens (Extract.calculateMetrics email) = Num.NaN /\
  Extract.opened (Extract.calculateMetrics email) = false.
Proof.
  exact (proj1 (C4_unparsable_is_NaN MOpens
                  (<[ "Opens" := "5" ]> {[ "opens" := "abc" ]}) "abc" eq_refl)
               eq_refl).
Defined.

(** The raw count of an unparsable opens field is NaN, which is not 0. *)
Lemma C4_counterexample :
  Extract.calculateMetrics {[ "opens" := "abc" ]}
  = Extract.mkMetrics false false false Num.NaN (Num.Num 0) (Num.Num 0)
  /\ Num.NaN <> Num.Num 0.
Proof.
  split; [vm_compute; reflexivity | discriminate].
Qed.

(** ** The aggregation pass *)

Section Pass.

Variable al : Aggregator.Aliases.

Lemma processEmail_eq st email :
  Aggregator.processEmail al st email
  = (match Aggregator.lookupGroup (typeOf al email) (fst st) with
     | Some _ =>
         Aggregator.adjustGroup (typeOf al email) (updateOf al email) (fst st)
     | None =>
         Aggregator.adjustGroup (typeOf al email) (updateOf al email)
           (fst st ++ [(typeOf al email,
                        Aggregator.newGroup
                          (Classifier.analyzeTemplate (bodyOf al email)))])
     end,
     Aggregator.addSubject (Extract.analyzeSubject (subjectOf al email))
       (Aggregator.metricsOf al email) (snd st)).
Proof.
  destruct st as [gs sa]. unfold Aggregator.processEmail. cbv zeta.
  fold (bodyOf al email) (subjectOf al email). fold (typeOf al email).
  fold (detailOf al email). fold (updateOf al email). simpl fst. simpl snd.
  destruct (Aggregator.lookupGroup (typeOf al email) gs); reflexivity.
Qed.

Lemma pass_snoc emails email :
  pass al (emails ++ [email])
  = Aggregator.processEmail al (pass al emails) email.
Proof. unfold pass. now rewrite fold_left_app. Qed.

Lemma report_groups emails :
  Report.templateGroups (Aggregator.analyzeEmailsWith al emails)
  = Aggregator.sortByCount
      (map (fun kg => Aggregator.withRates (snd kg)) (fst (pass al emails))).
Proof.
  unfold Aggregator.analyzeEmailsWith. fold (pass al emails).
  now destruct (pass al emails).
Qed.

Lemma report_subjects emails :
  Report.subjectAnalysis (Aggregator.analyzeEmailsWith al emails)
  = snd (pass al emails).
Proof.
  unfold Aggregator.analyzeEmailsWith. fold (pass al emails).
  now destruct (pass al emails).
Qed.

Lemma report_overall emails :
  Report.overall (Aggregator.analyzeEmailsWith al emails)
  = Aggregator.overallOf al emails.
Proof.
  unfold Aggregator.analyzeEmailsWith. fold (pass al emails).
  now destruct (pass al emails).
Qed.

(** *** Groups as an association list *)

Lemma lookupGroup_None key gs :
  Aggregator.lookupGroup key gs = None <-> ~ In key (map fst gs).
Proof.
  induction gs as [|[k g] gs IH]; simpl; [tauto|].
  destruct (String.eqb_spec k key) as [->|Hne].
  - split; [discriminate|]. intros H. exfalso. apply H. now left.
  - rewrite IH. split; [intros H [E|E]; [congruence | tauto] | tauto].
Qed.

Lemma adjustGroup_keys key f gs :
  map fst (Aggregator.adjustGroup key f gs) = map fst gs.
Proof.
  induction gs as [|[k g] gs IH]; simpl; [reflexivity|].
  destruct (String.eqb k key); simpl; [reflexivity | now rewrite IH].
Qed.

Lemma adjustGroup_absent key f gs :
  Aggregator.lookupGroup key gs = None ->
  Aggregator.adjustGroup key f gs = gs.
Proof.
  induction gs as [|[k g] gs IH]; simpl; [reflexivity|].
  destruct (String.eqb k key); [discriminate|]. intros H. now rewrite IH.
Qed.

Lemma adjustGroup_new key f g gs :
  Aggregator.lookupGroup key gs = None ->
  Aggregator.adjustGroup key f (gs ++ [(key, g)]) = gs ++ [(key, f g)].
Proof.
  induction gs as [|[k g0] gs IH]; simpl.
  - now rewrite String.eqb_refl.
  - destruct (String.eqb k key); [discriminate|]. intros H. now rewrite IH.
Qed.

(** A sum over the groups moves by what the update adds to one group. *)
Lemma adjustGroup_sum (m : Group.t -> nat) key f d gs :
  (forall g, m (f g) = m g + d) ->
  Aggregator.lookupGroup key gs <> None ->
  sum_list_with (fun kg => m (snd kg)) (Aggregator.adjustGroup key f gs)
  = sum_list_with (fun kg => m (snd kg)) gs + d.
Proof.
  intros Hf. induction gs as [|[k g] gs IH]; simpl; [congruence|].
  destruct (String.eqb k key); simpl; intros H.
  - rewrite Hf. lia.
  - rewrite IH by exact H. lia.
Qed.

Lemma step_sum (m : Group.t -> nat) (d : Csv.Row -> nat) st email :
  (forall g, m (updateOf al email g) = m g + d email) ->
  m (Aggregator.newGroup (Classifier.analyzeTemplate (bodyOf al email))) = 0 ->
  sum_list_with (fun kg => m (snd kg))
                (fst (Aggregator.processEmail al st email))
  = sum_list_with (fun kg => m (snd kg)) (fst st) + d email.
Proof.
  intros Hf Hnew. rewrite processEmail_eq. simpl fst.
  destruct (Aggregator.lookupGroup (typeOf al email) (fst st)) eqn:E.
  - apply adjustGroup_sum; [exact Hf | congruence].
  - rewrite adjustGroup_new by exact E.
    rewrite sum_list_with_app. simpl. rewrite Hf, Hnew. lia.
Qed.

Lemma countWhere_snoc p emails email :
  Aggregator.countWhere al p (emails ++ [email])
  = Aggregator.countWhere al p emails + flag al p email.
Proof.
  unfold Aggregator.countWhere, flag.
  rewrite List.filter_app, List.length_app. simpl.
  destruct (p (Aggregator.metricsOf al email)); reflexivity.
Qed.

Lemma bump_flag b n : Aggregator.bump b n = n + (if b then 1 else 0).
Proof. destruct b; simpl; lia. Qed.

(** The sums of the four counters over the groups of the pass. *)
Lemma pass_sums emails :
  let gs := fst (pass al emails) in
  sum_list_with (fun kg => Group.count (snd kg)) gs = List.length emails /\
  sum_list_with (fun kg => Group.opens (snd kg)) gs
  = Aggregator.countWhere al Extract.opened emails /\
  sum_list_with (fun kg => Group.clicks (snd kg)) gs
  = Aggregator.countWhere al Extract.clicked emails /\
  sum_list_with (fun kg => Group.replies (snd kg)) gs
  = Aggregator.countWhere al Extract.replied emails.
Proof.
  induction emails as [|email emails IH] using rev_ind; [now repeat split|].
  cbv zeta in *. destruct IH as (Hc & Ho & Hk & Hr).
  rewrite pass_snoc, List.length_app, !countWhere_snoc. simpl List.length.
  repeat apply conj.
  - rewrite (step_sum Group.count (fun _ => 1)); [lia| |reflexivity].
    intros g. simpl. lia.
  - rewrite (step_sum Group.opens (flag al Extract.opened));
      [lia| |reflexivity].
    intros g. unfold flag. simpl. apply bump_flag.
  - rewrite (step_sum Group.clicks (flag al Extract.clicked));
      [lia| |reflexivity].
    intros g. unfold flag. simpl. apply bump_flag.
  - rewrite (step_sum Group.replies (flag al Extract.replied));
      [lia| |reflexivity].
    intros g. unfold flag. simpl. apply bump_flag.
Qed.

End Pass.

(** *** The final sort and the rates *)

Lemma insertByCount_perm g gs : Aggregator.insertByCount g gs ≡ₚ g :: gs.
Proof.
  induction gs as [|h gs IH]; simpl; [reflexivity|].
  destruct (Group.count g <? Group.count h)%nat; [|reflexivity].
  rewrite IH. apply Permutation_swap.
Qed.

Lemma sortByCount_perm gs : Aggregator.sortByCount gs ≡ₚ gs.
Proof.
  induction gs as [|g gs IH]; simpl; [reflexivity|].
  now rewrite insertByCount_perm, IH.
Qed.

Lemma sum_withRates (m : Group.t -> nat) (gs : Aggregator.Groups) :
  (forall g, m (Aggregator.withRates g) = m g) ->
  sum_list_with m
    (Aggregator.sortByCount (map (fun kg => Aggregator.withRates (snd kg)) gs))
  = sum_list_with (fun kg => m (snd kg)) gs.
Proof.
  intros Hm. rewrite sortByCount_perm.
  induction gs as [|[k g] gs IH]; simpl; [reflexivity|]. now rewrite Hm, IH.
Qed.

(** *** Each row in the group of its classification *)

Section Tally.

Variable al : Aggregator.Aliases.

Lemma tally_snoc k emails email :
  tally al k (emails ++ [email])
  = tally al k emails + (if String.eqb (typeOf al email) k then 1 else 0).
Proof.
  unfold tally. rewrite List.filter_app, List.length_app. simpl.
  destruct (String.eqb (typeOf al email) k); reflexivity.
Qed.

Lemma groupOk_other emails email kg :
  groupOk al emails kg -> fst kg <> typeOf al email ->
  groupOk al (emails ++ [email]) kg.
Proof.
  intros (Hn & Hc & Hp) Hne. unfold groupOk. rewrite tally_snoc.
  destruct (String.eqb_spec (typeOf al email) (fst kg)) as [E|_];
    [congruence|]. repeat split; [exact Hn | lia | exact Hp].
Qed.

Lemma groupOk_updated emails email k g :
  Group.name g = k -> Group.count g = tally al k emails ->
  k = typeOf al email ->
  groupOk al (emails ++ [email]) (k, updateOf al email g).
Proof.
  intros Hn Hc E. unfold groupOk. cbn [fst snd]. rewrite tally_snoc.
  rewrite <- E, String.eqb_refl. simpl. repeat split; [exact Hn | lia | lia].
Qed.

Lemma in_keys (k : string) (g : Group.t) (gs : Aggregator.Groups) :
  (k, g) ∈ gs -> In k (map fst gs).
Proof.
  intros Hin. apply list_elem_of_In in Hin.
  apply (List.in_map fst) in Hin. exact Hin.
Qed.

Lemma adjustGroup_ok emails email gs :
  List.NoDup (map fst gs) ->
  Forall (groupOk al emails) gs ->
  Forall (groupOk al (emails ++ [email]))
         (Aggregator.adjustGroup (typeOf al email) (updateOf al email) gs).
Proof.
  induction gs as [|[k g] gs IH]; simpl; intros Hnd Hok; [constructor|].
  apply List.NoDup_cons_iff in Hnd as [Hk Hnd].
  apply Forall_cons in Hok as [(Hn & Hc & Hp) Hok]. cbn [fst snd] in Hn, Hc, Hp.
  destruct (String.eqb_spec k (typeOf al email)) as [E|Hne].
  - constructor; [now apply groupOk_updated|].
    rewrite Forall_forall in Hok |- *. intros [k' g'] Hin.
    apply groupOk_other; [now apply Hok|]. cbn [fst]. intros E'.
    apply Hk. rewrite E, <- E'. eapply in_keys, Hin.
  - constructor; [|now apply IH].
    apply groupOk_other; [now repeat split | exact Hne].
Qed.

Lemma tally_absent k emails :
  Forall (fun e => typeOf al e <> k) emails -> tally al k emails = 0.
Proof.
  unfold tally. induction 1 as [|e emails He _ IH]; simpl; [reflexivity|].
  destruct (String.eqb_spec (typeOf al e) k); [contradiction | exact IH].
Qed.

Lemma pass_groupsOk emails : groupsOk al emails (fst (pass al emails)).
Proof.
  induction emails as [|email emails IH] using rev_ind.
  - repeat split; constructor.
  - destruct IH as (Hnd & Hok & Hall).
    rewrite pass_snoc, processEmail_eq. simpl fst.
    set (gs := fst (pass al emails)) in *.
    destruct (Aggregator.lookupGroup (typeOf al email) gs) eqn:E.
    + assert (Hin : In (typeOf al email) (map fst gs)).
      { destruct (List.in_dec String.string_dec (typeOf al email) (map fst gs))
          as [H|H]; [exact H|].
        apply lookupGroup_None in H. congruence. }
      repeat split.
      * now rewrite adjustGroup_keys.
      * now apply adjustGroup_ok.
      * rewrite adjustGroup_keys. apply Forall_app. split; [exact Hall|].
        constructor; [exact Hin | constructor].
    + pose proof E as Habs. apply lookupGroup_None in Habs.
      rewrite adjustGroup_new by exact E.
      repeat split.
      * rewrite List.map_app. simpl.
        apply List.NoDup_app; repeat split; auto.
        -- constructor; [intros [] | constructor].
        -- intros k Hk [<-|[]]. contradiction.
      * apply Forall_app. split.
        -- rewrite Forall_forall in Hok |- *. intros [k g] Hin.
           apply groupOk_other; [now apply Hok|]. cbn [fst]. intros ->.
           apply Habs. eapply in_keys, Hin.
        -- constructor; [|constructor].
           apply groupOk_updated; [reflexivity| |reflexivity].
           simpl. symmetry. apply tally_absent.
           eapply Forall_impl; [exact Hall|]. intros e He E'. simpl in He.
           apply Habs. now rewrite <- E'.
      * rewrite List.map_app. simpl.
        apply Forall_app. split.
        -- eapply Forall_impl; [exact Hall|]. intros e He. simpl in He.
           apply List.in_or_app. now left.
        -- constructor; [|constructor]. apply List.in_or_app. right. now left.
Qed.

End Tally.

Lemma report_names al emails :
  map Group.name
      (Report.templateGroups (Aggregator.analyzeEmailsWith al emails))
  ≡ₚ map fst (fst (pass al emails)).
Proof.
  rewrite report_groups, sortByCount_perm.
  destruct (pass_groupsOk al emails) as (_ & Hok & _).
  induction Hok as [|[k g] gs (Hn & _) _ IH]; simpl; [reflexivity|].
  simpl in Hn. now rewrite Hn, IH.
Qed.

Lemma report_counts al emails :
  Forall (fun g => Group.count g = tally al (Group.name g) emails /\
                   0 < Group.count g)
         (Report.templateGroups (Aggregator.analyzeEmailsWith al emails)).
Proof.
  rewrite report_groups, sortByCount_perm.
  destruct (pass_groupsOk al emails) as (_ & Hok & _).
  induction Hok as [|[k g] gs (Hn & Hc & Hp) _ IH]; simpl; constructor;
    [|exact IH]. simpl in *. rewrite Hn. now split.
Qed.

(** ** C2: every row in exactly one group; group sums and overall totals *)

(** C2. For every list of rows: the groups of the report have pairwise
    distinct names, the classification of every row names one of them, and
    each group's count is the number of rows so classified, so every row
    is counted in exactly one group.  The counts of the groups add up to
    overall.totalEmails, which is the number of rows, and the opens, clicks
    and replies of the groups add up to overall.totalOpens, totalClicks and
    totalReplies, which are the numbers of rows whose binary flag is true. *)
Theorem C2_groups_partition_rows :
  forall emails : list Csv.Row,
    let report := Aggregator.analyzeEmails emails in
    let groups := Report.templateGroups report in
    let overall := Report.overall report in
    let typeOfRow := typeOf Aggregator.sourceAliases in
    List.NoDup (map Group.name groups) /\
    Forall (fun e => In (typeOfRow e) (map Group.name groups)) emails /\
    Forall (fun g =>
              Group.count g
              = List.length
                  (List.filter
                     (fun e => String.eqb (typeOfRow e) (Group.name g))
                     emails))
           groups /\
    sum_list_with Group.count groups = Overall.totalEmails overall /\
    sum_list_with Group.opens groups = Overall.totalOpens overall /\
    sum_list_with Group.clicks groups = Overall.totalClicks overall /\
    sum_list_with Group.replies groups = Overall.totalReplies overall /\
    Overall.totalEmails overall = List.length emails /\
    Overall.totalOpens overall
    = List.length
        (List.filter (fun e => Extract.opened (Extract.calculateMetrics e))
                     emails) /\
    Overall.totalClicks overall
    = List.length
        (List.filter (fun e => Extract.clicked (Extract.calculateMetrics e))
                     emails) /\
    Overall.totalReplies overall
    = List.length
        (List.filter (fun e => Extract.replied (Extract.calculateMetrics e))
                     emails).
Proof.
  intros emails. cbv zeta. unfold Aggregator.analyzeEmails.
  destruct (pass_groupsOk Aggregator.sourceAliases emails) as (Hnd & _ & Hall).
  destruct (pass_sums Aggregator.sourceAliases emails) as (Hc & Ho & Hk & Hr).
  pose proof (report_names Aggregator.sourceAliases emails) as Hperm.
  rewrite report_overall.
  repeat apply conj; try reflexivity.
  - now rewrite Hperm.
  - eapply Forall_impl; [exact Hall|]. intros e He. simpl in He.
    apply list_elem_of_In. rewrite Hperm. now apply list_elem_of_In.
  - eapply Forall_impl; [apply report_counts|]. now intros g [Hg _].
  - rewrite report_groups, (sum_withRates Group.count) by reflexivity.
    exact Hc.
  - rewrite report_groups, (sum_withRates Group.opens) by reflexivity.
    exact Ho.
  - rewrite report_groups, (sum_withRates Group.clicks) by reflexivity.
    exact Hk.
  - rewrite report_groups, (sum_withRates Group.replies) by reflexivity.
    exact Hr.
Qed.

(** ** C10: the subject buckets *)

Lemma addSubject_question subject m sa :
  let sa' := Aggregator.addSubject subject m sa in
  if Extract.hasQuestion subject
  then Bucket.total (Subjects.withQuestion sa')
       = S (Bucket.total (Subjects.withQuestion sa)) /\
       Subjects.withoutQuestion sa' = Subjects.withoutQuestion sa
  else Bucket.total (Subjects.withoutQuestion sa')
       = S (Bucket.total (Subjects.withoutQuestion sa)) /\
       Subjects.withQuestion sa' = Subjects.withQuestion sa.
Proof.
  unfold Aggregator.addSubject.
  destruct (Extract.hasQuestion subject),
    (Extract.length subject <? 40)%nat; simpl; now split.
Qed.

Lemma addSubject_length subject m sa :
  let sa' := Aggregator.addSubject subject m sa in
  if (Extract.length subject <? 40)%nat
  then Bucket.total (Subjects.shortSubject sa')
       = S (Bucket.total (Subjects.shortSubject sa)) /\
       Subjects.longSubject sa' = Subjects.longSubject sa
  else Bucket.total (Subjects.longSubject sa')
       = S (Bucket.total (Subjects.longSubject sa)) /\
       Subjects.shortSubject sa' = Subjects.shortSubject sa.
Proof.
  unfold Aggregator.addSubject.
  destruct (Extract.hasQuestion subject),
    (Extract.length subject <? 40)%nat; simpl; now split.
Qed.

Lemma pass_bucket_totals al emails :
  questionTotal (snd (pass al emails)) = List.length emails /\
  lengthTotal (snd (pass al emails)) = List.length emails.
Proof.
  induction emails as [|email emails [IHq IHl]] using rev_ind;
    [now split|].
  rewrite pass_snoc, processEmail_eq, List.length_app. simpl snd.
  simpl List.length.
  set (subject := Extract.analyzeSubject _).
  set (m := Aggregator.metricsOf _ _).
  pose proof (addSubject_question subject m (snd (pass al emails))) as Hq.
  pose proof (addSubject_length subject m (snd (pass al emails))) as Hl.
  cbv zeta in Hq, Hl. unfold questionTotal, lengthTotal in *.
  split.
  - destruct (Extract.hasQuestion subject); destruct Hq as [-> ->]; lia.
  - destruct (Extract.length subject <? 40)%nat; destruct Hl as [-> ->]; lia.
Qed.

(** C10. Every processed row adds one to the total of exactly one of
    withQuestion and withoutQuestion, and to the total of exactly one of
    shortSubject and longSubject, leaving the other bucket of each pair as it
    was; so after all rows both pairs of totals add up to the number of rows.
    A row whose subject is missing or empty goes to withoutQuestion and to
    shortSubject. *)
Theorem C10_subject_buckets :
  forall (emails : list Csv.Row) (st : Aggregator.Groups * Subjects.t)
         (email : Csv.Row),
    let sa := Report.subjectAnalysis (Aggregator.analyzeEmails emails) in
    let before := snd st in
    let after := snd (Aggregator.processEmail Aggregator.sourceAliases
                        st email) in
    let total b := Bucket.total b in
    ((total (Subjects.withQuestion after)
      = S (total (Subjects.withQuestion before)) /\
      Subjects.withoutQuestion after = Subjects.withoutQuestion before) \/
     (total (Subjects.withoutQuestion after)
      = S (total (Subjects.withoutQuestion before)) /\
      Subjects.withQuestion after = Subjects.withQuestion before)) /\
    ((total (Subjects.shortSubject after)
      = S (total (Subjects.shortSubject before)) /\
      Subjects.longSubject after = Subjects.longSubject before) \/
     (total (Subjects.longSubject after)
      = S (total (Subjects.longSubject before)) /\
      Subjects.shortSubject after = Subjects.shortSubject before)) /\
    total (Subjects.withQuestion sa) + total (Subjects.withoutQuestion sa)
    = List.length emails /\
    total (Subjects.shortSubject sa) + total (Subjects.longSubject sa)
    = List.length emails /\
    (Extract.textOf email (Aggregator.subjectKeys Aggregator.sourceAliases)
     = EmptyString ->
     total (Subjects.withoutQuestion after)
     = S (total (Subjects.withoutQuestion before)) /\
     total (Subjects.shortSubject after)
     = S (total (Subjects.shortSubject before)) /\
     Subjects.withQuestion after = Subjects.withQuestion before /\
     Subjects.longSubject after = Subjects.longSubject before).
Proof.
  intros emails st email. cbv zeta.
  unfold Aggregator.analyzeEmails. rewrite report_subjects, processEmail_eq.
  simpl snd.
  set (subject := Extract.analyzeSubject _).
  set (m := Aggregator.metricsOf _ _).
  pose proof (addSubject_question subject m (snd st)) as Hq.
  pose proof (addSubject_length subject m (snd st)) as Hl.
  cbv zeta in Hq, Hl.
  destruct (pass_bucket_totals Aggregator.sourceAliases emails) as [Tq Tl].
  repeat apply conj.
  - destruct (Extract.hasQuestion subject); [left | right]; exact Hq.
  - destruct (Extract.length subject <? 40)%nat; [left | right]; exact Hl.
  - exact Tq.
  - exact Tl.
  - intros He. unfold subject, subjectOf in *. rewrite He in *.
    simpl in Hq, Hl. tauto.
Qed.

(** A row without a subject column, on the initial state. *)
Lemma C10_subject_buckets_witness :
  let st := ([], Aggregator.emptySubjects) in
  let after := snd (Aggregator.processEmail Aggregator.sourceAliases st
                      {[ "body" := "no subject here" ]}) in
  Bucket.total (Subjects.withoutQuestion after) = 1 /\
  Bucket.total (Subjects.shortSubject after) = 1 /\
  Subjects.withQuestion after = Bucket.mk 0 0 /\
  Subjects.longSubject after = Bucket.mk 0 0.
Proof.
  exact (proj2 (proj2 (proj2 (proj2
           (C10_subject_buckets [] ([], Aggregator.emptySubjects)
              {[ "body" := "no subject here" ]})))) eq_refl).
Defined.

(** ** C8: binary counting *)

Lemma cons_pair_inj {A B : Type} (a1 a2 : A) (b1 b2 : B) l1 l2 :
  (a1, b1) :: l1 = (a2, b2) :: l2 -> a1 = a2 /\ b1 = b2 /\ l1 = l2.
Proof. intros H. injection H as -> -> ->. now repeat split. Qed.

Lemma cons_inj {A : Type} (a1 a2 : A) l1 l2 :
  a1 :: l1 = a2 :: l2 -> a1 = a2 /\ l1 = l2.
Proof. intros H. injection H as -> ->. now split. Qed.

Section SameContribution.

Variable al : Aggregator.Aliases.

Lemma sameContribution_refl e : sameContribution al e e.
Proof. now repeat split. Qed.

Lemma digest_keys gs : map fst (digest gs) = map fst gs.
Proof. unfold digest. rewrite List.map_map. reflexivity. Qed.

Lemma digest_lookup key gs1 gs2 :
  digest gs1 = digest gs2 ->
  Aggregator.lookupGroup key gs1 = None ->
  Aggregator.lookupGroup key gs2 = None.
Proof.
  intros Hd H. apply lookupGroup_None. apply lookupGroup_None in H.
  now rewrite <- (digest_keys gs2), <- Hd, digest_keys.
Qed.

Lemma digest_adjust key f1 f2 : forall gs1 gs2,
  (forall g1 g2,
      summary g1 = summary g2 -> summary (f1 g1) = summary (f2 g2)) ->
  digest gs1 = digest gs2 ->
  digest (Aggregator.adjustGroup key f1 gs1)
  = digest (Aggregator.adjustGroup key f2 gs2).
Proof.
  intros gs1 gs2 Hf. revert gs2.
  induction gs1 as [|[k1 g1] gs1 IH]; intros [|[k2 g2] gs2] Hd;
    try discriminate; [reflexivity|].
  apply cons_pair_inj in Hd as (Hk & Hs & Hd). simpl in Hk. subst k2.
  simpl in Hs. simpl.
  destruct (String.eqb k1 key); unfold digest at 1 2; simpl map.
  - f_equal; [|exact Hd]. f_equal. now apply Hf.
  - f_equal; [now rewrite Hs | now apply IH].
Qed.

Lemma summary_update e1 e2 g1 g2 :
  sameContribution al e1 e2 -> summary g1 = summary g2 ->
  summary (updateOf al e1 g1) = summary (updateOf al e2 g2).
Proof.
  intros (Hb & _ & Ho & Hc & Hr) Hs. unfold summary in *.
  injection Hs as H1 H2 H3 H4 H5 H6 H7 H8 H9 H10 H11.
  unfold updateOf, Aggregator.addEmail. cbv zeta.
  cbn [Group.name Group.description Group.count Group.opens Group.clicks
       Group.replies Group.avgLength Group.totalLength Group.openRate
       Group.clickRate Group.replyRate].
  congruence.
Qed.

Lemma processEmail_same st1 st2 e1 e2 :
  sameContribution al e1 e2 ->
  digest (fst st1) = digest (fst st2) -> snd st1 = snd st2 ->
  digest (fst (Aggregator.processEmail al st1 e1))
  = digest (fst (Aggregator.processEmail al st2 e2)) /\
  snd (Aggregator.processEmail al st1 e1)
  = snd (Aggregator.processEmail al st2 e2).
Proof.
  intros Hsame Hd Hsa. pose proof Hsame as (Hb & Hsub & Ho & Hc & Hr).
  rewrite !processEmail_eq. simpl fst. simpl snd.
  assert (Ht : typeOf al e1 = typeOf al e2) by (unfold typeOf; now rewrite Hb).
  split.
  - rewrite <- Ht.
    destruct (Aggregator.lookupGroup (typeOf al e1) (fst st1)) eqn:E1;
      destruct (Aggregator.lookupGroup (typeOf al e1) (fst st2)) eqn:E2.
    + apply digest_adjust; [|exact Hd]. intros. now apply summary_update.
    + apply (digest_lookup _ _ _ (eq_sym Hd)) in E2. congruence.
    + apply (digest_lookup _ _ _ Hd) in E1. congruence.
    + apply digest_adjust; [intros; now apply summary_update|].
      unfold digest in *. rewrite !List.map_app, Hd, Hb. reflexivity.
  - rewrite Hsub, Hsa. unfold Aggregator.addSubject. now rewrite Ho.
Qed.

Lemma fold_same : forall l1 l2 st1 st2,
  Forall2 (sameContribution al) l1 l2 ->
  digest (fst st1) = digest (fst st2) -> snd st1 = snd st2 ->
  digest (fst (fold_left (Aggregator.processEmail al) l1 st1))
  = digest (fst (fold_left (Aggregator.processEmail al) l2 st2)) /\
  snd (fold_left (Aggregator.processEmail al) l1 st1)
  = snd (fold_left (Aggregator.processEmail al) l2 st2).
Proof.
  intros l1 l2 st1 st2 H. revert st1 st2.
  induction H as [|e1 e2 l1 l2 He _ IH]; intros st1 st2 Hd Hs; simpl;
    [now split|].
  destruct (processEmail_same st1 st2 e1 e2 He Hd Hs) as [Hd' Hs'].
  now apply IH.
Qed.

Lemma countWhere_same p l1 l2 :
  Forall2 (fun e1 e2 => p (Aggregator.metricsOf al e1)
                        = p (Aggregator.metricsOf al e2)) l1 l2 ->
  Aggregator.countWhere al p l1 = Aggregator.countWhere al p l2.
Proof.
  unfold Aggregator.countWhere.
  induction 1 as [|e1 e2 l1 l2 He _ IH]; simpl; [reflexivity|].
  rewrite He. destruct (p (Aggregator.metricsOf al e2)); simpl; now rewrite IH.
Qed.

Lemma overall_same l1 l2 :
  Forall2 (sameContribution al) l1 l2 ->
  Aggregator.overallOf al l1 = Aggregator.overallOf al l2.
Proof.
  intros H. unfold Aggregator.overallOf.
  rewrite (Forall2_length _ _ _ H).
  rewrite (countWhere_same Extract.opened l1 l2),
          (countWhere_same Extract.clicked l1 l2),
          (countWhere_same Extract.replied l1 l2); [reflexivity|..];
    (eapply Forall2_impl; [exact H|]); intros e1 e2 (_ & _ & Ho & Hc & Hr);
    assumption.
Qed.

End SameContribution.

Lemma summary_insertByCount g1 g2 : forall l1 l2,
  summary g1 = summary g2 -> map summary l1 = map summary l2 ->
  map summary (Aggregator.insertByCount g1 l1)
  = map summary (Aggregator.insertByCount g2 l2).
Proof.
  intros l1 l2 Hg. revert l2.
  induction l1 as [|h1 l1 IH]; intros [|h2 l2] Hl; try discriminate.
  - cbn [Aggregator.insertByCount map]. now rewrite Hg.
  - apply cons_inj in Hl as [Hh Hl]. cbn [Aggregator.insertByCount].
    assert (Group.count g1 = Group.count g2) as ->
      by (unfold summary in Hg; congruence).
    assert (Group.count h1 = Group.count h2) as ->
      by (unfold summary in Hh; congruence).
    destruct (Group.count g2 <? Group.count h2)%nat; cbn [map].
    + rewrite Hh. f_equal. now apply IH.
    + rewrite Hg, Hh. do 2 f_equal. exact Hl.
Qed.

Lemma summary_report al l1 l2 :
  Forall2 (sameContribution al) l1 l2 ->
  map summary (Report.templateGroups (Aggregator.analyzeEmailsWith al l1))
  = map summary (Report.templateGroups (Aggregator.analyzeEmailsWith al l2)).
Proof.
  intros H.
  destruct (fold_same al l1 l2 ([], Aggregator.emptySubjects)
              ([], Aggregator.emptySubjects) H eq_refl eq_refl) as [Hd _].
  fold (pass al l1) (pass al l2) in Hd. rewrite !report_groups.
  revert Hd. generalize (fst (pass al l1)) (fst (pass al l2)).
  induction l as [|[k1 g1] gs1 IH]; intros [|[k2 g2] gs2] Hd;
    try discriminate; [reflexivity|].
  apply cons_pair_inj in Hd as (_ & Hs & Hd). simpl in Hs. simpl.
  apply summary_insertByCount; [|now apply IH].
  unfold summary in *. simpl. congruence.
Qed.

Lemma firstOf_insert_other (c v : string) (r : Csv.Row) keys :
  ~ In c keys ->
  Extract.firstOf (<[c := v]> r) keys = Extract.firstOf r keys.
Proof.
  induction keys as [|k keys IH]; intros Hc; [reflexivity|].
  cbn [Extract.firstOf].
  rewrite lookup_insert_ne by (intros ->; apply Hc; now left).
  rewrite IH by (intros H; apply Hc; now right). reflexivity.
Qed.

Lemma firstOf_insert_head (c v : string) (r : Csv.Row) keys :
  JS.isEmpty v = false ->
  Extract.firstOf (<[c := v]> r) (c :: keys) = Some v.
Proof.
  intros Hv. cbn [Extract.firstOf]. rewrite lookup_insert_eq.
  unfold Extract.truthy. now rewrite Hv.
Qed.

Lemma parseInt_pos_nonempty v :
  Num.gt0 (Num.parseInt v) = true -> JS.isEmpty v = false.
Proof. destruct v; [discriminate | reflexivity]. Qed.

Lemma textOf_insert_other (c v : string) (r : Csv.Row) keys :
  ~ In c keys ->
  Extract.textOf (<[c := v]> r) keys = Extract.textOf r keys.
Proof. intros H. unfold Extract.textOf. now rewrite firstOf_insert_other. Qed.

Lemma countOf_insert_other (c v : string) (r : Csv.Row) keys :
  ~ In c keys ->
  Extract.countOf (<[c := v]> r) keys = Extract.countOf r keys.
Proof. intros H. unfold Extract.countOf. now rewrite firstOf_insert_other. Qed.

Lemma countOf_insert_head (c v : string) (r : Csv.Row) keys :
  JS.isEmpty v = false ->
  Extract.countOf (<[c := v]> r) (c :: keys) = Num.parseInt v.
Proof. intros H. unfold Extract.countOf. now rewrite firstOf_insert_head. Qed.

Ltac not_in_keys :=
  let H := fresh in
  intros H; cbn in H;
  repeat (destruct H as [H|H]; [discriminate H|]); exact H.

(** The binary flags of the source's [calculateMetrics]. *)
Lemma flagOf_eq m (email : Csv.Row) :
  flagOf m (Extract.calculateMetrics email)
  = Num.gt0 (Extract.countOf email (aliasesOf m)).
Proof. destruct m; reflexivity. Qed.

(** A positive value in the column of [m] sets the flag of [m]. *)
Lemma flag_set m (r : Csv.Row) v :
  Num.gt0 (Num.parseInt v) = true ->
  flagOf m (Extract.calculateMetrics (<[columnOf m := v]> r)) = true.
Proof.
  intros Hv. pose proof (parseInt_pos_nonempty v Hv) as Hne.
  rewrite flagOf_eq.
  destruct m; cbn [columnOf aliasesOf];
    unfold Extract.opensKeys, Extract.clicksKeys, Extract.repliesKeys;
    rewrite countOf_insert_head by exact Hne; exact Hv.
Qed.

(** Two positive values in the column of [m]: same body, same subject,
    same flags. *)
Lemma insert_sameContribution m (r : Csv.Row) v1 v2 :
  Num.gt0 (Num.parseInt v1) = true ->
  Num.gt0 (Num.parseInt v2) = true ->
  sameContribution Aggregator.sourceAliases
    (<[columnOf m := v1]> r) (<[columnOf m := v2]> r).
Proof.
  intros H1 H2.
  pose proof (flag_set MOpens r v1) as Ho1.
  pose proof (flag_set MOpens r v2) as Ho2.
  pose proof (flag_set MClicks r v1) as Hc1.
  pose proof (flag_set MClicks r v2) as Hc2.
  pose proof (flag_set MReplies r v1) as Hr1.
  pose proof (flag_set MReplies r v2) as Hr2.
  unfold sameContribution, bodyOf, subjectOf.
  change (Aggregator.metricsOf Aggregator.sourceAliases)
    with Extract.calculateMetrics.
  destruct m; cbn [columnOf flagOf] in *;
    (repeat apply conj;
     [ rewrite !textOf_insert_other by not_in_keys; reflexivity
     | rewrite !textOf_insert_other by not_in_keys; reflexivity
     | .. ]);
    first [ now rewrite Ho1, Ho2 by assumption
          | now rewrite Hc1, Hc2 by assumption
          | now rewrite Hr1, Hr2 by assumption
          | idtac ];
    unfold Extract.calculateMetrics, Extract.metricsWith; cbv zeta;
    cbn [Extract.opened Extract.clicked Extract.replied];
    rewrite !countOf_insert_other by not_in_keys; reflexivity.
Qed.

Lemma lookupGroup_adjust key f gs :
  Aggregator.lookupGroup key (Aggregator.adjustGroup key f gs)
  = f <$> Aggregator.lookupGroup key gs.
Proof.
  induction gs as [|[k g] gs IH]; [reflexivity|].
  cbn [Aggregator.adjustGroup Aggregator.lookupGroup].
  destruct (String.eqb k key) eqn:E; cbn [Aggregator.lookupGroup];
    rewrite E; [reflexivity | exact IH].
Qed.

Lemma lookupGroup_snoc key g gs :
  Aggregator.lookupGroup key gs = None ->
  Aggregator.lookupGroup key (gs ++ [(key, g)]) = Some g.
Proof.
  induction gs as [|[k g0] gs IH]; simpl.
  - now rewrite String.eqb_refl.
  - destruct (String.eqb k key); [discriminate | exact IH].
Qed.

(** The group of a row after the row: the group before it (a new one when
    there was none), updated. *)
Lemma processEmail_group al st email :
  Aggregator.lookupGroup (typeOf al email)
    (fst (Aggregator.processEmail al st email))
  = Some (updateOf al email
            (match Aggregator.lookupGroup (typeOf al email) (fst st) with
             | Some g => g
             | None => Aggregator.newGroup
                         (Classifier.analyzeTemplate (bodyOf al email))
             end)).
Proof.
  rewrite processEmail_eq. simpl fst.
  destruct (Aggregator.lookupGroup (typeOf al email) (fst st)) eqn:E.
  - now rewrite lookupGroup_adjust, E.
  - rewrite lookupGroup_adjust, lookupGroup_snoc by exact E. reflexivity.
Qed.

Lemma groupCounter_update m email g :
  groupCounter m (updateOf Aggregator.sourceAliases email g)
  = Aggregator.bump (flagOf m (Extract.calculateMetrics email))
                    (groupCounter m g).
Proof. destruct m; reflexivity. Qed.

Lemma overallCounter_snoc m emails email :
  overallCounter m (Aggregator.overallOf Aggregator.sourceAliases
                      (emails ++ [email]))
  = overallCounter m (Aggregator.overallOf Aggregator.sourceAliases emails)
    + (if flagOf m (Extract.calculateMetrics email) then 1 else 0).
Proof.
  destruct m; cbn [overallCounter Aggregator.overallOf Overall.totalOpens
                   Overall.totalClicks Overall.totalReplies flagOf];
    cbv zeta; cbn [Overall.totalOpens Overall.totalClicks Overall.totalReplies];
    apply countWhere_snoc.
Qed.

(** C8. Two rows that differ only in the value of the opens column, both
    values greater than 0 (12 and 1, say), contribute identically: each
    adds exactly 1 to the opens of its group, which is the same group, and
    exactly 1 to overall.totalOpens; the reports of two inputs that differ
    in that one row have the same groups up to the stored detail records,
    the same overall block and the same subject buckets.  The same holds
    of the clicks and of the replies column. *)
Theorem C8_binary_counting :
  forall (m : Metric) (r : Csv.Row) (v1 v2 : string)
         (pre post : list Csv.Row) (st : Aggregator.Groups * Subjects.t),
    Num.gt0 (Num.parseInt v1) = true ->
    Num.gt0 (Num.parseInt v2) = true ->
    let r1 : Csv.Row := <[columnOf m := v1]> r in
    let r2 : Csv.Row := <[columnOf m := v2]> r in
    let key := typeOf Aggregator.sourceAliases r1 in
    let before :=
      match Aggregator.lookupGroup key (fst st) with
      | Some g => groupCounter m g
      | None => 0
      end in
    let after r' :=
      groupCounter m <$>
        Aggregator.lookupGroup key
          (fst (Aggregator.processEmail Aggregator.sourceAliases st r')) in
    let total l :=
      overallCounter m (Report.overall (Aggregator.analyzeEmails l)) in
    typeOf Aggregator.sourceAliases r2 = key /\
    after r1 = Some (S before) /\
    after r2 = Some (S before) /\
    total (pre ++ [r1]) = S (total pre) /\
    total (pre ++ [r2]) = S (total pre) /\
    map summary (Report.templateGroups
                   (Aggregator.analyzeEmails (pre ++ r1 :: post)))
    = map summary (Report.templateGroups
                     (Aggregator.analyzeEmails (pre ++ r2 :: post))) /\
    Report.overall (Aggregator.analyzeEmails (pre ++ r1 :: post))
    = Report.overall (Aggregator.analyzeEmails (pre ++ r2 :: post)) /\
    Report.subjectAnalysis (Aggregator.analyzeEmails (pre ++ r1 :: post))
    = Report.subjectAnalysis (Aggregator.analyzeEmails (pre ++ r2 :: post)).
Proof.
  intros m r v1 v2 pre post st H1 H2. cbv zeta.
  pose proof (insert_sameContribution m r v1 v2 H1 H2) as Hsame.
  pose proof (flag_set m r v1 H1) as F1.
  pose proof (flag_set m r v2 H2) as F2.
  assert (Ht : typeOf Aggregator.sourceAliases (<[columnOf m := v2]> r)
               = typeOf Aggregator.sourceAliases (<[columnOf m := v1]> r)).
  { destruct Hsame as (Hb & _). unfold typeOf. now rewrite Hb. }
  assert (Hall : Forall2 (sameContribution Aggregator.sourceAliases)
                   (pre ++ <[columnOf m := v1]> r :: post)
                   (pre ++ <[columnOf m := v2]> r :: post)).
  { apply Forall2_app; [|constructor; [exact Hsame|]];
      apply Forall_Forall2_diag, Forall_forall; intros;
      apply sameContribution_refl. }
  unfold Aggregator.analyzeEmails.
  repeat apply conj.
  - exact Ht.
  - rewrite processEmail_group. cbn [fmap option_fmap option_map].
    rewrite groupCounter_update, F1.
    now destruct (Aggregator.lookupGroup _ (fst st)); destruct m.
  - rewrite <- Ht, processEmail_group. cbn [fmap option_fmap option_map].
    rewrite groupCounter_update, F2, Ht.
    destruct Hsame as (Hb & _). rewrite <- Hb.
    now destruct (Aggregator.lookupGroup _ (fst st)); destruct m.
  - rewrite !report_overall, overallCounter_snoc, F1. lia.
  - rewrite !report_overall, overallCounter_snoc, F2. lia.
  - now apply summary_report.
  - rewrite !report_overall. now apply overall_same.
  - rewrite !report_subjects.
    now destruct (fold_same Aggregator.sourceAliases _ _
                    ([], Aggregator.emptySubjects)
                    ([], Aggregator.emptySubjects) Hall eq_refl eq_refl).
Qed.

(** Opens 12 against opens 1 on a row with a subject and a body. *)
Lemma C8_binary_counting_witness :
  let r : Csv.Row := {[ "subject" := "Quick question?";
                        "body" := "Following up on my last email." ]} in
  let r1 : Csv.Row := <["opens" := "12"]> r in
  let r2 : Csv.Row := <["opens" := "1"]> r in
  typeOf Aggregator.sourceAliases r2 = typeOf Aggregator.sourceAliases r1 /\
  Overall.totalOpens (Report.overall (Aggregator.analyzeEmails ([] ++ [r1])))
  = S (Overall.totalOpens (Report.overall (Aggregator.analyzeEmails []))) /\
  Overall.totalOpens (Report.overall (Aggregator.analyzeEmails ([] ++ [r2])))
  = S (Overall.totalOpens (Report.overall (Aggregator.analyzeEmails []))).
Proof.
  pose proof (C8_binary_counting MOpens
                {[ "subject" := "Quick question?";
                   "body" := "Following up on my last email." ]}
                "12" "1" [] [] ([], Aggregator.emptySubjects)
                eq_refl eq_refl) as H.
  cbv zeta in H. destruct H as (Ht & _ & _ & T1 & T2 & _).
  cbv zeta. exact (conj Ht (conj T1 T2)).
Defined.

(** ** C5: which rows the reader keeps *)

(** *** Fields are stored trimmed *)

Lemma trimStart_startsClean s : startsClean (JS.trimStart s).
Proof.
  induction s as [|c s IH]; [exact I|]. cbn [JS.trimStart].
  destruct (JS.isWhiteSpace c) eqn:E; [exact IH | exact E].
Qed.

Lemma trimStart_id s : startsClean s -> JS.trimStart s = s.
Proof.
  destruct s as [|c s]; [reflexivity|]. cbn [startsClean JS.trimStart].
  now intros ->.
Qed.

Lemma trimEnd_startsClean s : startsClean s -> startsClean (JS.trimEnd s).
Proof.
  destruct s as [|c s]; [trivial|]. cbn [startsClean]. intros H.
  rewrite trimEnd_cons, H. exact H.
Qed.

Lemma trimEnd_idem s : JS.trimEnd (JS.trimEnd s) = JS.trimEnd s.
Proof.
  induction s as [|c s IH]; [reflexivity|]. rewrite trimEnd_cons.
  destruct (JS.isWhiteSpace c && JS.isEmpty (JS.trimEnd s)) eqn:E;
    [reflexivity|]. now rewrite trimEnd_cons, IH, E.
Qed.

Lemma trim_idem s : JS.trim (JS.trim s) = JS.trim s.
Proof.
  unfold JS.trim.
  rewrite (trimStart_id (JS.trimEnd (JS.trimStart s)))
    by apply trimEnd_startsClean, trimStart_startsClean.
  apply trimEnd_idem.
Qed.

Lemma finishField_trimmed s :
  quoteFree s -> JS.trim (Csv.finishField s) = Csv.finishField s.
Proof.
  intros H. destruct (finishField_quoteFree s H) as [-> _]. apply trim_idem.
Qed.

Lemma scanChar_trimmed st c : trimmedScan st -> trimmedScan (Csv.scanChar st c).
Proof.
  intros [Hc Ht]. split; [now apply scanChar_clean|].
  unfold Csv.scanChar. destruct (Ascii.eqb c JS.dquote); [exact Ht|].
  destruct (Ascii.eqb c JS.comma && negb (Csv.inQuotes st)); [|exact Ht].
  cbn [Csv.values]. apply Forall_app. split; [exact Ht|].
  constructor; [|constructor]. apply finishField_trimmed, Hc.
Qed.

Lemma scanLine_trimmed line : forall st,
  trimmedScan st -> trimmedScan (Csv.scanLine line st).
Proof.
  induction line as [|c line IH]; simpl; intros st H; [exact H|].
  now apply IH, scanChar_trimmed.
Qed.

Lemma records_trimmed text :
  Forall (fun row : Csv.Row => forall k v, row !! k = Some v -> JS.trim v = v)
         (records text).
Proof.
  apply (records_Forall trimmedScan).
  - split; [exact initScan_clean | constructor].
  - exact scanLine_trimmed.
  - intros st [Hc Ht]. split; [now apply continueLine_clean | exact Ht].
  - intros headerLine st [Hc Ht] k v Hl.
    apply mkRow_lookup in Hl as [_ [Hv| ->]]; [|reflexivity].
    unfold Csv.finishRecord in Hv. apply List.in_app_or in Hv as [Hv|[<-|[]]].
    + rewrite Forall_forall in Ht. apply Ht, list_elem_of_In, Hv.
    + apply finishField_trimmed, Hc.
Qed.

Lemma trim_empty_iff s :
  (0 <? String.length (JS.trim s))%nat = true <-> JS.trim s <> EmptyString.
Proof.
  destruct (JS.trim s); simpl; split; intros H; try congruence;
    try reflexivity. discriminate.
Qed.

Lemma hasContent_Some v :
  Csv.hasContent (Some v) = true <-> JS.trim v <> EmptyString.
Proof.
  unfold Csv.hasContent. rewrite andb_true_iff, trim_empty_iff.
  split; [now intros [_ H]|]. intros H. split; [|exact H].
  destruct v; [now elim H | reflexivity].
Qed.

Lemma hasContent_iff (row : Csv.Row) k :
  Csv.hasContent (row !! k) = true <-> nonBlank row k.
Proof.
  unfold nonBlank. destruct (row !! k) as [v|].
  - rewrite hasContent_Some. split; [intros H; now exists v|].
    now intros (v' & [= <-] & H).
  - split; [discriminate | now intros (v & H & _)].
Qed.

Lemma body_rule (row : Csv.Row) :
  (forall v, row !! "body" = Some v -> JS.trim v <> EmptyString ->
             10 <= String.length (JS.trim v))
  <-> (Csv.hasContent (row !! "body") = true ->
       (10 <=? String.length (JS.trim (Csv.orEmpty (row !! "body"))))%nat
       = true).
Proof.
  destruct (row !! "body") as [b|]; cbn [Csv.orEmpty].
  - rewrite Nat.leb_le. split.
    + intros H Hc. apply (H b eq_refl). now apply hasContent_Some.
    + intros H v [= <-] Ht. apply H. now apply hasContent_Some.
  - split; [intros _ H; discriminate H | intros _ v H; discriminate H].
Qed.

Lemma keepRow_iff row : Csv.keepRow row = true <-> retained row.
Proof.
  unfold Csv.keepRow, retained. cbv zeta.
  rewrite <- !hasContent_iff, body_rule.
  generalize (Csv.hasContent (row !! "body")),
             (Csv.hasContent (row !! "subject")),
             (Csv.hasContent (row !! "recipient")),
             (10 <=? String.length
                       (JS.trim (Csv.orEmpty (row !! "body"))))%nat.
  intros [] [] [] []; cbn [orb negb]; intuition congruence.
Qed.

(** C5. The rows of [parseCSV] are the rows it builds that pass the test,
    in order; a row passes exactly when one of body, subject, recipient is
    non-empty after trimming and, if the body is, its trimmed length is at
    least 10.  The fields of a built row are stored trimmed, so that on them
    non-empty and non-empty after trimming are the same.  A row with the
    three fields empty is dropped, a row with the 5-character body [short]
    and nothing else is dropped, and a row with subject [Hi] and nothing
    else is kept. *)
Theorem C5_row_retention :
  forall (text : string) (row : Csv.Row),
    Csv.parseCSV text = List.filter Csv.keepRow (records text) /\
    (Csv.keepRow row = true <-> retained row) /\
    (In row (Csv.parseCSV text) <-> In row (records text) /\ retained row) /\
    Forall (fun r : Csv.Row => forall k v, r !! k = Some v -> JS.trim v = v)
           (records text) /\
    (List.length (records (threeColumns ++ Inputs.nl ++ ",,")) = 1 /\
     Csv.parseCSV (threeColumns ++ Inputs.nl ++ ",,") = []) /\
    (List.length (records (threeColumns ++ Inputs.nl ++ "short,,")) = 1 /\
     Csv.parseCSV (threeColumns ++ Inputs.nl ++ "short,,") = []) /\
    Csv.parseCSV (threeColumns ++ Inputs.nl ++ ",Hi,")
    = [Csv.mkRow ["body"; "subject"; "recipient"]
                 [EmptyString; "Hi"; EmptyString]].
Proof.
  intros text row.
  split; [apply parseCSV_records|].
  split; [apply keepRow_iff|].
  split; [rewrite parseCSV_records, List.filter_In, keepRow_iff; tauto|].
  split; [apply records_trimmed|].
  repeat apply conj; vm_compute; reflexivity.
Qed.

(** ** C7: a quoted field that runs over a line end *)

Lemma scanChar_newline st :
  Csv.scanChar st JS.newline = Csv.continueLine st.
Proof. reflexivity. Qed.

Lemma scanLine_joined line nextLine st :
  Csv.scanLine (line ++ String JS.newline nextLine)%string st
  = Csv.scanLine nextLine (Csv.continueLine (Csv.scanLine line st)).
Proof. rewrite scanLine_app. reflexivity. Qed.

(** A line that ends inside quotes and the line after it are read as the
    one line made of both with a newline character between them. *)
Lemma rowsFrom_joined headers line nextLine rest st rows :
  Csv.inQuotes (Csv.scanLine line st) = true ->
  Csv.rowsFrom headers line (nextLine :: rest) st rows
  = Csv.rowsFrom headers (line ++ String JS.newline nextLine)%string
                 rest st rows.
Proof.
  intros Hq. destruct rest; simpl; rewrite Hq, scanLine_joined; reflexivity.
Qed.


(** ** C9: mixed-case aliases on rows of the reader *)

Lemma toLowerChar_not_upper c : JS.isUpperAscii (JS.toLowerChar c) = false.
Proof.
  destruct c as [[] [] [] [] [] [] [] []]; vm_compute; reflexivity.
Qed.

Lemma toLowerCase_not_upper s : hasUpper (JS.toLowerCase s) = false.
Proof.
  induction s as [|c s IH]; [reflexivity|].
  cbn [JS.toLowerCase hasUpper]. now rewrite toLowerChar_not_upper.
Qed.

Lemma parseHeaders_lower headerLine k :
  In k (Csv.parseHeaders headerLine) -> hasUpper k = false.
Proof.
  unfold Csv.parseHeaders. rewrite List.in_map_iff.
  intros (h & <- & _). apply toLowerCase_not_upper.
Qed.

Lemma records_lowerKeyed text : Forall lowerKeyed (records text).
Proof.
  apply (records_Forall (fun _ => True)); auto.
  intros headerLine st _ k Hk.
  destruct (Csv.mkRow _ _ !! k) as [v|] eqn:E; [|reflexivity].
  apply mkRow_lookup in E as [Hin _].
  apply parseHeaders_lower in Hin. congruence.
Qed.

Lemma parseCSV_lowerKeyed text : Forall lowerKeyed (Csv.parseCSV text).
Proof. apply parseCSV_among_records, records_lowerKeyed. Qed.

(** On such a row the aliases with a capital letter read [undefined]:
    a chain of reads may skip them. *)
Lemma firstOf_lower (row : Csv.Row) keys :
  lowerKeyed row ->
  Extract.firstOf row keys
  = Extract.firstOf row (List.filter (fun k => negb (hasUpper k)) keys).
Proof.
  intros Hrow. induction keys as [|k keys IH]; [reflexivity|].
  cbn [Extract.firstOf List.filter]. destruct (hasUpper k) eqn:E; cbn [negb].
  - rewrite (Hrow k E). exact IH.
  - cbn [Extract.firstOf]. now rewrite IH.
Qed.

Lemma firstOf_lower_at (row : Csv.Row) keys keys' :
  lowerKeyed row ->
  List.filter (fun k => negb (hasUpper k)) keys = keys' ->
  Extract.firstOf row keys = Extract.firstOf row keys'.
Proof. intros Hrow <-. now apply firstOf_lower. Qed.

Lemma textOf_lower (row : Csv.Row) keys keys' :
  lowerKeyed row ->
  List.filter (fun k => negb (hasUpper k)) keys = keys' ->
  Extract.textOf row keys = Extract.textOf row keys'.
Proof.
  intros Hrow Hk. unfold Extract.textOf.
  now rewrite (firstOf_lower_at row keys keys' Hrow Hk).
Qed.

Lemma metricsOf_lower row :
  lowerKeyed row ->
  Aggregator.metricsOf Aggregator.sourceAliases row
  = Aggregator.metricsOf lowerAliases row.
Proof.
  intros Hrow.
  unfold Aggregator.metricsOf, Extract.metricsWith, Extract.countOf.
  rewrite (firstOf_lower_at row
             (Aggregator.opensKeys Aggregator.sourceAliases)
             (Aggregator.opensKeys lowerAliases) Hrow eq_refl).
  rewrite (firstOf_lower_at row
             (Aggregator.clicksKeys Aggregator.sourceAliases)
             (Aggregator.clicksKeys lowerAliases) Hrow eq_refl).
  rewrite (firstOf_lower_at row
             (Aggregator.repliesKeys Aggregator.sourceAliases)
             (Aggregator.repliesKeys lowerAliases) Hrow eq_refl).
  reflexivity.
Qed.

Lemma processEmail_lower st row :
  lowerKeyed row ->
  Aggregator.processEmail Aggregator.sourceAliases st row
  = Aggregator.processEmail lowerAliases st row.
Proof.
  intros Hrow. destruct st as [gs sa]. unfold Aggregator.processEmail.
  rewrite (metricsOf_lower row Hrow).
  rewrite (textOf_lower row (Aggregator.bodyKeys Aggregator.sourceAliases)
             (Aggregator.bodyKeys lowerAliases) Hrow eq_refl).
  rewrite (textOf_lower row (Aggregator.subjectKeys Aggregator.sourceAliases)
             (Aggregator.subjectKeys lowerAliases) Hrow eq_refl).
  rewrite (textOf_lower row (Aggregator.dateKeys Aggregator.sourceAliases)
             (Aggregator.dateKeys lowerAliases) Hrow eq_refl).
  rewrite (textOf_lower row
             (Aggregator.recipientKeys Aggregator.sourceAliases)
             (Aggregator.recipientKeys lowerAliases) Hrow eq_refl).
  reflexivity.
Qed.

Lemma pass_lower emails :
  Forall lowerKeyed emails ->
  pass Aggregator.sourceAliases emails = pass lowerAliases emails.
Proof.
  unfold pass. generalize (@nil (string * Group.t), Aggregator.emptySubjects).
  induction emails as [|row emails IH]; intros st Hall; [reflexivity|].
  apply Forall_cons in Hall as [Hrow Hall]. simpl.
  rewrite processEmail_lower by exact Hrow. now apply IH.
Qed.

Lemma overallOf_lower emails :
  Forall lowerKeyed emails ->
  Aggregator.overallOf Aggregator.sourceAliases emails
  = Aggregator.overallOf lowerAliases emails.
Proof.
  intros Hall. unfold Aggregator.overallOf, Aggregator.countWhere.
  assert (Hf : forall p,
    List.filter (fun e => p (Aggregator.metricsOf Aggregator.sourceAliases e))
                emails
    = List.filter (fun e => p (Aggregator.metricsOf lowerAliases e)) emails).
  { intros p. apply List.filter_ext_in. intros e He.
    rewrite metricsOf_lower; [reflexivity|].
    rewrite Forall_forall in Hall. apply Hall, list_elem_of_In, He. }
  now rewrite !Hf.
Qed.

(** C9. The keys of every row of [parseCSV] are free of capital letters,
    so every alias with a capital letter (Body, Email Body, Subject,
    Subject Line, Date, Sent Date, To, Recipient, Opens, Opened, Clicks,
    Clicked, Replies, Replied) reads nothing on it, and [analyzeEmails] on
    the rows of [parseCSV] returns the same report as the variant that
    consults only the lower-case aliases. *)
Theorem C9_mixed_case_aliases_dead :
  forall text : string,
    Forall (fun row : Csv.Row =>
              Forall (fun k => row !! k = None)
                     ["Body"; "Email Body"; "Subject"; "Subject Line";
                      "Date"; "Sent Date"; "To"; "Recipient";
                      "Opens"; "Opened"; "Clicks"; "Clicked";
                      "Replies"; "Replied"])
           (Csv.parseCSV text) /\
    Forall (fun row : Csv.Row => forall k, hasUpper k = true -> row !! k = None)
           (Csv.parseCSV text) /\
    Aggregator.analyzeEmails (Csv.parseCSV text)
    = analyzeEmailsLowerOnly (Csv.parseCSV text).
Proof.
  intros text. pose proof (parseCSV_lowerKeyed text) as Hall.
  repeat apply conj.
  - eapply Forall_impl; [exact Hall|]. intros row Hrow.
    repeat constructor; apply Hrow; reflexivity.
  - exact Hall.
  - unfold Aggregator.analyzeEmails, analyzeEmailsLowerOnly,
      Aggregator.analyzeEmailsWith.
    fold (pass Aggregator.sourceAliases (Csv.parseCSV text)).
    fold (pass lowerAliases (Csv.parseCSV text)).
    rewrite pass_lower, overallOf_lower by exact Hall. reflexivity.
Qed.

(** ** C6: the best qualifying template *)

(** The loop over the indicators adds up the weights of the rules that
    match. *)
Lemma scoreOf_from text (rules : list Registry.Indicator) : forall acc,
  fold_left
    (fun score i =>
       if Regex.test (Registry.pattern i) text then score + Registry.weight i
       else score)
    rules acc
  = acc + sum_list_with Registry.weight
            (List.filter (fun i => Regex.test (Registry.pattern i) text) rules).
Proof.
  induction rules as [|i rules IH]; intros acc; cbn [fold_left List.filter].
  - simpl. lia.
  - rewrite IH. destruct (Regex.test (Registry.pattern i) text); simpl; lia.
Qed.

Lemma scoreOf_sum t text : Classifier.scoreOf t text = scoreIn text t.
Proof. unfold Classifier.scoreOf. now rewrite scoreOf_from. Qed.

Section BestMatch.

Variable text : string.

Lemma winner_bound seen t t' :
  winner text seen t -> In t' seen -> qualifies text t' ->
  scoreIn text t' <= scoreIn text t.
Proof.
  intros (earlier & later & -> & _ & He & Hl) Hin Hq.
  rewrite Forall_forall in He, Hl.
  apply List.in_app_or in Hin as [Hin|[<-|Hin]].
  - apply list_elem_of_In in Hin. specialize (He _ Hin Hq). lia.
  - lia.
  - apply list_elem_of_In in Hin. exact (Hl _ Hin Hq).
Qed.

Lemma consider_ok seen st t :
  0 < Registry.minScore t ->
  stateOk text seen st ->
  stateOk text (seen ++ [t]) (Classifier.consider text st t).
Proof.
  intros Hpos Hst. unfold Classifier.consider. cbv zeta.
  rewrite scoreOf_sum.
  destruct (Nat.leb_spec (Registry.minScore t) (scoreIn text t)) as [Hq|Hq];
    destruct (Nat.ltb_spec (snd st) (scoreIn text t)) as [Hh|Hh]; cbn [andb].
  - right. exists t. repeat split. exists seen, []. repeat split.
    + exact Hq.
    + destruct Hst as [(_ & _ & Hnone)|(t0 & _ & Hs & Hw)].
      * eapply Forall_impl; [exact Hnone|]. intros t' Hn Hq'. contradiction.
      * apply Forall_forall. intros t' Hin Hq'.
        apply list_elem_of_In in Hin.
        pose proof (winner_bound seen t0 t' Hw Hin Hq'). lia.
    + constructor.
  - destruct Hst as [(_ & Hs & _)|(t0 & Hb & Hs & Hw)].
    + unfold qualifies in *. lia.
    + right. exists t0. repeat split; [exact Hb | exact Hs |].
      destruct Hw as (earlier & later & -> & Hq0 & He & Hl).
      exists earlier, (later ++ [t]). repeat split.
      * now rewrite <- List.app_assoc.
      * exact Hq0.
      * exact He.
      * apply Forall_app. split; [exact Hl|].
        constructor; [|constructor]. intros _. lia.
  - destruct Hst as [(Hb & Hs & Hnone)|(t0 & Hb & Hs & Hw)].
    + left. repeat split; [exact Hb | exact Hs |].
      apply Forall_app. split; [exact Hnone|].
      constructor; [|constructor]. unfold qualifies. lia.
    + right. exists t0. repeat split; [exact Hb | exact Hs |].
      destruct Hw as (earlier & later & -> & Hq0 & He & Hl).
      exists earlier, (later ++ [t]). repeat split.
      * now rewrite <- List.app_assoc.
      * exact Hq0.
      * exact He.
      * apply Forall_app. split; [exact Hl|].
        constructor; [|constructor]. unfold qualifies. lia.
  - destruct Hst as [(Hb & Hs & Hnone)|(t0 & Hb & Hs & Hw)].
    + left. repeat split; [exact Hb | exact Hs |].
      apply Forall_app. split; [exact Hnone|].
      constructor; [|constructor]. unfold qualifies. lia.
    + right. exists t0. repeat split; [exact Hb | exact Hs |].
      destruct Hw as (earlier & later & -> & Hq0 & He & Hl).
      exists earlier, (later ++ [t]). repeat split.
      * now rewrite <- List.app_assoc.
      * exact Hq0.
      * exact He.
      * apply Forall_app. split; [exact Hl|].
        constructor; [|constructor]. unfold qualifies. lia.
Qed.

Lemma fold_consider_ok later : forall seen st,
  Forall (fun t => 0 < Registry.minScore t) later ->
  stateOk text seen st ->
  stateOk text (seen ++ later) (fold_left (Classifier.consider text) later st).
Proof.
  induction later as [|t later IH]; intros seen st Hpos Hst; simpl.
  - now rewrite List.app_nil_r.
  - apply Forall_cons in Hpos as [Ht Hpos].
    replace (seen ++ t :: later) with ((seen ++ [t]) ++ later)
      by now rewrite <- List.app_assoc.
    apply IH; [exact Hpos|]. now apply consider_ok.
Qed.

(** The loop over a registry whose minimum scores are positive. *)
Lemma bestMatch_spec ts :
  Forall (fun t => 0 < Registry.minScore t) ts ->
  (Classifier.bestMatch ts text = None /\
   Forall (fun t => ~ qualifies text t) ts)
  \/ (exists t, Classifier.bestMatch ts text
                = Some (Classifier.resultOf t (scoreIn text t)) /\
              winner text ts t).
Proof.
  intros Hpos. unfold Classifier.bestMatch.
  destruct (fold_consider_ok ts [] (None, 0) Hpos) as
    [(Hb & _ & Hn)|(t & Hb & _ & Hw)].
  - left. repeat split. constructor.
  - left. now split.
  - right. now exists t.
Qed.

End BestMatch.

Lemma registry_minScores :
  Forall (fun t => 0 < Registry.minScore t) Registry.TEMPLATES.
Proof. repeat constructor. Qed.

Lemma registry_names_distinct t t' :
  In t Registry.TEMPLATES -> In t' Registry.TEMPLATES ->
  Registry.name t = Registry.name t' -> t = t'.
Proof.
  unfold Registry.TEMPLATES. cbn [In]. intros H H'.
  repeat (destruct H as [<-|H]; [|]); try contradiction;
    repeat (destruct H' as [<-|H']; [|]); try contradiction;
    intros E; first [reflexivity | discriminate E].
Qed.

Lemma fallback_not_registered text t :
  In t Registry.TEMPLATES ->
  Classifier.type (Classifier.fallback text) <> Registry.name t.
Proof.
  unfold Classifier.fallback. cbv zeta.
  destruct (_ <? 30)%nat; [|destruct (150 <? _)%nat]; cbn [Classifier.type];
    unfold Registry.TEMPLATES; cbn [In]; intros H;
    repeat (destruct H as [<-|H]; [discriminate|]); contradiction.
Qed.

(** *** A blank body *)

Lemma trimEnd_nonempty s :
  startsClean s -> JS.trimEnd s = EmptyString -> s = EmptyString.
Proof.
  destruct s as [|c s]; [reflexivity|]. cbn [startsClean]. intros H.
  rewrite trimEnd_cons, H. discriminate.
Qed.

Lemma trimStart_allBlank s :
  JS.trimStart s = EmptyString <-> allBlank s = true.
Proof.
  induction s as [|c s IH]; [now split|]. cbn [JS.trimStart allBlank].
  destruct (JS.isWhiteSpace c); [exact IH | split; discriminate].
Qed.

Lemma trim_allBlank s : JS.trim s = EmptyString <-> allBlank s = true.
Proof.
  rewrite <- trimStart_allBlank. unfold JS.trim. split.
  - apply trimEnd_nonempty, trimStart_startsClean.
  - now intros ->.
Qed.

Lemma blank_char c :
  JS.isWhiteSpace c = true ->
  JS.toLowerChar c = c /\ Ascii.eqb c Classifier.lt = false.
Proof.
  destruct c as [[] [] [] [] [] [] [] []]; vm_compute;
    first [discriminate | now split].
Qed.

Lemma toLowerCase_allBlank s :
  allBlank s = true -> JS.toLowerCase s = s.
Proof.
  induction s as [|c s IH]; [reflexivity|]. cbn [allBlank JS.toLowerCase].
  destruct (JS.isWhiteSpace c) eqn:E; [|discriminate]. intros H.
  destruct (blank_char c E) as [-> _]. now rewrite IH.
Qed.

Lemma stripTags_allBlank s :
  allBlank s = true -> Classifier.stripTagsFrom false s = s.
Proof.
  induction s as [|c s IH]; [reflexivity|].
  cbn [allBlank Classifier.stripTagsFrom].
  destruct (JS.isWhiteSpace c) eqn:E; [|discriminate]. intros H.
  destruct (blank_char c E) as [_ ->]. now rewrite IH.
Qed.

Lemma collapse_allBlank s : forall inRun,
  allBlank s = true -> allBlank (Classifier.collapseFrom inRun s) = true.
Proof.
  induction s as [|c s IH]; intros inRun; [reflexivity|].
  cbn [allBlank Classifier.collapseFrom].
  destruct (JS.isWhiteSpace c); [|discriminate]. intros H.
  destruct inRun; [now apply IH|]. cbn [allBlank].
  change (JS.isWhiteSpace Classifier.space) with true. now apply IH.
Qed.

(** On a blank body the text that would be scored is empty, and no
    template of the registry qualifies on the empty text. *)
Lemma blank_text emailBody :
  Classifier.isBlank emailBody = true ->
  Classifier.bodyWithoutSig emailBody = EmptyString.
Proof.
  intros H.
  assert (Hb : allBlank emailBody = true).
  { apply trim_allBlank. unfold Classifier.isBlank in H.
    destruct emailBody as [|c s]; [reflexivity|]. cbn [JS.isEmpty orb] in H.
    destruct (JS.trim (String c s)); [reflexivity | discriminate H]. }
  unfold Classifier.bodyWithoutSig. cbv zeta.
  rewrite (toLowerCase_allBlank _ Hb). unfold Classifier.stripTags.
  rewrite (stripTags_allBlank _ Hb).
  pose proof (collapse_allBlank emailBody false Hb) as Hc.
  apply trim_allBlank in Hc. unfold Classifier.collapseSpaces.
  rewrite Hc. reflexivity.
Qed.

Lemma nothing_qualifies_on_empty :
  Forall (fun t => ~ qualifies EmptyString t) Registry.TEMPLATES.
Proof.
  repeat constructor; unfold qualifies, scoreIn; vm_compute; lia.
Qed.

Lemma emptyBody_not_registered t :
  In t Registry.TEMPLATES ->
  Classifier.type Classifier.emptyBody <> Registry.name t.
Proof.
  unfold Registry.TEMPLATES. cbn [In Classifier.type Classifier.emptyBody].
  intros H. repeat (destruct H as [<-|H]; [discriminate|]). contradiction.
Qed.

(** C6. For every body, with [text] the body lower-cased, cleaned and cut
    at the signature: the score that [analyzeTemplate] computes for a
    template is the sum of the weights of the indicator rules of the
    template that match [text].  [analyzeTemplate] returns the result of a
    registry template [t] (its name, that score, its description) only if
    the score of [t] is at least [t]'s minScore; the template returned is
    the qualifying one with the highest score, every qualifying template
    registered before it having a strictly lower score and none registered
    after it a higher one, so of two qualifying templates with the same
    highest score the one registered earlier wins.  When no template
    qualifies the result is the fallback, or the empty-body result on a
    blank body, on which no template qualifies. *)
Theorem C6_best_qualifying_template :
  forall emailBody : string,
    let text := Classifier.bodyWithoutSig emailBody in
    let result := Classifier.analyzeTemplate emailBody in
    (forall t, Classifier.scoreOf t text
               = sum_list_with Registry.weight
                   (List.filter
                      (fun i => Regex.test (Registry.pattern i) text)
                      (Registry.indicators t))) /\
    ((exists t, winner text Registry.TEMPLATES t /\
                result = Classifier.resultOf t (scoreIn text t)) \/
     (Forall (fun t => ~ qualifies text t) Registry.TEMPLATES /\
      result = if Classifier.isBlank emailBody then Classifier.emptyBody
               else Classifier.fallback text)) /\
    (forall t, In t Registry.TEMPLATES ->
               Classifier.type result = Registry.name t ->
               Registry.minScore t <= scoreIn text t /\
               Classifier.score result = scoreIn text t /\
               winner text Registry.TEMPLATES t /\
               result = Classifier.resultOf t (scoreIn text t)).
Proof.
  intros emailBody. cbv zeta.
  split; [intros t; apply scoreOf_sum|].
  unfold Classifier.analyzeTemplate.
  destruct (Classifier.isBlank emailBody) eqn:Hblank.
  { rewrite (blank_text _ Hblank). split.
    - right. split; [exact nothing_qualifies_on_empty | reflexivity].
    - intros t Hin Ht. exfalso. now apply (emptyBody_not_registered t Hin). }
  set (text := Classifier.bodyWithoutSig emailBody).
  destruct (bestMatch_spec text Registry.TEMPLATES registry_minScores)
    as [[-> Hnone]|(t0 & -> & Hw)].
  - split; [right; now split|]. intros t Hin Ht. exfalso.
    now apply (fallback_not_registered text t Hin).
  - split; [left; now exists t0|]. intros t Hin Ht.
    assert (Hin0 : In t0 Registry.TEMPLATES).
    { destruct Hw as (earlier & later & E & _). rewrite E.
      apply List.in_or_app. right. now left. }
    cbn [Classifier.resultOf Classifier.type] in Ht.
    apply (registry_names_distinct t0 t Hin0 Hin) in Ht. subst t0.
    repeat split; [|exact Hw].
    now destruct Hw as (_ & _ & _ & Hq & _).
Qed.

(** The body of the end-to-end scenario: three of the four rules of
    Research-Based Outreach match, with weight 2 each, which makes 6; Direct
    Meeting Request, which also qualifies, scores 4, and Research-Based
    Outreach is returned with score 6. *)
Lemma C6_best_qualifying_template_witness :
  let text := Classifier.bodyWithoutSig Inputs.researchBody in
  (Registry.minScore Registry.RESEARCH_BASED
   <= scoreIn text Registry.RESEARCH_BASED /\
   Classifier.score (Classifier.analyzeTemplate Inputs.researchBody)
   = scoreIn text Registry.RESEARCH_BASED /\
   winner text Registry.TEMPLATES Registry.RESEARCH_BASED /\
   Classifier.analyzeTemplate Inputs.researchBody
   = Classifier.resultOf Registry.RESEARCH_BASED
       (scoreIn text Registry.RESEARCH_BASED)) /\
  map Registry.weight (matching text Registry.RESEARCH_BASED) = [2; 2; 2] /\
  map (scoreIn text) Registry.TEMPLATES = [6; 0; 4; 0; 1; 0; 0; 0] /\
  map Registry.minScore Registry.TEMPLATES = [4; 3; 3; 3; 3; 3; 3; 2].
Proof.
  cbv zeta. split.
  - refine (proj2 (proj2 (C6_best_qualifying_template Inputs.researchBody))
                  Registry.RESEARCH_BASED (or_introl eq_refl) _).
    vm_compute. reflexivity.
  - repeat apply conj; vm_compute; reflexivity.
Defined.

(** A tie between two qualifying templates: Direct Meeting Request and
    Event-Based Outreach both score 3 on this body, and the one registered
    first is returned. *)
Example tie_goes_to_the_earlier :
  let body := "Are we free for a meeting next week" in
  map (fun t => Classifier.scoreOf t (Classifier.bodyWithoutSig body))
      Registry.TEMPLATES = [0; 0; 3; 0; 0; 3; 0; 0] /\
  Classifier.analyzeTemplate body
  = Classifier.resultOf Registry.MEETING_REQUEST 3.
Proof. cbv zeta. split; vm_compute; reflexivity. Qed.

(** * Further properties *)

(** ** The reader on short, blank and unbalanced input *)

Lemma split_without_separator sep s :
  JS.includes sep s = false -> JS.split sep s = [s].
Proof.
  induction s as [|c s IH]; [reflexivity|].
  change (JS.includes sep (String c s))
    with (if Ascii.eqb sep c then true else JS.includes sep s).
  cbn [JS.split]. rewrite (Ascii.eqb_sym c sep).
  destruct (Ascii.eqb sep c); [discriminate|]. intros H.
  now rewrite (IH H).
Qed.

(** X1. A text without a line feed, the empty text included, has no data
    line: [parseCSV] returns no row, whatever the line holds. *)
Theorem parseCSV_one_line :
  forall text : string,
    JS.includes JS.newline text = false -> Csv.parseCSV text = [].
Proof.
  intros text H. unfold Csv.parseCSV.
  now rewrite (split_without_separator _ _ H).
Qed.

Lemma parseCSV_one_line_witness :
  Csv.parseCSV "subject,body,opens" = [].
Proof. exact (parseCSV_one_line "subject,body,opens" eq_refl). Defined.

Lemma recordsFrom_length headers rest : forall line st,
  List.length (recordsFrom headers line rest st) <= S (List.length rest).
Proof.
  induction rest as [|nextLine rest IH]; intros line st; simpl; [lia|].
  destruct (Csv.inQuotes (Csv.scanLine line st)).
  - specialize (IH nextLine (Csv.continueLine (Csv.scanLine line st))). lia.
  - simpl. specialize (IH nextLine Csv.initScan). lia.
Qed.

Lemma filter_length_le {A : Type} (p : A -> bool) (l : list A) :
  List.length (List.filter p l) <= List.length l.
Proof.
  induction l as [|x l IH]; simpl; [lia|]. destruct (p x); simpl; lia.
Qed.

Lemma split_nonempty sep s : 1 <= List.length (JS.split sep s).
Proof.
  induction s as [|c s IH]; simpl; [lia|].
  destruct (Ascii.eqb c sep); simpl; [lia|].
  destruct (JS.split sep s); simpl in *; lia.
Qed.

Lemma parseCSV_length text :
  S (List.length (Csv.parseCSV text))
  <= List.length (JS.split JS.newline text).
Proof.
  rewrite parseCSV_records.
  pose proof (filter_length_le Csv.keepRow (records text)) as Hf.
  pose proof (split_nonempty JS.newline text) as Hs.
  unfold records in *.
  destruct (JS.split JS.newline text) as [|headerLine [|line rest]];
    simpl in *; [lia | lia |].
  pose proof (recordsFrom_length (Csv.parseHeaders headerLine) rest line
                Csv.initScan). lia.
Qed.

(** X2. [parseCSV] returns fewer rows than the text has physical lines: the
    number that [handleFileUpload] logs as empty rows skipped is never
    negative, the three logged numbers add up, and the rows counted as
    valid are the rows of the analysis. *)
Theorem upload_log_consistent :
  forall text : string,
    let '(log, data, analysis) := Ui.handleFileUpload text in
    (0 <= Ui.emptyRowsSkipped log)%Z /\
    (Z.of_nat (Ui.validEmails log) + Ui.emptyRowsSkipped log + 1
     = Z.of_nat (Ui.totalLines log))%Z /\
    1 <= Ui.totalLines log /\
    Ui.validEmails log = List.length data /\
    Overall.totalEmails (Report.overall analysis) = Ui.validEmails log.
Proof.
  intros text. unfold Ui.handleFileUpload, Ui.uploadLog. cbv zeta.
  cbn [Ui.emptyRowsSkipped Ui.validEmails Ui.totalLines].
  pose proof (parseCSV_length text). pose proof (split_nonempty JS.newline text).
  unfold Aggregator.analyzeEmails. rewrite report_overall.
  repeat apply conj; try reflexivity; lia.
Qed.

(** Every built row is a row built under the headers of the text. *)
Lemma records_rows text :
  Forall (fun row => exists vals, row = Csv.mkRow (headersOf text) vals)
         (records text).
Proof.
  unfold records, headersOf.
  destruct (JS.split JS.newline text) as [|headerLine [|line rest]];
    [constructor | constructor |].
  apply recordsFrom_Forall with (Q := fun _ => True); auto.
  intros st _. now eexists.
Qed.

Lemma parseCSV_rows text row :
  In row (Csv.parseCSV text) ->
  Csv.keepRow row = true /\
  exists vals, row = Csv.mkRow (headersOf text) vals.
Proof.
  rewrite parseCSV_records, List.filter_In. intros [Hin Hk].
  split; [exact Hk|]. pose proof (records_rows text) as H.
  rewrite Forall_forall in H. apply H, list_elem_of_In, Hin.
Qed.

Lemma fillRow_keys headers : forall idx vals (row : Csv.Row) k,
  is_Some (Csv.fillRow headers idx vals row !! k)
  <-> is_Some (row !! k) \/ (In k headers /\ k <> "__proto__").
Proof.
  induction headers as [|h headers IH]; intros idx vals row k; simpl;
    [tauto|].
  rewrite IH. unfold Csv.setProp.
  destruct (String.eqb_spec h "__proto__") as [->|Hp].
  - intuition congruence.
  - destruct (decide (h = k)) as [->|Hne].
    + rewrite lookup_insert_eq. split; [intros _|intros _; left; eauto].
      right. split; [now left | exact Hp].
    + rewrite lookup_insert_ne by exact Hne. intuition congruence.
Qed.

(** X3. The keys of a parsed row are exactly the header names of the file
    (the name [__proto__] apart, under which nothing is stored): a data
    line with fewer fields than headers is filled up with empty strings, and
    fields beyond the headers are dropped. *)
Theorem parsed_row_keys :
  forall (text : string) (row : Csv.Row),
    In row (Csv.parseCSV text) ->
    forall k, is_Some (row !! k)
              <-> In k (headersOf text) /\ k <> "__proto__".
Proof.
  intros text row Hin k. apply parseCSV_rows in Hin as (_ & vals & ->).
  unfold Csv.mkRow. rewrite fillRow_keys, lookup_empty.
  split; [intros [[x Hx]|H]; [discriminate | exact H] | now right].
Qed.

Lemma parsed_row_keys_witness :
  is_Some (Csv.mkRow ["subject"; "body"; "opens"] ["Hello there"] !! "opens")
  <-> In "opens" (headersOf shortLineCsv) /\ "opens" <> "__proto__".
Proof.
  refine (parsed_row_keys shortLineCsv
            (Csv.mkRow ["subject"; "body"; "opens"] ["Hello there"]) _
            "opens").
  vm_compute. left. reflexivity.
Defined.

Lemma fillRow_absent headers : forall idx vals (row : Csv.Row) k,
  ~ In k headers ->
  Csv.fillRow headers idx vals row !! k = row !! k.
Proof.
  induction headers as [|h headers IH]; intros idx vals row k Hk; simpl;
    [reflexivity|].
  rewrite IH by (intros H; apply Hk; now right).
  unfold Csv.setProp. destruct (String.eqb h "__proto__"); [reflexivity|].
  apply lookup_insert_ne. intros ->. apply Hk. now left.
Qed.

Lemma fillRow_app before after : forall idx vals (row : Csv.Row),
  Csv.fillRow (before ++ after) idx vals row
  = Csv.fillRow after (idx + List.length before) vals
      (Csv.fillRow before idx vals row).
Proof.
  induction before as [|h before IH]; intros idx vals row; simpl.
  - now rewrite Nat.add_0_r.
  - rewrite IH. now replace (S idx + List.length before)
      with (idx + S (List.length before)) by lia.
Qed.

(** X4. Under a header name that occurs more than once, a row holds the
    field of the last column of that name (the empty string when the data
    line is too short to have it). *)
Theorem duplicate_header_last_wins :
  forall (before after vals : list string) (k : string),
    ~ In k after -> k <> "__proto__" ->
    Csv.mkRow (before ++ k :: after) vals !! k
    = Some (Csv.orEmpty (vals !! List.length before)).
Proof.
  intros before after vals k Hk Hp. unfold Csv.mkRow.
  rewrite fillRow_app. cbn [Csv.fillRow].
  rewrite fillRow_absent by exact Hk. unfold Csv.setProp.
  destruct (String.eqb_spec k "__proto__") as [E|_]; [contradiction|].
  now rewrite lookup_insert_eq.
Qed.

Lemma duplicate_header_last_wins_witness :
  Csv.mkRow (["body"; "subject"] ++ "body" :: ["opens"])
            ["first"; "Hi"; "second"; "3"] !! "body"
  = Some (Csv.orEmpty (["first"; "Hi"; "second"; "3"] !! 2)).
Proof.
  refine (duplicate_header_last_wins ["body"; "subject"] ["opens"]
            ["first"; "Hi"; "second"; "3"] "body" _ _).
  - intros [H|[]]. discriminate H.
  - discriminate.
Defined.

(** *** Lines of separators *)

Lemma allBlank_quoteFree s : allBlank s = true -> quoteFree s.
Proof.
  induction s as [|c s IH]; [reflexivity|]. cbn [allBlank].
  destruct (JS.isWhiteSpace c) eqn:E; [|discriminate]. intros H.
  apply quoteFree_cons. split; [|auto].
  destruct c as [[] [] [] [] [] [] [] []]; try reflexivity;
    vm_compute in E; discriminate E.
Qed.

Lemma finishField_blank s :
  allBlank s = true -> Csv.finishField s = EmptyString.
Proof.
  intros H.
  destruct (finishField_quoteFree s (allBlank_quoteFree s H)) as [-> _].
  now apply trim_allBlank.
Qed.

Lemma allBlank_snoc s c :
  allBlank s = true -> JS.isWhiteSpace c = true ->
  allBlank (s ++ String c EmptyString) = true.
Proof.
  induction s as [|d s IH]; intros H Hc.
  - change (allBlank (String c EmptyString) = true). cbn [allBlank].
    now rewrite Hc.
  - change (allBlank (String d (s ++ String c EmptyString)) = true).
    cbn [allBlank] in *. destruct (JS.isWhiteSpace d); [auto | discriminate].
Qed.

Lemma scanLine_separators line : forall st,
  separatorsOnly line = true -> emptyFields st ->
  emptyFields (Csv.scanLine line st).
Proof.
  induction line as [|c line IH]; intros st Hl Hst; [exact Hst|].
  cbn [separatorsOnly] in Hl. cbn [Csv.scanLine].
  destruct (JS.isWhiteSpace c || Ascii.eqb c JS.comma) eqn:E; [|discriminate].
  apply IH; [exact Hl|]. destruct Hst as (Hv & Hc & Hq).
  unfold Csv.scanChar.
  destruct (Ascii.eqb c JS.dquote) eqn:Ed.
  { destruct c as [[] [] [] [] [] [] [] []]; vm_compute in Ed, E;
      discriminate. }
  rewrite Hq. cbn [negb andb].
  destruct (Ascii.eqb c JS.comma) eqn:Ec.
  - repeat split; cbn [Csv.values Csv.current Csv.inQuotes]; auto.
    apply Forall_app. split; [exact Hv|]. constructor; [|constructor].
    now apply finishField_blank.
  - rewrite orb_false_r in E.
    repeat split; cbn [Csv.values Csv.current Csv.inQuotes]; auto.
    now apply allBlank_snoc.
Qed.

Lemma keepRow_empty_values headers vals :
  Forall (fun v => v = EmptyString) vals ->
  Csv.keepRow (Csv.mkRow headers vals) = false.
Proof.
  intros Hv.
  assert (H : forall k, Csv.hasContent (Csv.mkRow headers vals !! k) = false).
  { intros k. destruct (Csv.mkRow headers vals !! k) as [v|] eqn:E;
      [|reflexivity].
    apply mkRow_lookup in E as [_ [Hin| ->]]; [|reflexivity].
    rewrite Forall_forall in Hv. apply list_elem_of_In in Hin.
    now rewrite (Hv _ Hin). }
  unfold Csv.keepRow. cbv zeta. now rewrite !H.
Qed.

(** X5. A data line made of blanks and commas only (an empty line, the
    carriage return of a blank line, a row of empty fields) adds no row,
    whatever the headers are. *)
Theorem separator_line_dropped :
  forall (headers : list string) (line : string) (rows : list Csv.Row),
    separatorsOnly line = true ->
    Csv.pushRecord headers (Csv.scanLine line Csv.initScan) rows = rows /\
    Csv.inQuotes (Csv.scanLine line Csv.initScan) = false.
Proof.
  intros headers line rows Hl.
  destruct (scanLine_separators line Csv.initScan Hl) as (Hv & Hc & Hq).
  { repeat split. constructor. }
  split; [|exact Hq]. unfold Csv.pushRecord. cbv zeta.
  rewrite keepRow_empty_values; [reflexivity|].
  unfold Csv.finishRecord. apply Forall_app. split; [exact Hv|].
  constructor; [|constructor]. now apply finishField_blank.
Qed.

Lemma separator_line_dropped_witness :
  Csv.pushRecord ["subject"; "body"] (Csv.scanLine " ,, ," Csv.initScan) []
  = [] /\
  Csv.inQuotes (Csv.scanLine " ,, ," Csv.initScan) = false.
Proof.
  exact (separator_line_dropped ["subject"; "body"] " ,, ," [] eq_refl).
Defined.

(** X6. A file none of whose header names is body, subject or recipient
    (after trimming, quote stripping and lower-casing) yields no row at all:
    the other aliases that [analyzeEmails] reads (content, message,
    subject_line, to, email) do not keep a row. *)
Theorem no_known_column_no_rows :
  forall text : string,
    ~ In "body" (headersOf text) ->
    ~ In "subject" (headersOf text) ->
    ~ In "recipient" (headersOf text) ->
    Csv.parseCSV text = [].
Proof.
  intros text Hb Hs Hr.
  destruct (Csv.parseCSV text) as [|row rows] eqn:E; [reflexivity|].
  exfalso.
  destruct (parseCSV_rows text row) as (Hk & vals & ->);
    [rewrite E; now left|].
  assert (H : forall k, ~ In k (headersOf text) ->
                        Csv.mkRow (headersOf text) vals !! k = None).
  { intros k Hn. unfold Csv.mkRow. rewrite fillRow_absent by exact Hn.
    apply lookup_empty. }
  unfold Csv.keepRow in Hk. cbv zeta in Hk.
  rewrite (H _ Hb), (H _ Hs), (H _ Hr) in Hk. discriminate Hk.
Qed.

Lemma no_known_column_no_rows_witness :
  Csv.parseCSV aliasOnlyCsv = [].
Proof.
  refine (no_known_column_no_rows aliasOnlyCsv _ _ _); vm_compute;
    intros H; repeat (destruct H as [H|H]; [discriminate H|]); exact H.
Defined.

(** X7. In a parsed row the field under body is stored trimmed and is
    either empty or at least 10 characters long; a row with an empty body
    has a non-empty subject or recipient. *)
Theorem parsed_body_length :
  forall (text : string) (row : Csv.Row),
    In row (Csv.parseCSV text) ->
    (forall v, row !! "body" = Some v ->
               JS.trim v = v /\
               (v = EmptyString \/ 10 <= String.length v)) /\
    (Csv.orEmpty (row !! "body") = EmptyString ->
     (exists v, row !! "subject" = Some v /\ v <> EmptyString) \/
     (exists v, row !! "recipient" = Some v /\ v <> EmptyString)).
Proof.
  intros text row Hin.
  rewrite parseCSV_records in Hin. apply List.filter_In in Hin as [Hin Hk].
  pose proof (records_trimmed text) as Ht. rewrite Forall_forall in Ht.
  specialize (Ht row (proj2 (list_elem_of_In _ _) Hin)).
  apply keepRow_iff in Hk as [Hsome Hbody].
  split.
  - intros v Hv. pose proof (Ht _ _ Hv) as Htv. split; [exact Htv|].
    destruct v as [|c v]; [now left|]. right.
    rewrite <- Htv. apply (Hbody _ Hv). rewrite Htv. discriminate.
  - intros He.
    destruct Hsome as [(v & Hv & Hn)|[(v & Hv & Hn)|(v & Hv & Hn)]].
    + rewrite Hv in He. simpl in He. subst v. now elim Hn.
    + left. exists v. split; [exact Hv|]. intros ->. now apply Hn.
    + right. exists v. split; [exact Hv|]. intros ->. now apply Hn.
Qed.

Lemma parsed_body_length_witness :
  JS.trim Inputs.researchBody = Inputs.researchBody /\
  (Inputs.researchBody = EmptyString \/
   10 <= String.length Inputs.researchBody).
Proof.
  refine (proj1 (parsed_body_length Inputs.scenarioCsv
                   (Csv.mkRow ["subject"; "body"; "opens"; "clicks"; "replies"]
                              ["Test"; Inputs.researchBody; "1"; "0"; "0"])
                   _) Inputs.researchBody _);
    vm_compute; [left; reflexivity | reflexivity].
Defined.

(** *** Quotes that open and close *)

Lemma append_cons c (a b : string) :
  (String c a ++ b)%string = String c (a ++ b)%string.
Proof. reflexivity. Qed.

Lemma append_empty_r (a : string) : (a ++ EmptyString)%string = a.
Proof.
  induction a as [|c a IH]; [reflexivity|]. now rewrite append_cons, IH.
Qed.

Lemma append_assoc (a b c : string) :
  ((a ++ b) ++ c)%string = (a ++ (b ++ c))%string.
Proof.
  induction a as [|d a IH]; [reflexivity|]. now rewrite !append_cons, IH.
Qed.

Lemma scanLine_quoteFree_inside line : forall vals cur,
  quoteFree line ->
  Csv.scanLine line (Csv.mkScan vals cur true)
  = Csv.mkScan vals (cur ++ line)%string true.
Proof.
  induction line as [|c line IH]; intros vals cur Hq.
  - cbn [Csv.scanLine]. now rewrite append_empty_r.
  - apply quoteFree_cons in Hq as [Hc Hq]. cbn [Csv.scanLine].
    unfold Csv.scanChar. rewrite Ascii.eqb_sym, Hc.
    cbn [Csv.inQuotes negb]. rewrite andb_false_r.
    cbn [Csv.values Csv.current]. rewrite IH by exact Hq.
    now rewrite append_assoc.
Qed.

Lemma recordsFrom_open headers rest : forall line vals cur,
  quoteFree line -> Forall quoteFree rest ->
  exists row, recordsFrom headers line rest (Csv.mkScan vals cur true) = [row].
Proof.
  induction rest as [|nextLine rest IH]; intros line vals cur Hl Hr.
  - cbn [recordsFrom]. now eexists.
  - apply Forall_cons in Hr as [Hn Hr]. cbn [recordsFrom].
    rewrite scanLine_quoteFree_inside by exact Hl.
    cbn [Csv.inQuotes Csv.continueLine Csv.values Csv.current].
    now apply IH.
Qed.

(** X8. A quote that is opened and never closed takes the rest of the file
    into one record: when a line ends inside quotes and no later line has a
    double quote, all the lines that follow belong to that one logical row,
    so that at most one more row is parsed. *)
Theorem unclosed_quote_one_record :
  forall (headers : list string) (line : string) (rest : list string)
         (st : Csv.ScanState) (rows : list Csv.Row),
    Csv.inQuotes (Csv.scanLine line st) = true ->
    Forall (fun l => JS.includes JS.dquote l = false) rest ->
    (exists row, recordsFrom headers line rest st = [row]) /\
    List.length (Csv.rowsFrom headers line rest st rows)
    <= S (List.length rows).
Proof.
  intros headers line rest st rows Hq Hrest.
  assert (H : exists row, recordsFrom headers line rest st = [row]).
  { destruct rest as [|nextLine rest]; cbn [recordsFrom]; [now eexists|].
    rewrite Hq. apply Forall_cons in Hrest as [Hn Hrest].
    destruct (Csv.scanLine line st) as [vals cur inq]. simpl in Hq. subst inq.
    now apply recordsFrom_open. }
  split; [exact H|]. destruct H as [row H].
  rewrite rowsFrom_records, H, List.length_app.
  pose proof (filter_length_le Csv.keepRow [row]). simpl in *. lia.
Qed.

Lemma unclosed_quote_one_record_witness :
  (exists row,
      recordsFrom ["subject"; "body"] ("Hi," ++ Inputs.dq ++ "the body")%string
        ["goes on"; "and on,1,0"] Csv.initScan = [row]) /\
  List.length
    (Csv.rowsFrom ["subject"; "body"] ("Hi," ++ Inputs.dq ++ "the body")%string
       ["goes on"; "and on,1,0"] Csv.initScan []) <= 1.
Proof.
  refine (unclosed_quote_one_record ["subject"; "body"]
            ("Hi," ++ Inputs.dq ++ "the body")%string
            ["goes on"; "and on,1,0"] Csv.initScan [] eq_refl _).
  repeat constructor.
Defined.

Lemma scanLine_quoted s rest vals :
  quoteFree s ->
  Csv.scanLine (Inputs.quoted s ++ rest)%string
               (Csv.mkScan vals EmptyString false)
  = Csv.scanLine rest (Csv.mkScan vals s false).
Proof.
  intros Hq. unfold Inputs.quoted, Inputs.dq.
  rewrite append_cons. change (EmptyString ++ ?x)%string with x.
  rewrite append_cons. cbn [Csv.scanLine]. unfold Csv.scanChar at 1.
  change (Ascii.eqb JS.dquote JS.dquote) with true.
  cbn [Csv.values Csv.current Csv.inQuotes negb].
  rewrite !scanLine_app, scanLine_quoteFree_inside by exact Hq.
  reflexivity.
Qed.

Lemma finishRecord_fields first others : forall done,
  quoteFree first -> Forall quoteFree others ->
  Csv.finishRecord
    (Csv.scanLine (encodeLine first others)
                  (Csv.mkScan done EmptyString false))
  = done ++ map JS.trim (first :: others).
Proof.
  revert first.
  induction others as [|f others IH]; intros first done Hf Ho;
    cbn [encodeLine].
  - rewrite <- (append_empty_r (Inputs.quoted first)).
    rewrite scanLine_quoted by exact Hf. cbn [Csv.scanLine].
    unfold Csv.finishRecord. cbn [Csv.values Csv.current map].
    now destruct (finishField_quoteFree first Hf) as [-> _].
  - apply Forall_cons in Ho as [Hf' Ho].
    rewrite scanLine_quoted by exact Hf. cbn [Csv.scanLine].
    unfold Csv.scanChar at 1.
    change (Ascii.eqb JS.comma JS.dquote) with false.
    change (Ascii.eqb JS.comma JS.comma) with true.
    cbn [Csv.values Csv.current Csv.inQuotes negb andb].
    rewrite IH by assumption.
    destruct (finishField_quoteFree first Hf) as [-> _].
    cbn [map]. now rewrite <- List.app_assoc.
Qed.

(** X9. Fields written in double quotes and separated by commas are read
    back one for one, each trimmed: as long as the fields hold no double
    quote, the commas inside them do not split them. *)
Theorem quoted_fields_read_back :
  forall (first : string) (others : list string),
    JS.includes JS.dquote first = false ->
    Forall (fun f => JS.includes JS.dquote f = false) others ->
    Csv.finishRecord (Csv.scanLine (encodeLine first others) Csv.initScan)
    = map JS.trim (first :: others).
Proof.
  intros first others Hf Ho.
  exact (finishRecord_fields first others [] Hf Ho).
Qed.

Lemma quoted_fields_read_back_witness :
  Csv.finishRecord
    (Csv.scanLine (encodeLine "Hello, Ann" [" a, b, c "; "1"]) Csv.initScan)
  = map JS.trim ["Hello, Ann"; " a, b, c "; "1"].
Proof.
  refine (quoted_fields_read_back "Hello, Ann" [" a, b, c "; "1"] eq_refl _).
  repeat constructor.
Defined.

(** ** The classifier: labels, letter case, signatures and tags *)

Lemma analyzeTemplate_cases emailBody :
  let text := Classifier.bodyWithoutSig emailBody in
  (Classifier.isBlank emailBody = true /\
   Classifier.analyzeTemplate emailBody = Classifier.emptyBody) \/
  (Classifier.isBlank emailBody = false /\
   Classifier.analyzeTemplate emailBody = Classifier.fallback text) \/
  (Classifier.isBlank emailBody = false /\
   exists t, In t Registry.TEMPLATES /\
             Registry.minScore t <= Classifier.scoreOf t text /\
             Classifier.analyzeTemplate emailBody
             = Classifier.resultOf t (Classifier.scoreOf t text)).
Proof.
  cbv zeta. unfold Classifier.analyzeTemplate.
  destruct (Classifier.isBlank emailBody); [now left|]. right.
  destruct (bestMatch_spec (Classifier.bodyWithoutSig emailBody)
              Registry.TEMPLATES registry_minScores)
    as [[-> _]|(t & -> & earlier & later & E & Hq & _)]; [now left|].
  right. split; [reflexivity|]. exists t. rewrite scoreOf_sum.
  repeat split; [|exact Hq].
  rewrite E. apply List.in_or_app. right. now left.
Qed.

(** X10. [analyzeTemplate] always answers with one of twelve labels (the
    eight registry names, Short & Direct, Long-Form Narrative, Standard
    Outreach, Empty/No Body) and with a non-empty description, so that the
    group description never falls back to its default text; a score of 2 or
    more is the score of a registry template. *)
Theorem classification_labels :
  forall emailBody : string,
    let result := Classifier.analyzeTemplate emailBody in
    In (Classifier.type result) labels /\
    Classifier.description result <> EmptyString /\
    Aggregator.orText (Classifier.description result) "Email template pattern"
    = Classifier.description result /\
    (2 <= Classifier.score result ->
     exists t, In t Registry.TEMPLATES /\
               Classifier.type result = Registry.name t /\
               Registry.minScore t <= Classifier.score result).
Proof.
  intros emailBody. cbv zeta.
  assert (Hd : forall s d, s <> EmptyString -> Aggregator.orText s d = s)
    by (intros [|c s] d H; [now elim H | reflexivity]).
  destruct (analyzeTemplate_cases emailBody)
    as [[_ ->]|[[_ ->]|(_ & t & Hin & Hq & ->)]].
  - repeat apply conj;
      [ unfold labels; apply List.in_or_app; right; vm_compute; tauto
      | discriminate | reflexivity
      | cbn [Classifier.score Classifier.emptyBody]; intros H; exfalso; lia ].
  - unfold Classifier.fallback. cbv zeta.
    destruct (_ <? 30)%nat; [|destruct (150 <? _)%nat];
      (repeat apply conj;
       [ unfold labels; apply List.in_or_app; right; vm_compute; tauto
       | discriminate | reflexivity
       | cbn [Classifier.score]; intros H; exfalso; lia ]).
  - cbn [Classifier.resultOf Classifier.type Classifier.description
         Classifier.score].
    assert (Hne : Registry.description t <> EmptyString).
    { unfold Registry.TEMPLATES in Hin. cbn [In] in Hin.
      repeat (destruct Hin as [<-|Hin]; [discriminate|]). contradiction. }
    repeat apply conj.
    + unfold labels. apply List.in_or_app. left. now apply List.in_map.
    + exact Hne.
    + now apply Hd.
    + intros _. exists t. now repeat split.
Qed.

Lemma isBlank_allBlank s : Classifier.isBlank s = allBlank s.
Proof.
  unfold Classifier.isBlank.
  destruct (allBlank s) eqn:E.
  - apply trim_allBlank in E. rewrite E. apply orb_true_r.
  - destruct s as [|c s]; [discriminate E|]. cbn [JS.isEmpty orb].
    destruct (JS.trim (String c s)) eqn:Et; [|reflexivity].
    apply trim_allBlank in Et. congruence.
Qed.

Lemma blank_toLowerChar c :
  JS.isWhiteSpace (JS.toLowerChar c) = JS.isWhiteSpace c.
Proof. destruct c as [[] [] [] [] [] [] [] []]; reflexivity. Qed.

Lemma allBlank_toLowerCase s : allBlank (JS.toLowerCase s) = allBlank s.
Proof.
  induction s as [|c s IH]; [reflexivity|].
  cbn [JS.toLowerCase allBlank]. now rewrite blank_toLowerChar, IH.
Qed.

(** X11. The classification does not depend on letter case: two bodies with
    the same lower-case form get the same result, type, score and
    description. *)
Theorem classification_ignores_case :
  forall body1 body2 : string,
    JS.toLowerCase body1 = JS.toLowerCase body2 ->
    Classifier.analyzeTemplate body1 = Classifier.analyzeTemplate body2.
Proof.
  intros body1 body2 H. unfold Classifier.analyzeTemplate.
  rewrite !isBlank_allBlank.
  rewrite <- (allBlank_toLowerCase body1), <- (allBlank_toLowerCase body2), H.
  unfold Classifier.bodyWithoutSig. cbv zeta. now rewrite H.
Qed.

Lemma classification_ignores_case_witness :
  Classifier.analyzeTemplate "FOLLOWING UP on my EARLIER note"
  = Classifier.analyzeTemplate "following up on my earlier note".
Proof.
  refine (classification_ignores_case "FOLLOWING UP on my EARLIER note"
            "following up on my earlier note" _).
  vm_compute. reflexivity.
Defined.

(** X12. The label Empty/No Body is given exactly to the bodies that hold
    nothing but blanks; a body with any other character, even one that is
    only mark-up, gets another label. *)
Theorem empty_label_iff_blank :
  forall emailBody : string,
    Classifier.type (Classifier.analyzeTemplate emailBody) = "Empty/No Body"
    <-> allBlank emailBody = true.
Proof.
  intros emailBody. rewrite <- isBlank_allBlank.
  destruct (analyzeTemplate_cases emailBody)
    as [[Hb ->]|[[Hb ->]|(Hb & t & Hin & _ & ->)]]; rewrite Hb.
  - now split.
  - split; [|discriminate]. unfold Classifier.fallback. cbv zeta.
    destruct (_ <? 30)%nat; [|destruct (150 <? _)%nat]; discriminate.
  - split; [|discriminate]. intros E. exfalso.
    apply (emptyBody_not_registered t Hin). symmetry. exact E.
Qed.

(** *** The signature cut *)

Lemma matchAt_extend r : plain r = true ->
  forall prev s t (k k' : Regex.cont),
    (forall p u, k p u = true -> k' p (u ++ t)%string = true) ->
    Regex.matchAt r prev s k = true ->
    Regex.matchAt r prev (s ++ t)%string k' = true.
Proof.
  induction r as [|c|cl| | |r1 IH1 r2 IH2|r1 IH1 r2 IH2|r1 IH1|cl];
    intros Hp prev s t k k' Hk; try discriminate Hp.
  - cbn [Regex.matchAt]. apply Hk.
  - cbn [Regex.matchAt]. destruct s as [|d s]; [discriminate|].
    rewrite append_cons. destruct (JS.eqCI c d); [apply Hk | discriminate].
  - cbn [plain] in Hp. apply andb_true_iff in Hp as [Hp1 Hp2].
    cbn [Regex.matchAt]. apply (IH1 Hp1). intros p u. now apply (IH2 Hp2).
  - cbn [plain] in Hp. apply andb_true_iff in Hp as [Hp1 Hp2].
    cbn [Regex.matchAt].
    destruct (Regex.matchAt r1 prev s k) eqn:E1.
    + intros _. now rewrite (IH1 Hp1 prev s t k k' Hk E1).
    + intros E2. rewrite (IH2 Hp2 prev s t k k' Hk E2).
      now destruct (Regex.matchAt r1 prev (s ++ t) k').
Qed.

Lemma beforeFirstMatch_prefix r s : forall prev,
  exists rest, s = (Classifier.beforeFirstMatch r prev s ++ rest)%string.
Proof.
  induction s as [|c s IH]; intros prev.
  - exists EmptyString. cbn [Classifier.beforeFirstMatch].
    now destruct (Regex.matchesHere r prev EmptyString).
  - cbn [Classifier.beforeFirstMatch].
    destruct (Regex.matchesHere r prev (String c s)).
    + now exists (String c s).
    + destruct (IH (Some c)) as [rest Hr]. exists rest.
      now rewrite append_cons, <- Hr.
Qed.

Lemma beforeFirstMatch_clean r :
  plain r = true ->
  (forall prev, Regex.matchesHere r prev EmptyString = false) ->
  forall s prev,
    Regex.searchFrom r prev (Classifier.beforeFirstMatch r prev s) = false.
Proof.
  intros Hp H0. induction s as [|c s IH]; intros prev.
  - cbn [Classifier.beforeFirstMatch].
    destruct (Regex.matchesHere r prev EmptyString) eqn:E;
      cbn [Regex.searchFrom]; now rewrite H0.
  - cbn [Classifier.beforeFirstMatch].
    destruct (Regex.matchesHere r prev (String c s)) eqn:E.
    + cbn [Regex.searchFrom]. now rewrite H0.
    + cbn [Regex.searchFrom]. rewrite IH.
      destruct (Regex.matchesHere r prev
                  (String c (Classifier.beforeFirstMatch r (Some c) s)))
        eqn:E'; [|reflexivity].
      destruct (beforeFirstMatch_prefix r s (Some c)) as [rest Hr].
      unfold Regex.matchesHere in *.
      apply (matchAt_extend r Hp prev _ rest _ (fun _ _ => true)) in E';
        [|reflexivity].
      rewrite append_cons, <- Hr in E'. congruence.
Qed.

Lemma beforeFirstMatch_cut r s : forall prev,
  cutAtFirst r prev s (Classifier.beforeFirstMatch r prev s).
Proof.
  induction s as [|c s IH]; intros prev.
  - exists EmptyString. cbn [Classifier.beforeFirstMatch].
    replace (if Regex.matchesHere r prev EmptyString
             then EmptyString else EmptyString) with EmptyString
      by now destruct (Regex.matchesHere r prev EmptyString).
    repeat split; [now left|].
    intros [|d pre] post E Hne; [now elim Hne | discriminate E].
  - cbn [Classifier.beforeFirstMatch].
    destruct (Regex.matchesHere r prev (String c s)) eqn:Em.
    + exists (String c s). repeat split; [now right|].
      intros [|d pre] post E Hne; [now elim Hne | discriminate E].
    + destruct (IH (Some c)) as (cut & Es & Hcut & Hpre). exists cut.
      repeat split.
      * now rewrite append_cons, <- Es.
      * exact Hcut.
      * intros [|d pre] post E Hne.
        -- cbn [lastOf]. change (EmptyString ++ post)%string with post in E.
           now rewrite <- E, append_cons, <- Es.
        -- rewrite append_cons in E. injection E as <- E.
           cbn [lastOf]. now apply Hpre.
Qed.

Lemma beforeFirstMatch_none r s : forall prev,
  Regex.searchFrom r prev s = false ->
  Classifier.beforeFirstMatch r prev s = s.
Proof.
  induction s as [|c s IH]; intros prev; cbn [Regex.searchFrom
                                               Classifier.beforeFirstMatch].
  - now destruct (Regex.matchesHere r prev EmptyString).
  - destruct (Regex.matchesHere r prev (String c s)); [discriminate|].
    intros H. now rewrite IH.
Qed.

(** X13. The text that is scored is the cleaned body up to its first
    signature marker (two hyphens, sincerely, best regards, regards, thanks,
    thank you, cheers, in any letter case): the cleaned body is the scored
    text followed by a rest that starts with a marker or is empty, no marker
    starts at an earlier position of the cleaned body, the scored text
    itself contains no marker, and a cleaned body without a marker is scored
    as a whole. *)
Theorem scored_text_has_no_signature :
  forall emailBody : string,
    Regex.test Classifier.signature (Classifier.bodyWithoutSig emailBody)
    = false /\
    cutAtFirst Classifier.signature None (cleanBody emailBody)
               (Classifier.bodyWithoutSig emailBody) /\
    (Regex.test Classifier.signature (cleanBody emailBody) = false ->
     Classifier.bodyWithoutSig emailBody = cleanBody emailBody).
Proof.
  intros emailBody.
  unfold Classifier.bodyWithoutSig, Regex.test, cleanBody. cbv zeta.
  repeat apply conj.
  - apply beforeFirstMatch_clean; [reflexivity|]. intros prev. reflexivity.
  - apply beforeFirstMatch_cut.
  - apply beforeFirstMatch_none.
Qed.

(** The cut on a body with a closing formula: the scored text ends before
    the words best regards. *)
Example signature_cut_example :
  Classifier.bodyWithoutSig "Can we talk on Monday? Best regards, Ann"
  = "can we talk on monday? " /\
  cleanBody "Can we talk on Monday? Best regards, Ann"
  = "can we talk on monday? best regards, ann".
Proof. split; vm_compute; reflexivity. Qed.

(** *** Mark-up *)

Lemma includes_cons c d s :
  JS.includes c (String d s)
  = if Ascii.eqb c d then true else JS.includes c s.
Proof. reflexivity. Qed.

Lemma stripTags_outside a b :
  JS.includes Classifier.lt a = false ->
  Classifier.stripTagsFrom false (a ++ b)%string
  = (a ++ Classifier.stripTagsFrom false b)%string.
Proof.
  induction a as [|c a IH]; [reflexivity|]. rewrite includes_cons.
  rewrite !append_cons. cbn [Classifier.stripTagsFrom].
  rewrite (Ascii.eqb_sym c). destruct (Ascii.eqb Classifier.lt c);
    [discriminate|]. intros H. now rewrite IH.
Qed.

Lemma includes_app c a b :
  JS.includes c (a ++ b)%string = JS.includes c a || JS.includes c b.
Proof.
  induction a as [|d a IH]; [reflexivity|].
  rewrite append_cons, !includes_cons, IH.
  now destruct (Ascii.eqb c d).
Qed.

Lemma stripTags_inside tag b :
  JS.includes Classifier.gt tag = false ->
  Classifier.stripTagsFrom true (tag ++ String Classifier.gt b)%string
  = Classifier.stripTagsFrom false b.
Proof.
  induction tag as [|c tag IH].
  - intros _. cbn [String.append Classifier.stripTagsFrom].
    change (Ascii.eqb Classifier.gt Classifier.gt) with true. reflexivity.
  - rewrite includes_cons, append_cons. cbn [Classifier.stripTagsFrom].
    rewrite (Ascii.eqb_sym c). destruct (Ascii.eqb Classifier.gt c);
      [discriminate|]. exact IH.
Qed.

Lemma toLowerCase_app a b :
  JS.toLowerCase (a ++ b)%string
  = (JS.toLowerCase a ++ JS.toLowerCase b)%string.
Proof.
  induction a as [|c a IH]; [reflexivity|].
  rewrite append_cons. cbn [JS.toLowerCase]. now rewrite IH, append_cons.
Qed.

Lemma bracket_toLowerChar c :
  Ascii.eqb Classifier.lt (JS.toLowerChar c) = Ascii.eqb Classifier.lt c /\
  Ascii.eqb Classifier.gt (JS.toLowerChar c) = Ascii.eqb Classifier.gt c.
Proof. destruct c as [[] [] [] [] [] [] [] []]; split; reflexivity. Qed.

Lemma includes_toLowerCase s :
  JS.includes Classifier.lt (JS.toLowerCase s) = JS.includes Classifier.lt s /\
  JS.includes Classifier.gt (JS.toLowerCase s) = JS.includes Classifier.gt s.
Proof.
  induction s as [|c s [IH1 IH2]]; [now split|]. cbn [JS.toLowerCase].
  rewrite !includes_cons, IH1, IH2.
  destruct (bracket_toLowerChar c) as [-> ->]. now split.
Qed.

Lemma allBlank_app a b :
  allBlank (a ++ b)%string = allBlank a && allBlank b.
Proof.
  induction a as [|c a IH]; [reflexivity|]. rewrite append_cons.
  cbn [allBlank]. now destruct (JS.isWhiteSpace c).
Qed.

(** X14. Mark-up is not scored: a tag, from an opening angle bracket to the
    next closing one, is removed before the text is scored, so a body with a
    tag in it is scored, and when it has other text classified, as the body
    without the tag. *)
Theorem tags_are_not_scored :
  forall before tag after : string,
    JS.includes Classifier.lt before = false ->
    JS.includes Classifier.gt tag = false ->
    let tagged :=
      (before ++ String Classifier.lt (tag ++ String Classifier.gt after))
      %string in
    Classifier.bodyWithoutSig tagged
    = Classifier.bodyWithoutSig (before ++ after)%string /\
    (allBlank (before ++ after)%string = false ->
     Classifier.analyzeTemplate tagged
     = Classifier.analyzeTemplate (before ++ after)%string).
Proof.
  intros before tag after Hb Ht. cbv zeta.
  assert (E : Classifier.bodyWithoutSig
                (before ++ String Classifier.lt
                             (tag ++ String Classifier.gt after))%string
              = Classifier.bodyWithoutSig (before ++ after)%string).
  { unfold Classifier.bodyWithoutSig, Classifier.stripTags. cbv zeta.
    do 2 f_equal. f_equal. rewrite !toLowerCase_app.
    destruct (includes_toLowerCase before) as [Hb' _].
    rewrite !stripTags_outside by now rewrite Hb'. f_equal.
    cbn [JS.toLowerCase]. change (JS.toLowerChar Classifier.lt)
      with Classifier.lt.
    rewrite toLowerCase_app. cbn [JS.toLowerCase].
    change (JS.toLowerChar Classifier.gt) with Classifier.gt.
    cbn [Classifier.stripTagsFrom].
    change (Ascii.eqb Classifier.lt Classifier.lt) with true.
    rewrite includes_app, includes_cons.
    change (Ascii.eqb Classifier.gt Classifier.gt) with true.
    rewrite orb_true_r. apply stripTags_inside.
    destruct (includes_toLowerCase tag) as [_ ->]. exact Ht. }
  split; [exact E|]. intros Hn. unfold Classifier.analyzeTemplate.
  rewrite E, !isBlank_allBlank, Hn, allBlank_app. cbn [allBlank].
  change (JS.isWhiteSpace Classifier.lt) with false.
  now rewrite andb_false_r.
Qed.

Lemma tags_are_not_scored_witness :
  Classifier.bodyWithoutSig
    ("Hi " ++ String Classifier.lt
       ("b" ++ String Classifier.gt "Ann, following up on my note"))%string
  = Classifier.bodyWithoutSig ("Hi " ++ "Ann, following up on my note")%string.
Proof.
  exact (proj1 (tags_are_not_scored "Hi " "b" "Ann, following up on my note"
                  eq_refl eq_refl)).
Defined.

(** ** The aggregator: order, rates and contents of the groups *)

Lemma insertByCount_In g h gs :
  In h (Aggregator.insertByCount g gs) <-> h = g \/ In h gs.
Proof.
  induction gs as [|x gs IH]; simpl; [intuition|].
  destruct (Group.count g <? Group.count x)%nat; simpl; [|intuition].
  rewrite IH. intuition.
Qed.

Lemma insertByCount_sorted g gs :
  StronglySorted (fun a b => Group.count b <= Group.count a) gs ->
  StronglySorted (fun a b => Group.count b <= Group.count a)
                 (Aggregator.insertByCount g gs).
Proof.
  induction 1 as [|x gs Hs IH Hx]; simpl; [repeat constructor|].
  destruct (Nat.ltb_spec (Group.count g) (Group.count x)) as [Hlt|Hge].
  - constructor; [exact IH|]. apply List.Forall_forall. intros h Hh.
    apply insertByCount_In in Hh as [->|Hh]; [lia|].
    rewrite List.Forall_forall in Hx. now apply Hx.
  - constructor; [now constructor|]. constructor; [exact Hge|].
    rewrite List.Forall_forall in Hx |- *. intros h Hh.
    specialize (Hx h Hh). lia.
Qed.

Lemma sortByCount_sorted gs :
  StronglySorted (fun a b => Group.count b <= Group.count a)
                 (Aggregator.sortByCount gs).
Proof.
  induction gs as [|g gs IH]; simpl; [constructor|].
  now apply insertByCount_sorted.
Qed.

Lemma insertByCount_stable c g gs :
  List.filter (fun h => Group.count h =? c)%nat
              (Aggregator.insertByCount g gs)
  = List.filter (fun h => Group.count h =? c)%nat (g :: gs).
Proof.
  induction gs as [|x gs IH]; [reflexivity|]. cbn [Aggregator.insertByCount].
  destruct (Nat.ltb_spec (Group.count g) (Group.count x)) as [Hlt|Hge];
    [|reflexivity].
  cbn [List.filter] in *. rewrite IH.
  destruct (Nat.eqb_spec (Group.count x) c), (Nat.eqb_spec (Group.count g) c);
    try reflexivity. lia.
Qed.

Lemma sortByCount_stable c gs :
  List.filter (fun h => Group.count h =? c)%nat (Aggregator.sortByCount gs)
  = List.filter (fun h => Group.count h =? c)%nat gs.
Proof.
  induction gs as [|g gs IH]; [reflexivity|]. cbn [Aggregator.sortByCount foldr].
  rewrite insertByCount_stable. cbn [List.filter].
  fold (Aggregator.sortByCount gs). now rewrite IH.
Qed.

(** X15. The groups of the report are in descending order of count, groups
    of equal count in the order in which they were created, so the first
    group, which the page names the top performing template, is a group of
    the largest count, whatever its rates are. *)
Theorem groups_sorted_by_count :
  forall emails : list Csv.Row,
    let groups := Report.templateGroups (Aggregator.analyzeEmails emails) in
    StronglySorted (fun a b => Group.count b <= Group.count a) groups /\
    (forall c,
        List.filter (fun g => Group.count g =? c)%nat groups
        = List.filter (fun g => Group.count g =? c)%nat
                      (createdGroups Aggregator.sourceAliases emails)) /\
    (forall top others g,
        groups = top :: others -> In g groups ->
        Group.count g <= Group.count top).
Proof.
  intros emails. cbv zeta. unfold Aggregator.analyzeEmails.
  rewrite report_groups. fold (createdGroups Aggregator.sourceAliases emails).
  pose proof (sortByCount_sorted
                (createdGroups Aggregator.sourceAliases emails)) as Hs.
  repeat apply conj.
  - exact Hs.
  - intros c. apply sortByCount_stable.
  - intros top others g E Hin. rewrite E in Hs, Hin.
    apply StronglySorted_inv in Hs as [_ Hall].
    destruct Hin as [<-|Hin]; [lia|].
    rewrite List.Forall_forall in Hall. now apply Hall.
Qed.

(** *** What a group holds *)

Lemma adjustGroup_Forall (P Q : string * Group.t -> Prop) key f gs :
  List.NoDup (map fst gs) ->
  Forall P gs ->
  (forall g, P (key, g) -> Q (key, f g)) ->
  (forall kg, fst kg <> key -> P kg -> Q kg) ->
  Forall Q (Aggregator.adjustGroup key f gs).
Proof.
  intros Hnd HP Hhit Hmiss.
  induction gs as [|[k g] gs IH]; simpl; [constructor|].
  apply List.NoDup_cons_iff in Hnd as [Hk Hnd].
  apply Forall_cons in HP as [Hg HP].
  destruct (String.eqb_spec k key) as [->|Hne].
  - constructor; [now apply Hhit|].
    rewrite Forall_forall in HP |- *. intros [k' g'] Hin.
    apply Hmiss; [|now apply HP]. cbn [fst]. intros ->.
    apply Hk. eapply in_keys, Hin.
  - constructor; [now apply Hmiss | now apply IH].
Qed.

Section Contents.

Variable al : Aggregator.Aliases.

Lemma rowsOf_snoc k emails email :
  rowsOf al k (emails ++ [email])
  = rowsOf al k emails
    ++ (if String.eqb (typeOf al email) k then [email] else []).
Proof.
  unfold rowsOf. rewrite List.filter_app. simpl.
  now destruct (String.eqb (typeOf al email) k).
Qed.

Lemma rowsOf_absent k emails :
  Forall (fun e => typeOf al e <> k) emails -> rowsOf al k emails = [].
Proof.
  unfold rowsOf. induction 1 as [|e emails He _ IH]; simpl; [reflexivity|].
  destruct (String.eqb_spec (typeOf al e) k); [contradiction | exact IH].
Qed.

Lemma bodyLengths_snoc rows e :
  bodyLengths al (rows ++ [e])
  = bodyLengths al rows + String.length (bodyOf al e).
Proof. unfold bodyLengths. rewrite sum_list_with_app. simpl. lia. Qed.

Lemma groupData_updated rows email g :
  groupData al rows g ->
  groupData al (rows ++ [email]) (updateOf al email g).
Proof.
  intros (Hc & He & Ho & Hk & Hr & Hl).
  unfold groupData, updateOf, Aggregator.addEmail. cbv zeta.
  cbn [Group.count Group.emails Group.opens Group.clicks Group.replies
       Group.totalLength].
  rewrite List.length_app, List.map_app, !countWhere_snoc, bodyLengths_snoc,
    !bump_flag.
  unfold flag. cbn [List.length map].
  rewrite Hc, He, Ho, Hk, Hr, Hl. repeat split; lia.
Qed.

Lemma groupContents_updated emails email g :
  Group.name g = typeOf al email ->
  groupData al (rowsOf al (Group.name g) emails) g ->
  groupContents al (emails ++ [email]) (updateOf al email g).
Proof.
  intros Hn Hd. split; [|reflexivity].
  change (Group.name (updateOf al email g)) with (Group.name g).
  rewrite rowsOf_snoc, Hn, String.eqb_refl, <- Hn.
  now apply groupData_updated.
Qed.

Lemma groupContents_other emails email g :
  Group.name g <> typeOf al email ->
  groupContents al emails g ->
  groupContents al (emails ++ [email]) g.
Proof.
  intros Hne [Hd Ha]. split; [|exact Ha]. rewrite rowsOf_snoc.
  destruct (String.eqb_spec (typeOf al email) (Group.name g)) as [E|_];
    [congruence|]. now rewrite List.app_nil_r.
Qed.

Lemma pass_contents emails :
  Forall (fun kg => Group.name (snd kg) = fst kg /\
                    groupContents al emails (snd kg))
         (fst (pass al emails)).
Proof.
  induction emails as [|email emails IH] using rev_ind; [constructor|].
  destruct (pass_groupsOk al emails) as (Hnd & _ & Hall).
  rewrite pass_snoc, processEmail_eq. simpl fst.
  set (gs := fst (pass al emails)) in *.
  destruct (Aggregator.lookupGroup (typeOf al email) gs) eqn:E.
  - eapply adjustGroup_Forall; [exact Hnd | exact IH | |].
    + intros g' [Hn Hc]. cbn [fst snd] in *. split; [exact Hn|].
      apply groupContents_updated; [exact Hn | apply Hc].
    + intros [k g'] Hne [Hn Hc]. cbn [fst snd] in *. split; [exact Hn|].
      apply groupContents_other; [congruence | exact Hc].
  - pose proof E as Habs. apply lookupGroup_None in Habs.
    rewrite adjustGroup_new by exact E. apply Forall_app. split.
    + rewrite Forall_forall in IH |- *. intros [k g'] Hin.
      destruct (IH _ Hin) as [Hn Hc]. cbn [fst snd] in *.
      split; [exact Hn|]. apply groupContents_other; [|exact Hc].
      rewrite Hn. intros ->. apply Habs. eapply in_keys, Hin.
    + constructor; [|constructor]. cbn [fst snd]. split; [reflexivity|].
      apply groupContents_updated; [reflexivity|].
      cbn [Aggregator.newGroup Group.name].
      fold (typeOf al email). rewrite rowsOf_absent.
      * repeat split.
      * eapply Forall_impl; [exact Hall|]. intros e He E'. simpl in He.
        apply Habs. now rewrite <- E'.
Qed.

(** A property of the groups of the pass, once they have their rates, holds
    of the groups of the report. *)
Lemma report_Forall (P : Group.t -> Prop) emails :
  Forall (fun kg => P (Aggregator.withRates (snd kg))) (fst (pass al emails)) ->
  Forall P (Report.templateGroups (Aggregator.analyzeEmailsWith al emails)).
Proof.
  intros H. rewrite report_groups, sortByCount_perm.
  now apply List.Forall_map.
Qed.

Lemma countWhere_le p rows :
  Aggregator.countWhere al p rows <= List.length rows.
Proof. apply filter_length_le. Qed.

End Contents.

(** X16. Each group of the report holds exactly the rows classified under
    its name: one detail per such row, in input order; its opens, clicks and
    replies are the numbers of those rows whose flag is set, so none exceeds
    its count; its total length is the sum of their body lengths and its
    average the rounded quotient of total length by count. *)
Theorem group_holds_its_rows :
  forall emails : list Csv.Row,
    Forall (fun g =>
              groupContents Aggregator.sourceAliases emails g /\
              Group.opens g <= Group.count g /\
              Group.clicks g <= Group.count g /\
              Group.replies g <= Group.count g)
           (Report.templateGroups (Aggregator.analyzeEmails emails)).
Proof.
  intros emails. apply report_Forall.
  eapply Forall_impl; [apply pass_contents|].
  intros [k g] [_ [Hd Ha]]. cbn [snd] in *.
  split; [split; [exact Hd | exact Ha]|].
  destruct Hd as (Hc & _ & Ho & Hk & Hr & _).
  cbn [Aggregator.withRates Group.opens Group.clicks Group.replies
       Group.count].
  rewrite Hc, Ho, Hk, Hr. repeat split; apply countWhere_le.
Qed.

(** X17. The rates of every group of the report are texts, the percentages
    of its opens, clicks and replies in its count with one decimal: a group
    is created only for a row that it then counts, so the branch that would
    give the number 0 for an empty group is never taken. *)
Theorem group_rates_are_texts :
  forall emails : list Csv.Row,
    Forall (fun g => 0 < Group.count g /\ ratesAreTexts g)
           (Report.templateGroups (Aggregator.analyzeEmails emails)).
Proof.
  intros emails. apply report_Forall.
  destruct (pass_groupsOk Aggregator.sourceAliases emails) as (_ & Hok & _).
  eapply Forall_impl; [exact Hok|].
  intros [k g] (_ & _ & Hp). cbn [snd] in *.
  split; [exact Hp|].
  unfold ratesAreTexts, Aggregator.withRates, Aggregator.rateOf.
  cbn [Group.openRate Group.clickRate Group.replyRate Group.opens
       Group.clicks Group.replies Group.count].
  apply Nat.ltb_lt in Hp. rewrite Hp. now repeat split.
Qed.

(** X18. A report without groups is the report of no rows: every counter
    is 0, the four buckets are empty and the three overall rates are the
    text NaN, the quotient 0 / 0 having no value. *)
Theorem no_groups_empty_report :
  forall emails : list Csv.Row,
    Report.templateGroups (Aggregator.analyzeEmails emails) = [] ->
    emails = [] /\ Aggregator.analyzeEmails emails = emptyReport.
Proof.
  intros emails H.
  assert (E : emails = []).
  { destruct (pass_sums Aggregator.sourceAliases emails) as (Hc & _).
    cbv zeta in Hc.
    rewrite <- (sum_withRates Group.count) in Hc by reflexivity.
    unfold Aggregator.analyzeEmails in H. rewrite report_groups in H.
    rewrite H in Hc. destruct emails; [reflexivity | discriminate Hc]. }
  split; [exact E|]. rewrite E. vm_compute. reflexivity.
Qed.

Lemma no_groups_empty_report_witness :
  Aggregator.analyzeEmails [] = emptyReport.
Proof. exact (proj2 (no_groups_empty_report [] eq_refl)). Defined.

(** *** Opens in the subject buckets *)

Lemma addSubject_opens subject m sa :
  let sa' := Aggregator.addSubject subject m sa in
  let d := if Extract.opened m then 1 else 0 in
  questionOpens sa' = questionOpens sa + d /\
  lengthOpens sa' = lengthOpens sa + d /\
  (bucketsBounded sa -> bucketsBounded sa').
Proof.
  destruct sa as [[] [] [] []].
  unfold Aggregator.addSubject, questionOpens, lengthOpens, bucketsBounded,
    Aggregator.addTo, Aggregator.bump.
  destruct (Extract.hasQuestion subject),
    (Extract.length subject <? 40)%nat, (Extract.opened m); simpl;
    repeat split; lia.
Qed.

Lemma pass_bucket_opens al emails :
  questionOpens (snd (pass al emails))
  = Aggregator.countWhere al Extract.opened emails /\
  lengthOpens (snd (pass al emails))
  = Aggregator.countWhere al Extract.opened emails /\
  bucketsBounded (snd (pass al emails)).
Proof.
  induction emails as [|email emails (IHq & IHl & IHb)] using rev_ind.
  - repeat split; simpl; lia.
  - rewrite pass_snoc, processEmail_eq, countWhere_snoc. simpl snd.
    set (subject := Extract.analyzeSubject _).
    pose proof (addSubject_opens subject (Aggregator.metricsOf al email)
                  (snd (pass al emails))) as (Hq & Hl & Hb).
    cbv zeta in Hq, Hl. unfold flag. rewrite Hq, Hl, IHq, IHl.
    split; [reflexivity|]. split; [reflexivity|]. now apply Hb.
Qed.

(** X19. The opens of the subject buckets: withQuestion and withoutQuestion
    together, and shortSubject and longSubject together, have as many opens
    as overall.totalOpens, the number of opened rows, and no bucket has more
    opens than rows. *)
Theorem bucket_opens_add_up :
  forall emails : list Csv.Row,
    let report := Aggregator.analyzeEmails emails in
    let buckets := Report.subjectAnalysis report in
    questionOpens buckets = Overall.totalOpens (Report.overall report) /\
    lengthOpens buckets = Overall.totalOpens (Report.overall report) /\
    bucketsBounded buckets.
Proof.
  intros emails. cbv zeta. unfold Aggregator.analyzeEmails.
  rewrite report_subjects, report_overall.
  exact (pass_bucket_opens Aggregator.sourceAliases emails).
Qed.

(** ** The chart data and the exported report *)

Lemma type_in_labels body :
  In (Classifier.type (Classifier.analyzeTemplate body)) labels.
Proof.
  destruct (analyzeTemplate_cases body)
    as [[_ ->]|[[_ ->]|(_ & t & Hin & _ & ->)]].
  - unfold labels. apply List.in_or_app. right. vm_compute. tauto.
  - unfold Classifier.fallback. cbv zeta.
    destruct (_ <? 30)%nat; [|destruct (150 <? _)%nat];
      unfold labels; apply List.in_or_app; right; vm_compute; tauto.
  - unfold labels. apply List.in_or_app. left.
    cbn [Classifier.resultOf Classifier.type]. now apply List.in_map.
Qed.

Lemma tally_pos al k emails :
  0 < tally al k emails -> exists e, In e emails /\ typeOf al e = k.
Proof.
  unfold tally. induction emails as [|e emails IH]; simpl; [lia|].
  destruct (String.eqb_spec (typeOf al e) k) as [E|_].
  - intros _. exists e. split; [now left | exact E].
  - intros H. destruct (IH H) as (e' & Hin & E). exists e'.
    split; [now right | exact E].
Qed.

Lemma report_labels al emails :
  Forall (fun g => In (Group.name g) labels)
         (Report.templateGroups (Aggregator.analyzeEmailsWith al emails)).
Proof.
  apply report_Forall.
  destruct (pass_groupsOk al emails) as (_ & Hok & _).
  eapply Forall_impl; [exact Hok|].
  intros [k g] (Hn & Hc & Hp). cbn [fst snd] in *.
  change (Group.name (Aggregator.withRates g)) with (Group.name g).
  rewrite Hc in Hp. apply tally_pos in Hp as (e & _ & E).
  rewrite Hn, <- E. apply type_in_labels.
Qed.

Lemma report_names_distinct al emails :
  List.NoDup
    (map Group.name
         (Report.templateGroups (Aggregator.analyzeEmailsWith al emails))).
Proof.
  destruct (pass_groupsOk al emails) as (Hnd & _ & _).
  now rewrite (report_names al emails).
Qed.

Lemma report_count_sum al emails :
  sum_list_with Group.count
    (Report.templateGroups (Aggregator.analyzeEmailsWith al emails))
  = List.length emails.
Proof.
  destruct (pass_sums al emails) as (Hc & _).
  rewrite report_groups, (sum_withRates Group.count) by reflexivity.
  exact Hc.
Qed.

Lemma substring0_length n s : String.length (Ui.substring0 n s) <= n.
Proof.
  revert s. induction n as [|n IH]; intros [|c s]; simpl; try lia.
  specialize (IH s). lia.
Qed.

Lemma string_length_app (a b : string) :
  String.length (a ++ b)%string = String.length a + String.length b.
Proof.
  induction a as [|c a IH]; [reflexivity|].
  rewrite append_cons. simpl. now rewrite IH.
Qed.

Lemma chartName_length name : String.length (Ui.chartName name) <= 23.
Proof.
  unfold Ui.chartName.
  destruct (Nat.ltb_spec 20 (String.length name)) as [_|H]; [|lia].
  rewrite string_length_app. pose proof (substring0_length 20 name).
  change (String.length "...") with 3. lia.
Qed.

Lemma chartName_distinct x y :
  In x labels -> In y labels -> Ui.chartName x = Ui.chartName y -> x = y.
Proof.
  assert (H : forallb
                (fun a =>
                   forallb
                     (fun b =>
                        if String.eqb (Ui.chartName a) (Ui.chartName b)
                        then String.eqb a b else true)
                     labels)
                labels = true) by (vm_compute; reflexivity).
  intros Hx Hy E. rewrite List.forallb_forall in H.
  specialize (H x Hx). rewrite List.forallb_forall in H.
  specialize (H y Hy). rewrite E, String.eqb_refl in H.
  now apply String.eqb_eq.
Qed.

Lemma NoDup_map_on {A B : Type} (f : A -> B) (l : list A) :
  (forall x y, In x l -> In y l -> f x = f y -> x = y) ->
  List.NoDup l -> List.NoDup (map f l).
Proof.
  intros Hinj. induction 1 as [|x l Hx Hnd IH]; simpl; constructor.
  - intros Hin. apply List.in_map_iff in Hin as (y & E & Hy).
    apply Hx. rewrite <- (Hinj y x); [exact Hy | now right | now left | exact E].
  - apply IH. intros a b Ha Hb. apply Hinj; now right.
Qed.

(** X20. The slices of the pie chart of a report: shortening a name to 20
    characters and an ellipsis never makes two groups share a slice name, a
    slice name has at most 23 characters, every slice has a positive value,
    and the values add up to the number of rows. *)
Theorem pie_slices :
  forall emails : list Csv.Row,
    let slices := Ui.volumeData (Some (Aggregator.analyzeEmails emails)) in
    List.NoDup (map Ui.Slice.name slices) /\
    Forall (fun s => String.length (Ui.Slice.name s) <= 23 /\
                     0 < Ui.Slice.value s) slices /\
    sum_list_with Ui.Slice.value slices = List.length emails.
Proof.
  intros emails. cbv zeta. unfold Ui.volumeData, Aggregator.analyzeEmails.
  set (groups := Report.templateGroups _).
  pose proof (report_labels Aggregator.sourceAliases emails) as Hl.
  pose proof (report_names_distinct Aggregator.sourceAliases emails) as Hnd.
  pose proof (report_counts Aggregator.sourceAliases emails) as Hc.
  pose proof (report_count_sum Aggregator.sourceAliases emails) as Hs.
  fold groups in Hl, Hnd, Hc, Hs. clearbody groups.
  repeat apply conj.
  - rewrite List.map_map. cbn [Ui.Slice.name].
    rewrite <- (List.map_map Group.name Ui.chartName).
    apply NoDup_map_on; [|exact Hnd].
    intros x y Hx Hy. rewrite List.Forall_forall in Hl.
    apply List.in_map_iff in Hx as (g & <- & Hg).
    apply List.in_map_iff in Hy as (h & <- & Hh).
    apply chartName_distinct; now apply Hl.
  - apply List.Forall_map. eapply Forall_impl; [exact Hc|].
    intros g [_ Hp]. cbn [Ui.Slice.name Ui.Slice.value].
    split; [apply chartName_length | exact Hp].
  - rewrite <- Hs. clear. induction groups as [|g groups IH]; simpl;
      [reflexivity | now rewrite IH].
Qed.

(** X21. The exported report of an analysis: without an analysis nothing is
    exported; otherwise the export bears the given time stamp, lists one
    template per group in the order of the report under pairwise distinct
    names, the counts of the templates add up to overall.totalEmails, and
    the three rates of every template are texts. *)
Theorem exported_report_consistent :
  forall (now : string) (emails : list Csv.Row),
    Ui.exportReport now None = None /\
    exists e,
      Ui.exportReport now (Some (Aggregator.analyzeEmails emails)) = Some e /\
      Ui.Exported.generatedAt e = now /\
      map Ui.Template.name (Ui.Exported.templates e)
      = map Group.name
            (Report.templateGroups (Aggregator.analyzeEmails emails)) /\
      List.NoDup (map Ui.Template.name (Ui.Exported.templates e)) /\
      sum_list_with Ui.Template.count (Ui.Exported.templates e)
      = Overall.totalEmails (Ui.Exported.overall e) /\
      Forall (fun t => exists o c r,
                  Ui.Template.openRate t = Some (RateText o) /\
                  Ui.Template.clickRate t = Some (RateText c) /\
                  Ui.Template.replyRate t = Some (RateText r))
             (Ui.Exported.templates e).
Proof.
  intros now emails. split; [reflexivity|]. eexists. split; [reflexivity|].
  cbn [Ui.Exported.generatedAt Ui.Exported.templates Ui.Exported.overall].
  unfold Aggregator.analyzeEmails.
  pose proof (report_names_distinct Aggregator.sourceAliases emails) as Hnd.
  pose proof (report_count_sum Aggregator.sourceAliases emails) as Hs.
  assert (Hr : Forall ratesAreTexts
                 (Report.templateGroups
                    (Aggregator.analyzeEmailsWith Aggregator.sourceAliases
                       emails))).
  { apply report_Forall.
    destruct (pass_groupsOk Aggregator.sourceAliases emails) as (_ & Hok & _).
    eapply Forall_impl; [exact Hok|]. intros [k g] (_ & _ & Hp).
    cbn [snd] in *. unfold ratesAreTexts, Aggregator.withRates,
      Aggregator.rateOf.
    cbn [Group.openRate Group.clickRate Group.replyRate Group.opens
         Group.clicks Group.replies Group.count].
    apply Nat.ltb_lt in Hp. rewrite Hp. now repeat split. }
  rewrite report_overall. cbn [Aggregator.overallOf Overall.totalEmails].
  set (groups := Report.templateGroups _) in *. clearbody groups.
  assert (En : map Ui.Template.name
                 (map (fun g => Ui.Template.mk (Group.name g) (Group.count g)
                                  (Group.openRate g) (Group.clickRate g)
                                  (Group.replyRate g) (Group.avgLength g))
                      groups)
               = map Group.name groups)
    by (rewrite List.map_map; reflexivity).
  repeat apply conj.
  - reflexivity.
  - exact En.
  - rewrite En. exact Hnd.
  - rewrite <- Hs. clear. induction groups as [|g groups IH]; simpl;
      [reflexivity | now rewrite IH].
  - apply List.Forall_map. eapply Forall_impl; [exact Hr|].
    intros g (Ho & Hc & Hp). cbn [Ui.Template.openRate Ui.Template.clickRate
                                  Ui.Template.replyRate].
    rewrite Ho, Hc, Hp. do 3 eexists. repeat split; reflexivity.
Qed.

(** ** Blanks at the end of a line *)

Lemma blank_not_separator c :
  JS.isWhiteSpace c = true ->
  Ascii.eqb c JS.dquote = false /\ Ascii.eqb c JS.comma = false /\
  Ascii.eqb JS.comma c = false.
Proof.
  destruct c as [[] [] [] [] [] [] [] []]; vm_compute;
    first [discriminate | now repeat split].
Qed.

Lemma scanLine_blank ws : forall st,
  allBlank ws = true ->
  Csv.scanLine ws st
  = Csv.mkScan (Csv.values st) (Csv.current st ++ ws)%string
               (Csv.inQuotes st).
Proof.
  induction ws as [|c ws IH]; intros st H.
  - rewrite append_empty_r. now destruct st.
  - cbn [allBlank] in H. destruct (JS.isWhiteSpace c) eqn:Ec; [|discriminate].
    destruct (blank_not_separator c Ec) as (Hq & Hc & _).
    cbn [Csv.scanLine]. rewrite IH by exact H. unfold Csv.scanChar.
    rewrite Hq, Hc. cbn [andb Csv.values Csv.current Csv.inQuotes].
    now rewrite append_assoc.
Qed.

Lemma trimEnd_blank ws : allBlank ws = true -> JS.trimEnd ws = EmptyString.
Proof.
  induction ws as [|c ws IH]; [reflexivity|]. cbn [allBlank].
  destruct (JS.isWhiteSpace c) eqn:Ec; [|discriminate]. intros H.
  now rewrite trimEnd_cons, Ec, (IH H).
Qed.

Lemma trimEnd_app_blank s ws :
  allBlank ws = true -> JS.trimEnd (s ++ ws)%string = JS.trimEnd s.
Proof.
  intros H. induction s as [|c s IH]; [now apply trimEnd_blank|].
  now rewrite append_cons, !trimEnd_cons, IH.
Qed.

Lemma trimStart_app s ws :
  allBlank s = false ->
  JS.trimStart (s ++ ws)%string = (JS.trimStart s ++ ws)%string.
Proof.
  induction s as [|c s IH]; [discriminate|]. rewrite append_cons.
  cbn [allBlank JS.trimStart].
  destruct (JS.isWhiteSpace c); [exact IH | reflexivity].
Qed.

Lemma trim_app_blank s ws :
  allBlank ws = true -> JS.trim (s ++ ws)%string = JS.trim s.
Proof.
  intros H. destruct (allBlank s) eqn:Es.
  - assert (E : JS.trim s = EmptyString) by now apply trim_allBlank.
    rewrite E. apply trim_allBlank. now rewrite allBlank_app, Es, H.
  - unfold JS.trim. rewrite trimStart_app by exact Es.
    now apply trimEnd_app_blank.
Qed.

Lemma split_app_last sep s w :
  JS.includes sep w = false ->
  exists init last,
    JS.split sep s = init ++ [last] /\
    JS.split sep (s ++ w)%string = init ++ [(last ++ w)%string].
Proof.
  intros H. induction s as [|c s (init & last & E1 & E2)].
  - exists [], EmptyString. split; [reflexivity|].
    now apply split_without_separator.
  - rewrite append_cons. cbn [JS.split]. rewrite E1, E2.
    destruct (Ascii.eqb c sep).
    + exists (EmptyString :: init), last. now split.
    + destruct init as [|h t].
      * exists [], (String c last). now split.
      * exists (String c h :: t), last. now split.
Qed.

(** X22. Blanks at the end of a line, the carriage return of a Windows line
    ending among them, change nothing: the header names read from the line
    are the same, and so are the fields of a record that ends with the
    line, the row pushed for it and the quote state after it. *)
Theorem trailing_blanks_ignored :
  forall (line ws : string) (headers : list string) (st : Csv.ScanState)
         (rows : list Csv.Row),
    allBlank ws = true ->
    Csv.parseHeaders (line ++ ws)%string = Csv.parseHeaders line /\
    Csv.finishRecord (Csv.scanLine (line ++ ws)%string st)
    = Csv.finishRecord (Csv.scanLine line st) /\
    Csv.pushRecord headers (Csv.scanLine (line ++ ws)%string st) rows
    = Csv.pushRecord headers (Csv.scanLine line st) rows /\
    Csv.inQuotes (Csv.scanLine (line ++ ws)%string st)
    = Csv.inQuotes (Csv.scanLine line st).
Proof.
  intros line ws headers st rows H.
  assert (Hf : Csv.finishRecord (Csv.scanLine (line ++ ws)%string st)
               = Csv.finishRecord (Csv.scanLine line st)).
  { rewrite scanLine_app, scanLine_blank by exact H.
    unfold Csv.finishRecord, Csv.finishField.
    cbn [Csv.values Csv.current]. now rewrite trim_app_blank. }
  repeat apply conj.
  - assert (Hc : JS.includes JS.comma ws = false).
    { clear Hf. induction ws as [|c ws IH]; [reflexivity|].
      cbn [allBlank] in H. destruct (JS.isWhiteSpace c) eqn:Ec;
        [|discriminate].
      destruct (blank_not_separator c Ec) as (_ & _ & Hc).
      rewrite includes_cons, Hc. now apply IH. }
    destruct (split_app_last JS.comma line ws Hc) as (init & last & E1 & E2).
    unfold Csv.parseHeaders. rewrite E1, E2, !List.map_app. cbn [map].
    now rewrite trim_app_blank.
  - exact Hf.
  - unfold Csv.pushRecord. now rewrite Hf.
  - rewrite scanLine_app, scanLine_blank by exact H. reflexivity.
Qed.

Lemma trailing_blanks_ignored_witness :
  Csv.parseHeaders ("subject,body" ++ String (ascii_of_N 13) EmptyString)
  = Csv.parseHeaders "subject,body".
Proof.
  exact (proj1 (trailing_blanks_ignored
                  "subject,body" (String (ascii_of_N 13) EmptyString)
                  [] Csv.initScan [] eq_refl)).
Defined.

(** ** The flags of [calculateMetrics] *)

Lemma digitValue_range radix c d :
  Num.digitValue radix c = Some d -> (0 <= d)%Z.
Proof.
  unfold Num.digitValue. cbv zeta.
  set (v := if JS.between 48 57 c then _ else _).
  assert (Hv : match v with Some x => (0 <= x)%Z | None => True end).
  { subst v. destruct c as [[] [] [] [] [] [] [] []]; vm_compute;
      first [exact I | discriminate]. }
  destruct v as [x|]; [|discriminate].
  destruct (x <? radix)%Z; [|discriminate]. now intros [= <-].
Qed.

Lemma digitsFrom_nonneg radix s : forall acc n,
  (0 <= radix)%Z ->
  match acc with Some a => (0 <= a)%Z | None => True end ->
  Num.digitsFrom radix acc s = Some n -> (0 <= n)%Z.
Proof.
  induction s as [|c s IH]; intros acc n Hr Ha; cbn [Num.digitsFrom].
  - intros ->. exact Ha.
  - destruct (Num.digitValue radix c) as [d|] eqn:Ed.
    + apply IH; [exact Hr|]. apply digitValue_range in Ed.
      destruct acc as [a|]; [nia | exact Ed].
    + intros ->. exact Ha.
Qed.

Lemma decimal_digit c d :
  Num.digitValue 10 c = Some d -> JS.isDigit c = true.
Proof.
  destruct c as [[] [] [] [] [] [] [] []]; vm_compute;
    first [discriminate | reflexivity].
Qed.

(** X23. An engagement flag is true only for a value that, after leading
    blanks and an optional plus sign, starts with a decimal digit: words
    such as yes or true, empty values and negative numbers never count as
    opened, clicked or replied. *)
Theorem flag_needs_leading_digit :
  forall v : string,
    Num.gt0 (Num.parseInt v) = true ->
    exists c rest,
      (JS.trimStart v = String c rest \/
       JS.trimStart v = String "+" (String c rest)) /\
      JS.isDigit c = true.
Proof.
  intros v. unfold Num.parseInt. cbv zeta.
  assert (Hdec : forall s n,
             Num.digitsFrom 10 None s = Some n ->
             exists c rest, s = String c rest /\ JS.isDigit c = true).
  { intros [|c rest] n; cbn [Num.digitsFrom]; [discriminate|].
    destruct (Num.digitValue 10 c) eqn:Ed; [|discriminate].
    intros _. exists c, rest. split; [reflexivity|].
    now apply decimal_digit in Ed. }
  assert (Hhex : forall s s', Num.hasHexPrefix s = Some s' ->
             exists rest, s = String "0" rest).
  { intros [|c0 [|c1 s]] s'; cbn [Num.hasHexPrefix]; try discriminate.
    destruct (Ascii.eqb_spec c0 "0") as [->|_]; [|discriminate].
    intros _. now eexists. }
  assert (Hbody : forall s,
             (let '(radix, s2) :=
                match Num.hasHexPrefix s with
                | Some s' => (16%Z, s')
                | None => (10%Z, s)
                end in
              exists n, Num.digitsFrom radix None s2 = Some n) ->
             exists c rest, s = String c rest /\ JS.isDigit c = true).
  { intros s. destruct (Num.hasHexPrefix s) as [s'|] eqn:Eh.
    - intros _. destruct (Hhex _ _ Eh) as [rest ->]. now exists "0"%char, rest.
    - intros [n Hn]. now apply Hdec in Hn. }
  destruct (JS.trimStart v) as [|c s0] eqn:Ev.
  - cbn [Num.hasHexPrefix Num.digitsFrom Num.gt0]. discriminate.
  - destruct (Ascii.eqb_spec c "-") as [->|Hm].
    + destruct (Num.hasHexPrefix s0) as [s'|].
      * destruct (Num.digitsFrom 16 None s') as [n|] eqn:En;
          [|discriminate]. cbn [Num.gt0]. intros H. apply Z.ltb_lt in H.
        apply digitsFrom_nonneg in En; [lia | lia | exact I].
      * destruct (Num.digitsFrom 10 None s0) as [n|] eqn:En;
          [|discriminate]. cbn [Num.gt0]. intros H. apply Z.ltb_lt in H.
        apply digitsFrom_nonneg in En; [lia | lia | exact I].
    + destruct (Ascii.eqb_spec c "+") as [->|Hp].
      * intros H. destruct (Hbody s0) as (d & rest & -> & Hd).
        { revert H.
          destruct (Num.hasHexPrefix s0) as [s'|]; cbv beta iota zeta;
            [destruct (Num.digitsFrom 16 None s') as [n|]
            |destruct (Num.digitsFrom 10 None s0) as [n|]];
            intros H; first [now exists n | discriminate H]. }
        exists d, rest. split; [now right | exact Hd].
      * intros H. destruct (Hbody (String c s0)) as (d & rest & E & Hd).
        { revert H.
          destruct (Num.hasHexPrefix (String c s0)) as [s'|];
            cbv beta iota zeta;
            [destruct (Num.digitsFrom 16 None s') as [n|]
            |destruct (Num.digitsFrom 10 None (String c s0)) as [n|]];
            intros H; first [now exists n | discriminate H]. }
        exists d, rest. split; [now left | exact Hd].
Qed.

Lemma flag_needs_leading_digit_witness :
  exists c rest,
    (JS.trimStart " 12 opens" = String c rest \/
     JS.trimStart " 12 opens" = String "+" (String c rest)) /\
    JS.isDigit c = true.
Proof. exact (flag_needs_leading_digit " 12 opens" eq_refl). Defined.

(** ** C7: the value of a quoted field that runs over a line end *)









(** *** A line feed in a trimmed text *)





Lemma allBlank_trimStart s :
  allBlank s = false -> allBlank (JS.trimStart s) = false.
Proof.
  induction s as [|c s IH]; [easy|]. cbn [allBlank JS.trimStart].
  destruct (JS.isWhiteSpace c) eqn:E; [exact IH|].
  intros _. cbn [allBlank]. now rewrite E.
Qed.



